(** * BirdBox monitor: the event pipeline of [birdbox/monitor.py]

    A shallow embedding of the upload side of the sync core: the watchdog
    file events, the coalescing done by [upload_worker], the handlers of
    [DropboxUploadSync], and the orchestration methods of [BirdBoxMonitor]
    (start, resume, pause, stop, offline reconciliation).

    Conventions.
    - Times ([time.time()], [st_ctime], the [lastsync] config entry) are
      integers counting milliseconds; only their order and the effect of
      [time.sleep] matter to the code.
    - A path is the UTF-8 encoding of the Python [str], a string of 8-bit
      characters: [startswith], [count] of a period and [basename] are the
      same on the encoding as on the [str]. [str.lower] works from the
      Unicode tables of the interpreter, which are not code of the
      program: it is a function the definitions take as a parameter, and
      every property holds whatever that function is.
    - The Dropbox client ([birdbox.client]) and the operating system are
      not part of [monitor.py]: they are records of functions the
      definitions take as parameters.
    - Of the Dropbox SDK the model has what [monitor.py] runs itself: the
      constructor [dropbox.files.WriteMode], which validates the revision
      it is given and raises [ValidationError] when it is no revision. *)

From stdpp Require Import base decidable option list strings gmap fin_maps.
From Stdlib Require Import ZArith Lia.
From Stdlib Require Import Ascii.
From Stdlib Require String.

Local Open Scope Z_scope.

(** ** Strings *)

(** [s.startswith(p)] *)
Definition startswith (s p : string) : bool := String.prefix p s.

(** [s.count(c)] for a one-character needle. *)
Fixpoint count (s : string) (c : Ascii.ascii) : nat :=
  match s with
  | EmptyString => 0%nat
  | String d r => ((if Ascii.eqb d c then 1 else 0) + count r c)%nat
  end.

(** [os.path.basename]: what follows the last separator. *)
Fixpoint basename_from (acc s : string) : string :=
  match s with
  | EmptyString => acc
  | String c r =>
      if Ascii.eqb c "/"%char then basename_from EmptyString r
      else basename_from (acc +:+ String c EmptyString) r
  end.

Definition basename (s : string) : string := basename_from EmptyString s.

(** ** Watchdog file events *)

Inductive EventType :=
| EVENT_TYPE_MOVED
| EVENT_TYPE_DELETED
| EVENT_TYPE_CREATED
| EVENT_TYPE_MODIFIED.

(** The fields of a watchdog event. [dest_path] exists on moved events
    only. The record is exactly watchdog's comparison key
    [(event_type, src_path, [dest_path,] is_directory)]. *)
Record FileSystemEvent := {
  event_type : EventType;
  src_path : string;
  dest_path : option string;
  is_directory : bool
}.

#[global] Instance EventType_eq_dec : EqDecision EventType.
Proof. solve_decision. Defined.

#[global] Instance FileSystemEvent_eq_dec : EqDecision FileSystemEvent.
Proof. solve_decision. Defined.

Definition is_type (t : EventType) (e : FileSystemEvent) : bool :=
  bool_decide (event_type e = t).

Definition DirModifiedEvent (p : string) : FileSystemEvent :=
  {| event_type := EVENT_TYPE_MODIFIED; src_path := p; dest_path := None; is_directory := true |}.
Definition FileModifiedEvent (p : string) : FileSystemEvent :=
  {| event_type := EVENT_TYPE_MODIFIED; src_path := p; dest_path := None; is_directory := false |}.
Definition DirCreatedEvent (p : string) : FileSystemEvent :=
  {| event_type := EVENT_TYPE_CREATED; src_path := p; dest_path := None; is_directory := true |}.
Definition FileCreatedEvent (p : string) : FileSystemEvent :=
  {| event_type := EVENT_TYPE_CREATED; src_path := p; dest_path := None; is_directory := false |}.
Definition DirDeletedEvent (p : string) : FileSystemEvent :=
  {| event_type := EVENT_TYPE_DELETED; src_path := p; dest_path := None; is_directory := true |}.
Definition FileDeletedEvent (p : string) : FileSystemEvent :=
  {| event_type := EVENT_TYPE_DELETED; src_path := p; dest_path := None; is_directory := false |}.
Definition DirMovedEvent (p q : string) : FileSystemEvent :=
  {| event_type := EVENT_TYPE_MOVED; src_path := p; dest_path := Some q; is_directory := true |}.
Definition FileMovedEvent (p q : string) : FileSystemEvent :=
  {| event_type := EVENT_TYPE_MOVED; src_path := p; dest_path := Some q; is_directory := false |}.

(** ** Coalescing of a batch ([upload_worker], lines 327-404)

    The worker tells events apart in two ways. [x is not parent_event]
    compares objects; every event taken from the queue is an object of its
    own, so an object is an event together with its position in the batch.
    [set(...)] compares elements with their [__eq__]: object identity for a
    plain Python object, the comparison key for the event classes of
    watchdog. The coalescing is defined for both readings, and the results
    below hold for both. *)

Definition obj : Type := nat * FileSystemEvent.

Inductive set_equality := ByIdentity | ByKey.

Definition py_eq (m : set_equality) (x y : obj) : bool :=
  match m with
  | ByIdentity => bool_decide (x.1 = y.1)
  | ByKey => bool_decide (x.2 = y.2)
  end.

(** [x is not y] *)
Definition is_not (x y : obj) : bool := negb (bool_decide (x.1 = y.1)).

(** [set(l)]: the first of each class of equal elements is kept. *)
Fixpoint py_set (m : set_equality) (l : list obj) : list obj :=
  match l with
  | [] => []
  | x :: r => x :: filter (λ y, negb (py_eq m x y)) (py_set m r)
  end.

(** [a - b] on sets. *)
Definition py_diff (m : set_equality) (a b : list obj) : list obj :=
  filter (λ x, negb (existsb (py_eq m x) b)) a.

Definition is_moved_folder (x : obj) : bool :=
  let is_moved_event := is_type EVENT_TYPE_MOVED x.2 in
  is_moved_event && is_directory x.2.

Definition is_moved_child (x parent_event : obj) : bool :=
  let is_moved_event := is_type EVENT_TYPE_MOVED x.2 in
  let is_child := startswith (src_path x.2) (src_path parent_event.2)
                  && is_not x parent_event in
  is_moved_event && is_child.

Definition is_deleted_folder (x : obj) : bool :=
  let is_deleted_event := is_type EVENT_TYPE_DELETED x.2 in
  is_deleted_event && is_directory x.2.

Definition is_deleted_child (x parent_event : obj) : bool :=
  let is_deleted_event := is_type EVENT_TYPE_DELETED x.2 in
  let is_child := startswith (src_path x.2) (src_path parent_event.2)
                  && is_not x parent_event in
  is_deleted_event && is_child.

Definition is_created (x : obj) : bool := is_type EVENT_TYPE_CREATED x.2.

Definition is_modified_duplicate (x original : obj) : bool :=
  let is_modified_event := is_type EVENT_TYPE_MODIFIED x.2 in
  let is_duplicate := bool_decide (src_path x.2 = src_path original.2) in
  is_modified_event && is_duplicate.

(** The list built by [for p in parents: children = [x for x in events if
    child(x, p)]; acc += children]. *)
Definition gather (child : obj → obj → bool) (parents events : list obj) : list obj :=
  flat_map (λ parent_event, filter (λ x, child x parent_event) events) parents.

Definition combine_moved (m : set_equality) (events : list obj) : list obj :=
  let moved_folder_events := filter is_moved_folder events in
  let child_move_events := gather is_moved_child moved_folder_events events in
  py_diff m (py_set m events) (py_set m child_move_events).

Definition combine_deleted (m : set_equality) (events : list obj) : list obj :=
  let deleted_folder_events := filter is_deleted_folder events in
  let child_deleted_events := gather is_deleted_child deleted_folder_events events in
  py_diff m (py_set m events) (py_set m child_deleted_events).

Definition combine_created (m : set_equality) (events : list obj) : list obj :=
  let created_file_events := filter is_created events in
  let duplicate_modified_events :=
    gather is_modified_duplicate created_file_events events in
  py_diff m (py_set m events) (py_set m duplicate_modified_events).

Definition coalesce (m : set_equality) (events : list obj) : list obj :=
  combine_created m (combine_deleted m (combine_moved m events)).

(** The objects of a batch drained from the queue. *)
Definition objects (batch : list FileSystemEvent) : list obj := imap pair batch.

(** The events of the coalesced batch. *)
Definition coalesced (m : set_equality) (batch : list FileSystemEvent) : list FileSystemEvent :=
  (coalesce m (objects batch)).*2.

(** ** Errors, remote metadata, remote calls *)

Inductive exn :=
| Timeout            (* requests.exceptions.Timeout *)
| ConnectionError    (* requests.exceptions.ConnectionError *)
| HTTPError          (* requests.exceptions.HTTPError *)
| KeyboardInterrupt
| SystemExit
| OSError
| KeyError
| AttributeError
| ApiError
| ValidationError.   (* dropbox.stone_validators.ValidationError *)

Definition CONNECTION_ERRORS (e : exn) : bool :=
  match e with
  | Timeout | ConnectionError | HTTPError => true
  | _ => false
  end.

Definition is_interrupt (e : exn) : bool :=
  match e with
  | KeyboardInterrupt | SystemExit => true
  | _ => false
  end.

(** A value of [dropbox.files.WriteMode]: [add], or [update] with the
    revision to replace. *)
Inductive WriteMode :=
| WriteMode_add
| WriteMode_update (rev : string).

(** [dropbox.files.Rev_validator], that is
    [String(min_length=9, pattern="[0-9a-f]+")]: at least nine characters,
    each of them a digit or one of the letters a to f. *)
Definition is_hex (c : Ascii.ascii) : bool :=
  let n := Ascii.nat_of_ascii c in
  ((48 <=? n)%nat && (n <=? 57)%nat) || ((97 <=? n)%nat && (n <=? 102)%nat).

Fixpoint all_hex (s : string) : bool :=
  match s with
  | EmptyString => true
  | String c r => is_hex c && all_hex r
  end.

Definition Rev_validator (val : string) : bool :=
  (9 <=? String.length val)%nat && all_hex val.

Inductive Metadata :=
| FileMetadata (path rev : string)
| FolderMetadata (path : string)
| DeletedMetadata (path : string).

Definition path_display (md : Metadata) : string :=
  match md with
  | FileMetadata p _ | FolderMetadata p | DeletedMetadata p => p
  end.

(** The calls that reach the Dropbox servers, as the client receives them. *)
Inductive call :=
| call_move (dbx_path dbx_path2 : string)
| call_upload (local_path dbx_path : string) (autorename : bool) (mode : WriteMode)
| call_remove (dbx_path : string)
| call_get_metadata (dbx_path : string)
| call_make_dir (dbx_path : string)
| call_list_folder (dbx_path : string) (recursive : bool)
| call_get_space_usage.

(** The client of [birdbox.client], of which [monitor.py] only has the
    calls. Path translation, the exclusion policy and the revision store
    are functions; an answer of the remote side may depend on the calls
    made before it, and is a result or an exception. [upload] answers with
    the [path_display] and [rev] of a file's metadata, [list_folder] with
    pages that [flatten_results_list] concatenates. *)
Record Client := {
  dropbox_path : string;
  to_dbx_path : string → string;
  to_local_path : string → string;
  is_excluded : string → bool;
  get_local_rev : gmap string string → string → option string;
  set_local_rev : gmap string string → string → option string → gmap string string;
  move : list call → string → string → exn + Metadata;
  upload : list call → string → string → bool → WriteMode → exn + string * string;
  remove : list call → string → exn + option Metadata;
  get_metadata : list call → string → exn + option Metadata;
  make_dir : list call → string → exn + Metadata;
  list_folder : list call → string → bool → exn + list (list Metadata);
  get_space_usage : list call → exn + Z
}.

Definition flatten_results_list (results : list (list Metadata)) : list Metadata :=
  concat results.

(** ** The operating system *)

Record stat_result := {
  st_ino : Z;
  st_dev : Z;
  st_ctime : Z;
  st_mtime : Z
}.

(** [watchdog.utils.dirsnapshot.DirectorySnapshot]: the two dictionaries
    the monitor touches. *)
Record DirectorySnapshot := {
  _stat_info : gmap string stat_result;
  _inode_to_path : gmap (Z * Z) string
}.

(** What the platform the program runs on gives it: the file system as it
    is at a given time, and the case mapping of the interpreter.
    [getsize] is [None] where [os.path.getsize] raises [OSError];
    [scandir t root] is the snapshot [DirectorySnapshot(root)] builds at
    time [t]; [lower s] is [s.lower()]. *)
Record OS := {
  isfile : Z → string → bool;
  isdir : Z → string → bool;
  getsize : Z → string → option Z;
  scandir : Z → string → DirectorySnapshot;
  lower : string → string
}.

(** ** The state shared by the threads *)

Record TimedQueue := {
  queue : list FileSystemEvent;
  update_time : Z
}.

Inductive signal := connected_signal | disconnected_signal | account_usage_signal.

(** The bound methods the monitor connects to signals. *)
Inductive slot := slot_resume | slot_pause.

Inductive thread :=
| BirdBoxConnectionHelper
| BirdBoxDownloader
| BirdBoxUploader
| LocalObserver.

#[global] Instance signal_eq_dec : EqDecision signal.
Proof. solve_decision. Defined.
#[global] Instance slot_eq_dec : EqDecision slot.
Proof. solve_decision. Defined.
#[global] Instance thread_eq_dec : EqDecision thread.
Proof. solve_decision. Defined.

Record World := {
  clock : Z;                             (* time.time() *)
  lastsync : Z;                          (* CONF ("internal", "lastsync") *)
  rev_dict : gmap string string;         (* client.rev_dict *)
  calls : list call;                     (* remote calls made, oldest first *)
  local_q : TimedQueue;                  (* FileEventHandler.local_q *)
  running : bool;                        (* BirdBoxMonitor.running *)
  fh_running : bool;                     (* FileEventHandler.running *)
  connected : bool;                      (* BirdBoxMonitor.connected *)
  paused_by_user : bool;
  receivers : list (signal * slot);      (* signal connections *)
  sent : list signal;                    (* signals sent, oldest first *)
  threads : list thread;                 (* threads started *)
  local_observer_thread : option bool;   (* attribute set by start; alive? *)
  log : list string                      (* logger.info, oldest first *)
}.

Definition set_clock (v : Z) (w : World) : World :=
  {| clock := v; lastsync := lastsync w; rev_dict := rev_dict w; calls := calls w;
     local_q := local_q w; running := running w; fh_running := fh_running w;
     connected := connected w; paused_by_user := paused_by_user w;
     receivers := receivers w; sent := sent w; threads := threads w;
     local_observer_thread := local_observer_thread w; log := log w |}.

Definition set_lastsync (v : Z) (w : World) : World :=
  {| clock := clock w; lastsync := v; rev_dict := rev_dict w; calls := calls w;
     local_q := local_q w; running := running w; fh_running := fh_running w;
     connected := connected w; paused_by_user := paused_by_user w;
     receivers := receivers w; sent := sent w; threads := threads w;
     local_observer_thread := local_observer_thread w; log := log w |}.

Definition set_rev_dict (v : gmap string string) (w : World) : World :=
  {| clock := clock w; lastsync := lastsync w; rev_dict := v; calls := calls w;
     local_q := local_q w; running := running w; fh_running := fh_running w;
     connected := connected w; paused_by_user := paused_by_user w;
     receivers := receivers w; sent := sent w; threads := threads w;
     local_observer_thread := local_observer_thread w; log := log w |}.

Definition set_calls (v : list call) (w : World) : World :=
  {| clock := clock w; lastsync := lastsync w; rev_dict := rev_dict w; calls := v;
     local_q := local_q w; running := running w; fh_running := fh_running w;
     connected := connected w; paused_by_user := paused_by_user w;
     receivers := receivers w; sent := sent w; threads := threads w;
     local_observer_thread := local_observer_thread w; log := log w |}.

Definition set_local_q (v : TimedQueue) (w : World) : World :=
  {| clock := clock w; lastsync := lastsync w; rev_dict := rev_dict w; calls := calls w;
     local_q := v; running := running w; fh_running := fh_running w;
     connected := connected w; paused_by_user := paused_by_user w;
     receivers := receivers w; sent := sent w; threads := threads w;
     local_observer_thread := local_observer_thread w; log := log w |}.

Definition set_running (v : bool) (w : World) : World :=
  {| clock := clock w; lastsync := lastsync w; rev_dict := rev_dict w; calls := calls w;
     local_q := local_q w; running := v; fh_running := fh_running w;
     connected := connected w; paused_by_user := paused_by_user w;
     receivers := receivers w; sent := sent w; threads := threads w;
     local_observer_thread := local_observer_thread w; log := log w |}.

Definition set_fh_running (v : bool) (w : World) : World :=
  {| clock := clock w; lastsync := lastsync w; rev_dict := rev_dict w; calls := calls w;
     local_q := local_q w; running := running w; fh_running := v;
     connected := connected w; paused_by_user := paused_by_user w;
     receivers := receivers w; sent := sent w; threads := threads w;
     local_observer_thread := local_observer_thread w; log := log w |}.

Definition set_connected (v : bool) (w : World) : World :=
  {| clock := clock w; lastsync := lastsync w; rev_dict := rev_dict w; calls := calls w;
     local_q := local_q w; running := running w; fh_running := fh_running w;
     connected := v; paused_by_user := paused_by_user w;
     receivers := receivers w; sent := sent w; threads := threads w;
     local_observer_thread := local_observer_thread w; log := log w |}.

Definition set_paused_by_user (v : bool) (w : World) : World :=
  {| clock := clock w; lastsync := lastsync w; rev_dict := rev_dict w; calls := calls w;
     local_q := local_q w; running := running w; fh_running := fh_running w;
     connected := connected w; paused_by_user := v;
     receivers := receivers w; sent := sent w; threads := threads w;
     local_observer_thread := local_observer_thread w; log := log w |}.

Definition set_receivers (v : list (signal * slot)) (w : World) : World :=
  {| clock := clock w; lastsync := lastsync w; rev_dict := rev_dict w; calls := calls w;
     local_q := local_q w; running := running w; fh_running := fh_running w;
     connected := connected w; paused_by_user := paused_by_user w;
     receivers := v; sent := sent w; threads := threads w;
     local_observer_thread := local_observer_thread w; log := log w |}.

Definition set_sent (v : list signal) (w : World) : World :=
  {| clock := clock w; lastsync := lastsync w; rev_dict := rev_dict w; calls := calls w;
     local_q := local_q w; running := running w; fh_running := fh_running w;
     connected := connected w; paused_by_user := paused_by_user w;
     receivers := receivers w; sent := v; threads := threads w;
     local_observer_thread := local_observer_thread w; log := log w |}.

Definition set_threads (v : list thread) (w : World) : World :=
  {| clock := clock w; lastsync := lastsync w; rev_dict := rev_dict w; calls := calls w;
     local_q := local_q w; running := running w; fh_running := fh_running w;
     connected := connected w; paused_by_user := paused_by_user w;
     receivers := receivers w; sent := sent w; threads := v;
     local_observer_thread := local_observer_thread w; log := log w |}.

Definition set_local_observer_thread (v : option bool) (w : World) : World :=
  {| clock := clock w; lastsync := lastsync w; rev_dict := rev_dict w; calls := calls w;
     local_q := local_q w; running := running w; fh_running := fh_running w;
     connected := connected w; paused_by_user := paused_by_user w;
     receivers := receivers w; sent := sent w; threads := threads w;
     local_observer_thread := v; log := log w |}.

Definition set_log (v : list string) (w : World) : World :=
  {| clock := clock w; lastsync := lastsync w; rev_dict := rev_dict w; calls := calls w;
     local_q := local_q w; running := running w; fh_running := fh_running w;
     connected := connected w; paused_by_user := paused_by_user w;
     receivers := receivers w; sent := sent w; threads := threads w;
     local_observer_thread := local_observer_thread w; log := v |}.

(** ** Computations: state, exceptions, and calls that do not return *)

Inductive outcome (A : Type) :=
| Ret (a : A)          (* returns *)
| Raise (e : exn)      (* raises *)
| Hang.                (* blocks for ever, or loops beyond the fuel given *)
Arguments Ret {A} a.
Arguments Raise {A} e.
Arguments Hang {A}.

Definition M (A : Type) : Type := World → outcome A * World.

#[global] Instance M_ret : MRet M := λ A a w, (Ret a, w).

#[global] Instance M_bind : MBind M := λ A B k c w,
  match c w with
  | (Ret a, w') => k a w'
  | (Raise e, w') => (Raise e, w')
  | (Hang, w') => (Hang, w')
  end.

Definition raise {A} (e : exn) : M A := λ w, (Raise e, w).
Definition hang {A} : M A := λ w, (Hang, w).
Definition gets {A} (f : World → A) : M A := λ w, (Ret (f w), w).
Definition modify (f : World → World) : M unit := λ w, (Ret tt, f w).

(** [for x in l: body(x)] *)
Fixpoint for_ {A} (l : list A) (body : A → M unit) : M unit :=
  match l with
  | [] => mret tt
  | x :: r => body x;; for_ r body
  end.

(** [try: body / except (KeyboardInterrupt, SystemExit): raise /
    except CONNECTION_ERRORS: handler]. Other exceptions pass through. *)
Definition try_except (body handler : M unit) : M unit := λ w,
  match body w with
  | (Raise e, w') =>
      if is_interrupt e then (Raise e, w')
      else if CONNECTION_ERRORS e then handler w'
      else (Raise e, w')
  | r => r
  end.

Definition time_time : M Z := gets clock.
Definition time_sleep (d : Z) : M unit := modify (λ w, set_clock (clock w + d) w).
Definition CONF_get_lastsync : M Z := gets lastsync.
Definition CONF_set_lastsync (t : Z) : M unit := modify (set_lastsync t).
Definition logger_info (msg : string) : M unit := modify (λ w, set_log (log w ++ [msg]) w).

(** [TimedQueue]: [put] appends and remembers the time; [get] blocks on an
    empty queue. *)
Definition local_q_put (item : FileSystemEvent) : M unit :=
  modify (λ w, set_local_q {| queue := queue (local_q w) ++ [item]; update_time := clock w |} w).

Definition local_q_get : M FileSystemEvent := λ w,
  match queue (local_q w) with
  | [] => (Hang, w)
  | item :: r => (Ret item, set_local_q {| queue := r; update_time := update_time (local_q w) |} w)
  end.

Definition local_q_qsize : M nat := gets (λ w, length (queue (local_q w))).

(** [dropbox.files.WriteMode("update", rev)]: the constructor runs
    [Rev_validator] on [rev], which raises [ValidationError] for [None]
    and for a string that is no revision, such as ["folder"]. *)
Definition files_WriteMode_update (rev : option string) : M WriteMode :=
  match rev with
  | Some val => if Rev_validator val then mret (WriteMode_update val)
                else raise ValidationError
  | None => raise ValidationError
  end.

Section Monitor.

Variable client : Client.
Variable os : OS.

(** *** Calls on the client *)

(** A remote call is recorded, and returns or raises what the remote side
    answers. *)
Definition remote {A} (c : call) (answer : list call → exn + A) : M A := λ w,
  match answer (calls w) with
  | inl e => (Raise e, set_calls (calls w ++ [c]) w)
  | inr a => (Ret a, set_calls (calls w ++ [c]) w)
  end.

Definition client_move (dbx_path dbx_path2 : string) : M Metadata :=
  remote (call_move dbx_path dbx_path2) (λ h, move client h dbx_path dbx_path2).

Definition client_upload (local_path dbx_path : string) (autorename : bool)
    (mode : WriteMode) : M (string * string) :=
  remote (call_upload local_path dbx_path autorename mode)
         (λ h, upload client h local_path dbx_path autorename mode).

Definition client_remove (dbx_path : string) : M (option Metadata) :=
  remote (call_remove dbx_path) (λ h, remove client h dbx_path).

Definition client_get_metadata (dbx_path : string) : M (option Metadata) :=
  remote (call_get_metadata dbx_path) (λ h, get_metadata client h dbx_path).

Definition client_make_dir (dbx_path : string) : M Metadata :=
  remote (call_make_dir dbx_path) (λ h, make_dir client h dbx_path).

Definition client_list_folder (dbx_path : string) (recursive : bool) : M (list (list Metadata)) :=
  remote (call_list_folder dbx_path recursive) (λ h, list_folder client h dbx_path recursive).

Definition client_get_space_usage : M Z :=
  remote call_get_space_usage (get_space_usage client).

Definition client_get_local_rev (dbx_path : string) : M (option string) :=
  gets (λ w, get_local_rev client (rev_dict w) dbx_path).

Definition client_set_local_rev (dbx_path : string) (rev : option string) : M unit :=
  modify (λ w, set_rev_dict (set_local_rev client (rev_dict w) dbx_path rev) w).

(** *** Calls on the operating system *)

Definition osp_isfile (path : string) : M bool := gets (λ w, isfile os (clock w) path).
Definition osp_isdir (path : string) : M bool := gets (λ w, isdir os (clock w) path).

Definition osp_getsize (path : string) : M Z := λ w,
  match getsize os (clock w) path with
  | Some n => (Ret n, w)
  | None => (Raise OSError, w)
  end.

(** [while True: size1 = getsize(path); sleep(d); size2 = getsize(path);
    if size1 == size2: break] *)
Fixpoint wait_until_created (fuel : nat) (path : string) (d : Z) : M unit :=
  match fuel with
  | O => hang
  | S n =>
      size1 ← osp_getsize path;
      time_sleep d;;
      size2 ← osp_getsize path;
      if bool_decide (size1 = size2) then mret tt
      else wait_until_created n path d
  end.

(** *** [FileEventHandler] *)

Definition FileEventHandler_on_any_event (event : FileSystemEvent) : M unit :=
  active ← gets fh_running;
  if active : bool then local_q_put event else mret tt.

(** *** [DropboxUploadSync] *)

Definition on_moved (event : FileSystemEvent) : M unit :=
  let path := src_path event in
  match dest_path event with
  | None => raise AttributeError
  | Some path2 =>
      let dbx_path := to_dbx_path client path in
      let dbx_path2 := to_dbx_path client path2 in
      if is_excluded client dbx_path2 then mret tt
      else if bool_decide (1 < count (basename path2) ".")%nat then mret tt
      else
        metadata ← client_move dbx_path dbx_path2;
        client_set_local_rev dbx_path None;;
        match metadata with
        | FileMetadata _ rev => client_set_local_rev dbx_path2 (Some rev)
        | FolderMetadata _ =>
            client_set_local_rev dbx_path2 (Some "folder");;
            results ← client_list_folder dbx_path2 true;
            let results_list := flatten_results_list results in
            for_ results_list (λ md,
              match md with
              | FileMetadata p rev => client_set_local_rev p (Some rev)
              | FolderMetadata p => client_set_local_rev p (Some "folder")
              | DeletedMetadata _ => mret tt
              end)
        | DeletedMetadata _ => mret tt
        end;;
        t ← time_time;
        CONF_set_lastsync t
  end.

Definition on_created (fuel : nat) (event : FileSystemEvent) : M unit :=
  let path := src_path event in
  let dbx_path := to_dbx_path client path in
  if is_excluded client dbx_path then mret tt
  else
    (if negb (is_directory event) then
       file ← osp_isfile path;
       if file : bool then
         wait_until_created fuel path 500;;
         rev ← client_get_local_rev dbx_path;
         mode ← match rev with
                | None => mret WriteMode_add
                | Some _ => files_WriteMode_update rev
                end;
         md ← client_upload path dbx_path true mode;
         client_set_local_rev md.1 (Some md.2)
       else mret tt
     else
       md ← client_get_metadata dbx_path;
       match md with
       | None => client_make_dir dbx_path;; mret tt
       | Some _ => mret tt
       end;;
       client_set_local_rev dbx_path (Some "folder"));;
    t ← time_time;
    CONF_set_lastsync t.

Definition on_deleted (event : FileSystemEvent) : M unit :=
  let path := src_path event in
  let dbx_path := to_dbx_path client path in
  if is_excluded client dbx_path then mret tt
  else
    rev ← client_get_local_rev dbx_path;
    match rev with
    | Some _ =>
        md ← client_remove dbx_path;
        match md with
        | Some md => client_set_local_rev (path_display md) None
        | None => mret tt
        end
    | None => mret tt
    end;;
    t ← time_time;
    CONF_set_lastsync t.

Definition on_modified (fuel : nat) (event : FileSystemEvent) : M unit :=
  let path := src_path event in
  let dbx_path := to_dbx_path client path in
  if is_excluded client dbx_path then mret tt
  else
    (if negb (is_directory event) then
       file ← osp_isfile path;
       if file : bool then
         wait_until_created fuel path 200;;
         rev ← client_get_local_rev dbx_path;
         mode ← files_WriteMode_update rev;
         md ← client_upload path dbx_path true mode;
         mret tt
       else mret tt
     else mret tt);;
    t ← time_time;
    CONF_set_lastsync t.

(** *** [BirdBoxMonitor]: offline reconciliation *)

(** [snapshot.inode(path)] *)
Definition inode (snapshot : DirectorySnapshot) (path : string) : M (Z * Z) :=
  match _stat_info snapshot !! path with
  | Some st => mret (st_ino st, st_dev st)
  | None => raise KeyError
  end.

(** [del snapshot._inode_to_path[i]] *)
Definition del_inode_to_path (snapshot : DirectorySnapshot) (i : Z * Z) : M DirectorySnapshot :=
  match _inode_to_path snapshot !! i with
  | Some _ => mret {| _stat_info := _stat_info snapshot;
                      _inode_to_path := delete i (_inode_to_path snapshot) |}
  | None => raise KeyError
  end.

(** [del snapshot._stat_info[path]] *)
Definition del_stat_info (snapshot : DirectorySnapshot) (path : string) : M DirectorySnapshot :=
  match _stat_info snapshot !! path with
  | Some _ => mret {| _stat_info := delete path (_stat_info snapshot);
                      _inode_to_path := _inode_to_path snapshot |}
  | None => raise KeyError
  end.

(** The event for one snapshot path, if it changed since the last sync. *)
Definition modified_or_added (t last_sync : Z) (revs : gmap string string)
    (entry : string * stat_result) : option FileSystemEvent :=
  let path := entry.1 in
  let stats := entry.2 in
  if bool_decide (last_sync < Z.max (st_ctime stats) (st_mtime stats)) then
    if bool_decide (is_Some (revs !! lower os (to_dbx_path client path))) then
      Some (if isdir os t path then DirModifiedEvent path else FileModifiedEvent path)
    else
      Some (if isdir os t path then DirCreatedEvent path else FileCreatedEvent path)
  else None.

(** The event for one entry of [rev_dict], if its file is gone. *)
Definition deleted_item (lowercase_snapshot_paths : gset string)
    (entry : string * string) : option FileSystemEvent :=
  let path := entry.1 in
  if bool_decide (lower os (to_local_path client path) ∉ lowercase_snapshot_paths) then
    Some (if bool_decide (entry.2 = "folder")
          then DirDeletedEvent (to_local_path client path)
          else FileDeletedEvent (to_local_path client path))
  else None.

Definition _get_local_changes : M (list FileSystemEvent) :=
  t ← time_time;
  let snapshot := scandir os t (dropbox_path client) in
  i ← inode snapshot (dropbox_path client);
  snapshot ← del_inode_to_path snapshot i;
  snapshot ← del_stat_info snapshot (dropbox_path client);
  let lowercase_snapshot_paths : gset string :=
    list_to_set (lower os <$> (map_to_list (_stat_info snapshot)).*1) in
  last_sync ← CONF_get_lastsync;
  revs ← gets rev_dict;
  let changes := omap (modified_or_added t last_sync revs)
                      (map_to_list (_stat_info snapshot)) in
  let changes := changes ++ omap (deleted_item lowercase_snapshot_paths)
                                 (map_to_list revs) in
  mret changes.

Definition upload_local_changes_after_inactive : M unit :=
  logger_info "Indexing...";;
  events ← _get_local_changes;
  for_ events local_q_put;;
  logger_info "Up to date".

(** *** [BirdBoxMonitor]: start, resume, pause, stop *)

Definition Thread_start (th : thread) : M unit :=
  modify (λ w, set_threads (threads w ++ [th]) w).

(** [sig.connect(method)]; connecting a receiver twice keeps one
    connection. *)
Definition signal_connect (sig : signal) (s : slot) : M unit :=
  modify (λ w, if bool_decide ((sig, s) ∈ receivers w) then w
               else set_receivers (receivers w ++ [(sig, s)]) w).

Definition resume : M unit :=
  r ← gets running;
  p ← gets paused_by_user;
  if (r || p : bool) then mret tt
  else
    upload_local_changes_after_inactive;;
    modify (set_running true);;
    modify (set_fh_running true).

Definition pause : M unit :=
  modify (set_running false);;
  modify (set_fh_running false).

Definition stop : M unit :=
  modify (set_running false);;
  modify (set_fh_running false);;
  o ← gets local_observer_thread;
  match o with
  | None => raise AttributeError
  | Some _ => modify (set_local_observer_thread (Some false))
  end.

Definition start : M unit :=
  r ← gets running;
  p ← gets paused_by_user;
  if (r || p : bool) then mret tt
  else
    modify (set_local_observer_thread (Some true));;
    Thread_start LocalObserver;;
    Thread_start BirdBoxDownloader;;
    Thread_start BirdBoxUploader;;
    signal_connect connected_signal slot_resume;;
    signal_connect disconnected_signal slot_pause;;
    upload_local_changes_after_inactive;;
    modify (set_running true);;
    modify (set_fh_running true).

(** The state [BirdBoxMonitor(client)] builds in a fresh process: the class
    attributes, the empty queue of [FileEventHandler], and the connection
    thread started by [__init__]. *)
Definition BirdBoxMonitor (now last_sync : Z) (revs : gmap string string) : World :=
  {| clock := now; lastsync := last_sync; rev_dict := revs; calls := [];
     local_q := {| queue := []; update_time := 0 |};
     running := false; fh_running := false; connected := false;
     paused_by_user := true;
     receivers := []; sent := []; threads := [BirdBoxConnectionHelper];
     local_observer_thread := None; log := [] |}.

(** *** Signals *)

Definition run_slot (s : slot) : M unit :=
  match s with
  | slot_resume => resume
  | slot_pause => pause
  end.

(** [sig.send()]: the connected receivers are called in turn. *)
Definition signal_send (sig : signal) : M unit :=
  modify (λ w, set_sent (sent w ++ [sig]) w);;
  rs ← gets receivers;
  for_ (filter (λ r, r.1 = sig) rs) (λ r, run_slot r.2).

(** *** [connection_helper]: one turn of its loop *)

Definition connection_helper_turn : M unit :=
  try_except
    (res ← client_get_space_usage;
     c ← gets connected;
     (if c : bool then mret tt
      else modify (set_connected true);; signal_send connected_signal);;
     signal_send account_usage_signal;;
     time_sleep 5000)
    (modify (set_running false);;
     modify (set_connected false);;
     signal_send disconnected_signal;;
     logger_info "Connecting...";;
     time_sleep 1000).

(** *** [upload_worker]: one turn of its loop *)

Definition delay : Z := 500.

(** [t0 = time.time(); while t0 - update_time < delay: sleep(delay);
    t0 = time.time()] *)
Fixpoint wait_for_delay (fuel : nat) : M unit :=
  match fuel with
  | O => hang
  | S n =>
      t0 ← time_time;
      u ← gets (λ w, update_time (local_q w));
      if bool_decide (t0 - u < delay) then time_sleep delay;; wait_for_delay n
      else mret tt
  end.

(** [while local_q.qsize() > 0: events.append(local_q.get())] *)
Fixpoint drain (fuel : nat) : M (list FileSystemEvent) :=
  match fuel with
  | O => mret []
  | S n =>
      k ← local_q_qsize;
      if bool_decide (0 < k)%nat then
        e ← local_q_get;
        r ← drain n;
        mret (e :: r)
      else mret []
  end.

Definition dispatch_event (fuel : nat) (event : FileSystemEvent) : M unit :=
  match event_type event with
  | EVENT_TYPE_CREATED => on_created fuel event
  | EVENT_TYPE_MOVED => on_moved event
  | EVENT_TYPE_DELETED => on_deleted event
  | EVENT_TYPE_MODIFIED => on_modified fuel event
  end.

(** [with ThreadPoolExecutor(...) as executor: executor.map(fn, events)].
    [map] submits one task per event and returns an iterator over the
    results; leaving the [with] block waits for every task. What a task
    returns or raises is kept in its future, and comes out only when the
    iterator is advanced. The tasks are run here one after the other, in
    the order of the iteration: one of the schedules the pool allows. The
    block does not end while a task does not. *)
Fixpoint executor_map {A} (fn : A → M unit) (l : list A) : M (list (outcome unit)) :=
  match l with
  | [] => mret []
  | a :: r => λ w,
      match fn a w with
      | (Hang, w') => (Hang, w')
      | (future, w') =>
          match executor_map fn r w' with
          | (Ret futures, w'') => (Ret (future :: futures), w'')
          | other => other
          end
      end
  end.

(** The [with lock:] block of the worker. The iterator [executor.map]
    returns is dropped. *)
Definition process_events (fuel : nat) (events : list FileSystemEvent) : M unit :=
  try_except
    (logger_info "Syncing...";;
     _ ← executor_map (dispatch_event fuel) events;
     t ← time_time;
     CONF_set_lastsync t;;
     logger_info "Up to date")
    (logger_info "Connecting...";;
     signal_send disconnected_signal;;
     modify (set_running false)).

Definition upload_worker_turn (m : set_equality) (fuel : nat) : M unit :=
  first ← local_q_get;
  wait_for_delay fuel;;
  n ← local_q_qsize;
  more ← drain n;
  let events := first :: more in
  let events := coalesced m events in
  process_events fuel events.

End Monitor.

(** ** A concrete setting: the scenarios of the design notes

    A client and a file system to run the definitions on. The local root
    is [/root]. *)

(** [str.lower] on a path of ASCII characters, which the paths of the
    scenarios are: the letters A-Z move down by 32. *)
Definition ascii_lower_char (c : Ascii.ascii) : Ascii.ascii :=
  let n := Ascii.nat_of_ascii c in
  if ((65 <=? n)%nat && (n <=? 90)%nat)%bool then Ascii.ascii_of_nat (n + 32) else c.

Fixpoint ascii_lower (s : string) : string :=
  match s with
  | EmptyString => EmptyString
  | String c r => String (ascii_lower_char c) (ascii_lower r)
  end.

(** Modelled from the spec: the revision store of the client, which
    [monitor.py] reaches through [get_local_rev] and [set_local_rev]. It
    maps a case-normalized remote path to a revision; the absence of a key
    means that the path is not tracked, and setting [None] clears the
    entry. *)
Definition index_get_local_rev (revs : gmap string string) (dbx_path : string) :
    option string :=
  revs !! ascii_lower dbx_path.

Definition index_set_local_rev (revs : gmap string string) (dbx_path : string)
    (rev : option string) : gmap string string :=
  match rev with
  | Some r => <[ascii_lower dbx_path := r]> revs
  | None => delete (ascii_lower dbx_path) revs
  end.

(** Modelled from the spec: [to_dbx_path] and [to_local_path] of the
    client, which translate between a path below the local root and the
    remote path. *)
Definition root_to_dbx_path (local_path : string) : string :=
  if String.prefix "/root" local_path
  then String.substring 5 (String.length local_path - 5) local_path
  else local_path.

Definition root_to_local_path (dbx_path : string) : string := "/root" +:+ dbx_path.

(** A remote side on which the upload of [/b.txt] times out and the upload
    of [/c.txt] is refused; every other call succeeds. *)
Definition flaky_upload (h : list call) (local_path dbx_path : string)
    (autorename : bool) (mode : WriteMode) : exn + string * string :=
  if bool_decide (dbx_path = "/b.txt") then inl Timeout
  else if bool_decide (dbx_path = "/c.txt") then inl ApiError
  else inr (dbx_path, "a1c10ce0dd72").

Definition flaky_client : Client :=
  {| dropbox_path := "/root";
     to_dbx_path := root_to_dbx_path;
     to_local_path := root_to_local_path;
     is_excluded := λ _, false;
     get_local_rev := index_get_local_rev;
     set_local_rev := index_set_local_rev;
     move := λ _ _ dbx_path2, inr (FileMetadata dbx_path2 "a1c10ce0dd73");
     upload := flaky_upload;
     remove := λ _ dbx_path, inr (Some (DeletedMetadata dbx_path));
     get_metadata := λ _ _, inr None;
     make_dir := λ _ dbx_path, inr (FolderMetadata dbx_path);
     list_folder := λ _ _ _, inr [];
     get_space_usage := λ _, inr 0 |}.

Definition stat_at (ino t : Z) : stat_result :=
  {| st_ino := ino; st_dev := 1; st_ctime := t; st_mtime := t |}.

(** A root with one file written at time 900; every file is 4 KB and
    stays so. *)
Definition small_tree : DirectorySnapshot :=
  {| _stat_info := <["/root" := stat_at 1 100]> {["/root/New.txt" := stat_at 2 900]};
     _inode_to_path := <[(1, 1) := "/root"]> {[(2, 1) := "/root/New.txt"]} |}.

Definition quiet_os : OS :=
  {| isfile := λ _ _, true;
     isdir := λ _ _, false;
     getsize := λ _ _, Some 4096;
     scandir := λ _ _, small_tree;
     lower := ascii_lower |}.

(** [str.lower] on a path of Latin-1 letters: in UTF-8 the capitals À to Þ
    are the byte 195 and a byte from 128 to 158 other than 151 (the
    multiplication sign), and the small letter is 32 further on. *)
Fixpoint latin1_lower (s : string) : string :=
  match s with
  | EmptyString => EmptyString
  | String c EmptyString => String (ascii_lower_char c) EmptyString
  | String c (String d r as t) =>
      let n := Ascii.nat_of_ascii d in
      if ((Ascii.nat_of_ascii c =? 195)%nat && (128 <=? n)%nat && (n <=? 158)%nat
          && negb (n =? 151)%nat)%bool
      then String c (String (Ascii.ascii_of_nat (n + 32)) (latin1_lower r))
      else String (ascii_lower_char c) (latin1_lower t)
  end.

(** A root with one file, [É.txt], written at time 900. *)
Definition accented_tree : DirectorySnapshot :=
  {| _stat_info := <["/root" := stat_at 1 100]> {["/root/É.txt" := stat_at 2 900]};
     _inode_to_path := <[(1, 1) := "/root"]> {[(2, 1) := "/root/É.txt"]} |}.

Definition accented_os : OS :=
  {| isfile := λ _ _, true;
     isdir := λ _ _, false;
     getsize := λ _ _, Some 4096;
     scandir := λ _ _, accented_tree;
     lower := latin1_lower |}.

(** A monitor the user has started: time 1000, last sync at time 500,
    [/a.txt] and [/old.txt] tracked. *)
Definition tracked : gmap string string := <["/a.txt" := "a1c10ce0dd71"]> {["/old.txt" := "a1c10ce0dd70"]}.

Definition started : World :=
  {| clock := 1000; lastsync := 500; rev_dict := tracked; calls := [];
     local_q := {| queue := []; update_time := 0 |};
     running := true; fh_running := true; connected := true;
     paused_by_user := false;
     receivers := [(connected_signal, slot_resume); (disconnected_signal, slot_pause)];
     sent := [];
     threads := [BirdBoxConnectionHelper; LocalObserver; BirdBoxDownloader; BirdBoxUploader];
     local_observer_thread := Some true; log := [] |}.

Definition nested_move : list FileSystemEvent :=
  [DirMovedEvent "/root/A" "/root/Z";
   DirMovedEvent "/root/A/B" "/root/Z/B";
   FileMovedEvent "/root/A/B/x.txt" "/root/Z/B/x.txt"].

(** ** Notions used to state the properties *)

(** The three passes have one shape. *)
Definition pass (isparent : obj → bool) (child : obj → obj → bool)
    (m : set_equality) (events : list obj) : list obj :=
  py_diff m (py_set m events)
            (py_set m (gather child (filter (λ x, isparent x) events) events)).

(** When an event of the batch is certainly kept: no other folder event of
    its type has a source path that starts its own, and, for a modified
    event, no created event has its source path. *)
Definition unrelated (B : list FileSystemEvent) (k : nat) (x : FileSystemEvent) : Prop :=
  (event_type x = EVENT_TYPE_MOVED ∨ event_type x = EVENT_TYPE_DELETED →
   ∀ k' p, B !! k' = Some p → k' ≠ k → event_type p = event_type x →
           is_directory p = true →
           String.prefix (src_path p) (src_path x) = false) ∧
  (event_type x = EVENT_TYPE_MODIFIED →
   ∀ c, c ∈ B → event_type c = EVENT_TYPE_CREATED → src_path c ≠ src_path x).

(** A computation keeps an observation [f] of the state when running it
    leaves [f] as it was, whatever the outcome. *)
Definition keeps {X A : Type} (f : World → X) (c : M A) : Prop :=
  ∀ w, f (c w).2 = f w.

(** A computation that leaves [lastsync] alone until it sets it to the
    current time as its last step. *)
Definition ends_with_lastsync (c : M unit) : Prop :=
  ∀ w, match (c w).1 with
       | Ret _ => lastsync (c w).2 = clock (c w).2
       | Raise _ => lastsync (c w).2 = lastsync w
       | Hang => True
       end.

(** What a handler of [DropboxUploadSync] does to [lastsync]: it returns
    having done nothing at all or having set [lastsync] to the time of its
    return, and it raises with [lastsync] as it was. *)
Definition handled (w : World) (r : outcome unit * World) : Prop :=
  match r.1 with
  | Ret _ => r.2 = w ∨ lastsync r.2 = clock r.2
  | Raise _ => lastsync r.2 = lastsync w
  | Hang => True
  end.

(** ** The download worker ([remote_worker], lines 270-310) *)

(** The three calls of the client that only the download worker makes.
    Their answers may depend on the whole state; what
    [apply_remote_changes] does to the local folder shows here in the
    revision store it leaves, also when it raises. *)
Record RemoteChanges := {
  wait_for_remote_changes : World → Z → exn + bool;
  list_remote_changes : World → exn + list Metadata;
  apply_remote_changes : World → list Metadata → (exn + unit) * gmap string string
}.

Section Download.

Variable client : Client.
Variable os : OS.
Variable remote_changes : RemoteChanges.

(** [running.wait()]: returns at once when the event is set, and blocks
    while it is not. *)
Definition running_wait : M unit := λ w,
  if running w then (Ret tt, w) else (Hang, w).

Definition client_wait_for_remote_changes (timeout : Z) : M bool := λ w,
  match wait_for_remote_changes remote_changes w timeout with
  | inl e => (Raise e, w)
  | inr b => (Ret b, w)
  end.

Definition client_list_remote_changes : M (list Metadata) := λ w,
  match list_remote_changes remote_changes w with
  | inl e => (Raise e, w)
  | inr changes => (Ret changes, w)
  end.

Definition client_apply_remote_changes (changes : list Metadata) : M unit := λ w,
  match apply_remote_changes remote_changes w changes with
  | (inl e, revs) => (Raise e, set_rev_dict revs w)
  | (inr _, revs) => (Ret tt, set_rev_dict revs w)
  end.

(** One turn of the loop of [remote_worker]. *)
Definition remote_worker_turn : M unit :=
  running_wait;;
  try_except
    (logger_info "Up to date";;
     has_changes ← client_wait_for_remote_changes 120;
     running_wait;;
     (if has_changes : bool then
        logger_info "Syncing...";;
        modify (set_fh_running false);;
        changes ← client_list_remote_changes;
        client_apply_remote_changes changes;;
        time_sleep 2000;;
        modify (set_fh_running true)
      else mret tt);;
     logger_info "Up to date")
    (logger_info "Connecting...";;
     signal_send client os disconnected_signal;;
     modify (set_running false)).

End Download.

(** A remote side with one changed file, one that cannot be reached, and
    one whose changes fail to apply, for the concrete setting above. *)
Definition one_change : RemoteChanges :=
  {| wait_for_remote_changes := λ _ _, inr true;
     list_remote_changes := λ _, inr [FileMetadata "/r.txt" "a1c10ce0dd79"];
     apply_remote_changes := λ w _, (inr tt, <["/r.txt" := "a1c10ce0dd79"]> (rev_dict w)) |}.

Definition unreachable : RemoteChanges :=
  {| wait_for_remote_changes := λ _ _, inl ConnectionError;
     list_remote_changes := λ _, inl ConnectionError;
     apply_remote_changes := λ w _, (inl ConnectionError, rev_dict w) |}.

Definition failing_apply : RemoteChanges :=
  {| wait_for_remote_changes := λ _ _, inr true;
     list_remote_changes := λ _, inr [FileMetadata "/r.txt" "a1c10ce0dd79"];
     apply_remote_changes := λ w _, (inl OSError, rev_dict w) |}.

(** A client whose server cannot be reached. *)
Definition offline_client : Client :=
  {| dropbox_path := "/root";
     to_dbx_path := root_to_dbx_path;
     to_local_path := root_to_local_path;
     is_excluded := λ _, false;
     get_local_rev := index_get_local_rev;
     set_local_rev := index_set_local_rev;
     move := λ _ _ _, inl ConnectionError;
     upload := λ _ _ _ _ _, inl ConnectionError;
     remove := λ _ _, inl ConnectionError;
     get_metadata := λ _ _, inl ConnectionError;
     make_dir := λ _ _, inl ConnectionError;
     list_folder := λ _ _ _, inl ConnectionError;
     get_space_usage := λ _, inl ConnectionError |}.

(** ** Further notions used to state the properties *)

(** [lastsync] and the clock from one state to a later one: where
    [lastsync] is not ahead of the clock at first, neither runs backwards
    and [lastsync] is still not ahead of the clock. *)
Definition later (w w' : World) : Prop :=
  lastsync w ≤ clock w →
  clock w ≤ clock w' ∧ lastsync w ≤ lastsync w' ∧ lastsync w' ≤ clock w'.

Definition advances {A : Type} (c : M A) : Prop := ∀ w, later w (c w).2.

(** The path a handler of [DropboxUploadSync] checks against the exclusion
    policy: the destination of a moved event, the source of any other. *)
Definition checked_path (event : FileSystemEvent) : string :=
  match event_type event, dest_path event with
  | EVENT_TYPE_MOVED, Some path2 => path2
  | _, _ => src_path event
  end.

(** The revisions [on_moved] records for the entries listed below a moved
    folder. *)
Definition record_listing (client : Client) (revs : gmap string string)
    (listing : list Metadata) : gmap string string :=
  foldl (λ revs md,
           match md with
           | FileMetadata p rev => set_local_rev client revs p (Some rev)
           | FolderMetadata p => set_local_rev client revs p (Some "folder")
           | DeletedMetadata _ => revs
           end) revs listing.

(** What [set] compares of an object: the object itself, or the event it
    carries. *)
Definition py_key (m : set_equality) (x : obj) : nat + FileSystemEvent :=
  match m with
  | ByIdentity => inl x.1
  | ByKey => inr x.2
  end.

(** The child tests look at the events and at whether the two objects are
    one. *)
Definition by_event (child : obj → obj → bool) : Prop :=
  ∀ x y x' y', x.2 = x'.2 → y.2 = y'.2 → (x.1 = y.1 ↔ x'.1 = y'.1) →
               child x y = child x' y'.

(** * Properties *)

(** ** Strings *)

Lemma prefix_refl (s : string) : String.prefix s s = true.
Proof.
  induction s as [|c s IH]; simpl; [done|].
  destruct (Ascii.ascii_dec c c); [done | congruence].
Qed.

Lemma prefix_app_l (a b s : string) :
  String.prefix (a +:+ b) s = true → String.prefix a s = true.
Proof.
  revert s. induction a as [|c a IH]; intros s; [by destruct s|].
  destruct s as [|d s]; simpl; [done|].
  destruct (Ascii.ascii_dec c d); [apply IH | done].
Qed.

Lemma prefix_length (p s : string) :
  String.prefix p s = true → (String.length p ≤ String.length s)%nat.
Proof.
  revert s. induction p as [|c p IH]; intros s; [simpl; lia|].
  destruct s as [|d s]; simpl; [done|].
  destruct (Ascii.ascii_dec c d); [|done].
  intros H. apply IH in H. simpl. lia.
Qed.

Lemma length_app (a b : string) :
  String.length (a +:+ b) = (String.length a + String.length b)%nat.
Proof. induction a as [|c a IH]; simpl; [done | by rewrite IH]. Qed.

Lemma prefix_slash_neq (a s : string) :
  String.prefix (a +:+ "/") s = true → s ≠ a.
Proof.
  intros H ->. apply prefix_length in H. rewrite length_app in H. simpl in H. lia.
Qed.

(** ** Coalescing *)

Lemma py_eq_refl m x : py_eq m x x = true.
Proof. destruct m; simpl; by rewrite bool_decide_eq_true. Qed.

Lemma py_eq_sym m x y : py_eq m x y = true → py_eq m y x = true.
Proof. destruct m; simpl; rewrite !bool_decide_eq_true; congruence. Qed.

Lemma py_eq_trans m x y z : py_eq m x y = true → py_eq m y z = true → py_eq m x z = true.
Proof. destruct m; simpl; rewrite !bool_decide_eq_true; congruence. Qed.

Lemma elem_of_objects (B : list FileSystemEvent) (x : obj) :
  x ∈ objects B ↔ B !! x.1 = Some x.2.
Proof.
  unfold objects. rewrite list_elem_of_lookup. split.
  - intros [i Hi]. rewrite list_lookup_imap in Hi.
    destruct (B !! i) as [e|] eqn:E; simplify_eq/=. done.
  - intros H. exists x.1. rewrite list_lookup_imap, H. by destruct x.
Qed.

(** Objects of one batch that are equal for [set] carry the same event. *)
Lemma py_eq_key m (B : list FileSystemEvent) (x y : obj) :
  x ∈ objects B → y ∈ objects B → py_eq m x y = true → x.2 = y.2.
Proof.
  rewrite !elem_of_objects. intros Hx Hy.
  destruct m; simpl; rewrite bool_decide_eq_true; [|done].
  intros E. rewrite E in Hx. congruence.
Qed.

Lemma py_set_subseteq m (l : list obj) : py_set m l ⊆ l.
Proof.
  induction l as [|a l IH]; simpl; [done|].
  intros x. rewrite !elem_of_cons, list_elem_of_filter.
  intros [->|[_ Hx]]; [by left | right; by apply IH].
Qed.

Lemma py_set_repr m (l : list obj) (x : obj) :
  x ∈ l → ∃ y, y ∈ py_set m l ∧ py_eq m y x = true.
Proof.
  induction l as [|a l IH]; [by intros ?%elem_of_nil|].
  intros [->|Hx]%elem_of_cons; simpl.
  - exists a. split; [left | apply py_eq_refl].
  - destruct (IH Hx) as (y & Hy & Hyx).
    destruct (py_eq m a y) eqn:E.
    + exists a. split; [left | by eapply py_eq_trans].
    + exists y. split; [|done]. right. apply list_elem_of_filter.
      split; [|done]. rewrite E. done.
Qed.

Lemma elem_of_py_diff m (a b : list obj) (x : obj) :
  x ∈ py_diff m a b ↔ x ∈ a ∧ ∀ y, y ∈ b → py_eq m x y = false.
Proof.
  unfold py_diff. rewrite list_elem_of_filter. split.
  - intros [H Hx]. split; [done|]. intros y Hy.
    destruct (py_eq m x y) eqn:E; [|done].
    exfalso. apply negb_prop_elim in H. apply H. apply Is_true_true.
    apply existsb_exists. exists y. split; [by apply list_elem_of_In | done].
  - intros [Hx H]. split; [|done]. apply negb_prop_intro. intros E%Is_true_true.
    apply existsb_exists in E as (y & Hy%list_elem_of_In & E).
    rewrite (H y Hy) in E. done.
Qed.

Lemma elem_of_gather (child : obj → obj → bool) (parents events : list obj) (c : obj) :
  c ∈ gather child parents events ↔
  ∃ p, p ∈ parents ∧ c ∈ events ∧ child c p = true.
Proof.
  unfold gather. rewrite list_elem_of_In, in_flat_map. split.
  - intros (p & Hp%list_elem_of_In & Hc%list_elem_of_In).
    apply list_elem_of_filter in Hc as [Hc ?]. exists p. by rewrite <- Is_true_true.
  - intros (p & Hp & Hc & E). exists p. rewrite <- !list_elem_of_In.
    split; [done|]. apply list_elem_of_filter. by rewrite Is_true_true.
Qed.

Lemma combine_moved_pass m l : combine_moved m l = pass is_moved_folder is_moved_child m l.
Proof. reflexivity. Qed.
Lemma combine_deleted_pass m l : combine_deleted m l = pass is_deleted_folder is_deleted_child m l.
Proof. reflexivity. Qed.
Lemma combine_created_pass m l : combine_created m l = pass is_created is_modified_duplicate m l.
Proof. reflexivity. Qed.

Lemma pass_subseteq isparent child m l : pass isparent child m l ⊆ l.
Proof.
  intros x [Hx _]%elem_of_py_diff. by apply py_set_subseteq in Hx.
Qed.

(** No child of a parent of the pass is left. *)
Lemma pass_drops isparent child m l (y p : obj) :
  y ∈ pass isparent child m l → p ∈ l → isparent p = true → child y p = true → False.
Proof.
  intros Hy Hp Hpar Hch.
  pose proof (pass_subseteq _ _ _ _ _ Hy) as Hyl.
  apply elem_of_py_diff in Hy as [_ Hy].
  assert (y ∈ gather child (filter (λ x, isparent x) l) l) as Hg.
  { apply elem_of_gather. exists p. split_and!; [|done..].
    apply list_elem_of_filter. by rewrite Is_true_true. }
  apply (py_set_repr m) in Hg as (z & Hz & E).
  apply py_eq_sym in E. rewrite (Hy z Hz) in E. done.
Qed.

(** An event no child of the pass carries is left, in one of its objects. *)
Lemma pass_keeps isparent child m (B : list FileSystemEvent) l (x : obj) :
  l ⊆ objects B → x ∈ l →
  (∀ c p, c ∈ l → p ∈ l → isparent p = true → child c p = true → c.2 ≠ x.2) →
  ∃ y, y ∈ pass isparent child m l ∧ y.2 = x.2.
Proof.
  intros HB Hx Hno.
  destruct (py_set_repr m l x Hx) as (y & Hy & E).
  pose proof (py_set_subseteq _ _ _ Hy) as Hyl.
  assert (y.2 = x.2) as Hk by (eapply py_eq_key; eauto).
  exists y. split; [|done].
  apply elem_of_py_diff. split; [done|]. intros z Hz.
  destruct (py_eq m y z) eqn:E'; [|done]. exfalso.
  apply py_set_subseteq in Hz.
  pose proof Hz as Hz'. apply elem_of_gather in Hz' as (p & Hp & Hzl & Hch).
  apply list_elem_of_filter in Hp as [Hpar%Is_true_true Hp].
  apply (Hno z p Hzl Hp Hpar Hch).
  rewrite <- Hk. symmetry. eapply py_eq_key; eauto.
Qed.

Lemma is_type_true t e : is_type t e = true ↔ event_type e = t.
Proof. unfold is_type. apply bool_decide_eq_true. Qed.

Lemma moved_child_inv x p :
  is_moved_child x p = true →
  event_type x.2 = EVENT_TYPE_MOVED ∧
  String.prefix (src_path p.2) (src_path x.2) = true ∧ x.1 ≠ p.1.
Proof.
  unfold is_moved_child, startswith, is_not.
  rewrite !andb_true_iff, is_type_true, negb_true_iff, bool_decide_eq_false. tauto.
Qed.

Lemma deleted_child_inv x p :
  is_deleted_child x p = true →
  event_type x.2 = EVENT_TYPE_DELETED ∧
  String.prefix (src_path p.2) (src_path x.2) = true ∧ x.1 ≠ p.1.
Proof.
  unfold is_deleted_child, startswith, is_not.
  rewrite !andb_true_iff, is_type_true, negb_true_iff, bool_decide_eq_false. tauto.
Qed.

Lemma modified_duplicate_inv x p :
  is_modified_duplicate x p = true →
  event_type x.2 = EVENT_TYPE_MODIFIED ∧ src_path x.2 = src_path p.2.
Proof.
  unfold is_modified_duplicate.
  rewrite !andb_true_iff, is_type_true, bool_decide_eq_true. tauto.
Qed.

Lemma moved_folder_inv p :
  is_moved_folder p = true ↔ event_type p.2 = EVENT_TYPE_MOVED ∧ is_directory p.2 = true.
Proof. unfold is_moved_folder. by rewrite andb_true_iff, is_type_true. Qed.

Lemma deleted_folder_inv p :
  is_deleted_folder p = true ↔ event_type p.2 = EVENT_TYPE_DELETED ∧ is_directory p.2 = true.
Proof. unfold is_deleted_folder. by rewrite andb_true_iff, is_type_true. Qed.

Lemma combine_moved_subseteq m l : combine_moved m l ⊆ l.
Proof. apply pass_subseteq. Qed.
Lemma combine_deleted_subseteq m l : combine_deleted m l ⊆ l.
Proof. apply pass_subseteq. Qed.
Lemma combine_created_subseteq m l : combine_created m l ⊆ l.
Proof. apply pass_subseteq. Qed.

Lemma elem_of_coalesced m (B : list FileSystemEvent) (e : FileSystemEvent) :
  e ∈ coalesced m B ↔ ∃ y, y ∈ coalesce m (objects B) ∧ y.2 = e.
Proof.
  unfold coalesced. rewrite list_elem_of_fmap. split.
  - intros (y & -> & Hy). by exists y.
  - intros (y & Hy & <-). by exists y.
Qed.

Section FolderPass.

Variables (isparent : obj → bool) (child : obj → obj → bool) (t : EventType).

Hypothesis folder_type : t = EVENT_TYPE_MOVED ∨ t = EVENT_TYPE_DELETED.
Hypothesis isparent_inv : ∀ p,
  isparent p = true → event_type p.2 = t ∧ is_directory p.2 = true.
Hypothesis child_inv : ∀ x p,
  child x p = true →
  event_type x.2 = t ∧ String.prefix (src_path p.2) (src_path x.2) = true ∧ x.1 ≠ p.1.

Lemma unrelated_no_child (B : list FileSystemEvent) k x (c p : obj) :
  B !! k = Some x → unrelated B k x →
  c ∈ objects B → p ∈ objects B →
  isparent p = true → child c p = true → c.2 ≠ x.
Proof.
  intros Hk [Hun _] Hc Hp [Hpt Hpd]%isparent_inv (Hct & Hpre & Hne)%child_inv E.
  apply elem_of_objects in Hc, Hp.
  assert (event_type x = EVENT_TYPE_MOVED ∨ event_type x = EVENT_TYPE_DELETED) as Hx
    by (rewrite <- E, Hct; exact folder_type).
  specialize (Hun Hx).
  destruct (decide (p.1 = k)) as [Hpk|Hpk].
  - assert (p.2 = x) as Hpx by (rewrite Hpk in Hp; congruence).
    assert (c.1 ≠ k) as Hck by congruence.
    specialize (Hun c.1 c.2 Hc Hck). rewrite E, prefix_refl in Hun.
    rewrite Hpx in Hpd. by specialize (Hun eq_refl Hpd).
  - specialize (Hun p.1 p.2 Hp Hpk). rewrite E in Hpre, Hct.
    rewrite Hun in Hpre; [done | congruence | done].
Qed.

Lemma folder_pass_keeps m (B : list FileSystemEvent) l k x (y : obj) :
  l ⊆ objects B → B !! k = Some x → unrelated B k x →
  y ∈ l → y.2 = x →
  ∃ z, z ∈ pass isparent child m l ∧ z.2 = x.
Proof.
  intros HB Hk Hun Hy <-.
  apply (pass_keeps _ _ _ B); [done..|].
  intros c p Hc Hp Hpar Hch. eapply unrelated_no_child; eauto.
Qed.

Lemma folder_pass_keeps_other m (B : list FileSystemEvent) l (y : obj) :
  l ⊆ objects B → y ∈ l → event_type y.2 ≠ t →
  ∃ z, z ∈ pass isparent child m l ∧ z.2 = y.2.
Proof.
  intros HB Hy Hne. apply (pass_keeps _ _ _ B); [done..|].
  intros c p _ _ _ (Hct & _)%child_inv E. congruence.
Qed.

End FolderPass.

Lemma moved_folder_inv' p :
  is_moved_folder p = true → event_type p.2 = EVENT_TYPE_MOVED ∧ is_directory p.2 = true.
Proof. apply moved_folder_inv. Qed.

Lemma deleted_folder_inv' p :
  is_deleted_folder p = true → event_type p.2 = EVENT_TYPE_DELETED ∧ is_directory p.2 = true.
Proof. apply deleted_folder_inv. Qed.

Lemma created_pass_keeps m (B : list FileSystemEvent) l (y : obj) :
  l ⊆ objects B → y ∈ l →
  (event_type y.2 = EVENT_TYPE_MODIFIED →
   ∀ c, c ∈ B → event_type c = EVENT_TYPE_CREATED → src_path c ≠ src_path y.2) →
  ∃ z, z ∈ combine_created m l ∧ z.2 = y.2.
Proof.
  intros HB Hy Hun. rewrite combine_created_pass.
  apply (pass_keeps _ _ _ B); [done..|].
  intros c p Hc Hp Hpar%is_type_true [Hct Hsrc]%modified_duplicate_inv E.
  rewrite E in Hct, Hsrc. apply (Hun Hct p.2); [|done..].
  apply HB, elem_of_objects in Hp. by eapply list_elem_of_lookup_2.
Qed.

(** An unrelated event of the batch is in the coalesced batch. *)
Lemma coalesced_keeps m (B : list FileSystemEvent) k x :
  B !! k = Some x → unrelated B k x → x ∈ coalesced m B.
Proof.
  intros Hk Hun. apply elem_of_coalesced. unfold coalesce.
  assert ((k, x) ∈ objects B) as H0 by by apply elem_of_objects.
  pose proof (combine_moved_subseteq m (objects B)) as S1.
  pose proof (combine_deleted_subseteq m (combine_moved m (objects B))) as S2.
  assert (∃ y, y ∈ combine_moved m (objects B) ∧ y.2 = x) as (y1 & H1 & E1).
  { rewrite combine_moved_pass.
    destruct (decide (event_type x = EVENT_TYPE_MOVED)) as [Ht|Ht].
    - eapply (folder_pass_keeps _ _ EVENT_TYPE_MOVED (or_introl eq_refl)
                moved_folder_inv' moved_child_inv); eauto.
    - apply (folder_pass_keeps_other _ _ EVENT_TYPE_MOVED moved_child_inv m B _ (k, x));
        done. }
  assert (∃ y, y ∈ combine_deleted m (combine_moved m (objects B)) ∧ y.2 = x)
    as (y2 & H2 & E2).
  { rewrite combine_deleted_pass.
    destruct (decide (event_type x = EVENT_TYPE_DELETED)) as [Ht|Ht].
    - eapply (folder_pass_keeps _ _ EVENT_TYPE_DELETED (or_intror eq_refl)
                deleted_folder_inv' deleted_child_inv); eauto.
    - rewrite <- E1.
      apply (folder_pass_keeps_other _ _ EVENT_TYPE_DELETED deleted_child_inv m B);
        [done..|congruence]. }
  destruct (created_pass_keeps m B (combine_deleted m (combine_moved m (objects B))) y2)
    as (y3 & H3 & E3); [by etrans|done| |].
  - rewrite E2. apply Hun.
  - exists y3. split; [done | congruence].
Qed.

(** A created event of the batch is still there, in one of its objects,
    when the created and modified events are combined. *)
Lemma created_reaches_last_pass m (B : list FileSystemEvent) c :
  c ∈ B → event_type c = EVENT_TYPE_CREATED →
  ∃ y, y ∈ combine_deleted m (combine_moved m (objects B)) ∧ y.2 = c.
Proof.
  intros [k Hk]%list_elem_of_lookup_1 Ht.
  assert ((k, c) ∈ objects B) as H0 by by apply elem_of_objects.
  pose proof (combine_moved_subseteq m (objects B)) as S1.
  destruct (folder_pass_keeps_other is_moved_folder _ EVENT_TYPE_MOVED moved_child_inv
              m B (objects B) (k, c))
    as (y1 & H1 & E1); [done..|simpl; congruence|].
  destruct (folder_pass_keeps_other is_deleted_folder _ EVENT_TYPE_DELETED deleted_child_inv
              m B (combine_moved m (objects B)) y1)
    as (y2 & H2 & E2); [done..|simpl in *; congruence|].
  exists y2. split; [done | by rewrite E2].
Qed.

(** A folder event of the batch is still there, in one of its objects,
    when the deleted events are combined, unless it is a moved event. *)
Lemma deleted_reaches_second_pass m (B : list FileSystemEvent) k e :
  B !! k = Some e → event_type e = EVENT_TYPE_DELETED →
  ∃ y, y ∈ combine_moved m (objects B) ∧ y.2 = e.
Proof.
  intros Hk Ht.
  assert ((k, e) ∈ objects B) as H0 by by apply elem_of_objects.
  apply (folder_pass_keeps_other is_moved_folder _ EVENT_TYPE_MOVED moved_child_inv
           m B (objects B) (k, e)); [done..|simpl; congruence].
Qed.

(** No event below a folder event of its type is in the coalesced batch. *)
Lemma coalesced_drops_moved m (B : list FileSystemEvent) i j e1 e2 :
  B !! i = Some e1 → B !! j = Some e2 →
  event_type e1 = EVENT_TYPE_MOVED → is_directory e1 = true →
  event_type e2 = EVENT_TYPE_MOVED →
  String.prefix (src_path e1 +:+ "/") (src_path e2) = true →
  e2 ∉ coalesced m B.
Proof.
  intros Hi Hj Ht1 Hd1 Ht2 Hpre (y & Hy & E)%elem_of_coalesced.
  apply combine_created_subseteq, combine_deleted_subseteq in Hy.
  pose proof (combine_moved_subseteq _ _ _ Hy) as Hyo. apply elem_of_objects in Hyo.
  rewrite combine_moved_pass in Hy.
  apply (pass_drops _ _ _ _ _ (i, e1) Hy).
  - by apply elem_of_objects.
  - apply moved_folder_inv. done.
  - unfold is_moved_child, startswith, is_not. simpl. rewrite E.
    rewrite !andb_true_iff, is_type_true, negb_true_iff, bool_decide_eq_false.
    split_and!; [done | by eapply prefix_app_l |].
    intros Eq. apply prefix_slash_neq in Hpre. rewrite Eq, E in Hyo. congruence.
Qed.

Lemma coalesced_drops_deleted m (B : list FileSystemEvent) i j e1 e2 :
  B !! i = Some e1 → B !! j = Some e2 →
  event_type e1 = EVENT_TYPE_DELETED → is_directory e1 = true →
  event_type e2 = EVENT_TYPE_DELETED →
  String.prefix (src_path e1 +:+ "/") (src_path e2) = true →
  e2 ∉ coalesced m B.
Proof.
  intros Hi Hj Ht1 Hd1 Ht2 Hpre (y & Hy & E)%elem_of_coalesced.
  apply combine_created_subseteq in Hy.
  destruct (deleted_reaches_second_pass m B i e1 Hi Ht1) as (p & Hp & Ep).
  pose proof (combine_moved_subseteq _ _ _ Hp) as Hpo. apply elem_of_objects in Hpo.
  pose proof (combine_deleted_subseteq _ _ _ Hy) as Hyo.
  apply combine_moved_subseteq, elem_of_objects in Hyo.
  rewrite combine_deleted_pass in Hy.
  apply (pass_drops _ _ _ _ _ p Hy Hp).
  - apply deleted_folder_inv. by rewrite Ep.
  - unfold is_deleted_child, startswith, is_not. rewrite E, Ep.
    rewrite !andb_true_iff, is_type_true, negb_true_iff, bool_decide_eq_false.
    split_and!; [done | by eapply prefix_app_l |].
    intros Eq. apply prefix_slash_neq in Hpre. rewrite Eq, Hpo, Ep, E in Hyo. congruence.
Qed.

(** C5. For any batch containing a created event with source path [p], the
    coalesced batch contains no modified event with source path [p]; and
    every modified event of the batch whose source path is the source path
    of no created event of the batch is in the coalesced batch. Both hold
    whichever equality [set] uses. *)
Theorem created_absorbs_modified (m : set_equality) (B : list FileSystemEvent) :
  (∀ c x, c ∈ B → event_type c = EVENT_TYPE_CREATED →
          x ∈ coalesced m B → event_type x = EVENT_TYPE_MODIFIED →
          src_path x ≠ src_path c) ∧
  (∀ x, x ∈ B → event_type x = EVENT_TYPE_MODIFIED →
        (∀ c, c ∈ B → event_type c = EVENT_TYPE_CREATED → src_path c ≠ src_path x) →
        x ∈ coalesced m B).
Proof.
  split.
  - intros c x Hc Hct (y & Hy & <-)%elem_of_coalesced Hxt Hsrc.
    destruct (created_reaches_last_pass m B c Hc Hct) as (p & Hp & Ep).
    unfold coalesce in Hy. rewrite combine_created_pass in Hy.
    apply (pass_drops _ _ _ _ _ p Hy Hp).
    + apply is_type_true. by rewrite Ep.
    + unfold is_modified_duplicate.
      rewrite andb_true_iff, is_type_true, bool_decide_eq_true, Ep. done.
  - intros x [k Hk]%list_elem_of_lookup_1 Hxt Hno.
    apply (coalesced_keeps m B k x Hk). split; [|done].
    intros [?|?]; congruence.
Qed.

Lemma created_absorbs_modified_witness :
  (FileModifiedEvent "/root/doc.md"
     ∉ coalesced ByKey [FileCreatedEvent "/root/doc.md"; FileModifiedEvent "/root/doc.md";
                        FileModifiedEvent "/root/notes.md"]) ∧
  (FileModifiedEvent "/root/notes.md"
     ∈ coalesced ByKey [FileCreatedEvent "/root/doc.md"; FileModifiedEvent "/root/doc.md";
                        FileModifiedEvent "/root/notes.md"]).
Proof.
  split.
  - intros H.
    apply (proj1 (created_absorbs_modified ByKey
                    [FileCreatedEvent "/root/doc.md"; FileModifiedEvent "/root/doc.md";
                     FileModifiedEvent "/root/notes.md"])
                 (FileCreatedEvent "/root/doc.md") (FileModifiedEvent "/root/doc.md"));
      [by left | reflexivity | exact H | reflexivity | reflexivity].
  - apply (proj2 (created_absorbs_modified ByKey
                    [FileCreatedEvent "/root/doc.md"; FileModifiedEvent "/root/doc.md";
                     FileModifiedEvent "/root/notes.md"])).
    + right; right; left.
    + reflexivity.
    + intros c Hc Ht.
      apply elem_of_cons in Hc as [->|Hc]; [discriminate|].
      apply elem_of_cons in Hc as [->|Hc]; [discriminate|].
      apply elem_of_cons in Hc as [->|Hc]; [discriminate|].
      by apply elem_of_nil in Hc.
Defined.

(** C4, as the code has it. For two events of a batch, [e1] a moved (resp.
    deleted) directory event and [e2] a moved (resp. deleted) event whose
    source path begins with that of [e1] followed by a separator, the
    coalesced batch does not contain [e2]. It contains [e1] when no other
    directory event of that type in the batch has a source path that
    starts the source path of [e1]; the same holds of every event of that
    type, so that nothing else is removed by the subsumption. Both hold
    whichever equality [set] uses. *)
Theorem folder_subsumption (m : set_equality) (B : list FileSystemEvent)
    (t : EventType) (i j : nat) (e1 e2 : FileSystemEvent) :
  t = EVENT_TYPE_MOVED ∨ t = EVENT_TYPE_DELETED →
  B !! i = Some e1 → B !! j = Some e2 →
  event_type e1 = t → is_directory e1 = true → event_type e2 = t →
  String.prefix (src_path e1 +:+ "/") (src_path e2) = true →
  (e2 ∉ coalesced m B) ∧
  ((∀ k p, B !! k = Some p → k ≠ i → event_type p = t → is_directory p = true →
           String.prefix (src_path p) (src_path e1) = false) →
   e1 ∈ coalesced m B) ∧
  (∀ k x, B !! k = Some x → event_type x = t →
          (∀ k' p, B !! k' = Some p → k' ≠ k → event_type p = t →
                   is_directory p = true →
                   String.prefix (src_path p) (src_path x) = false) →
          x ∈ coalesced m B).
Proof.
  intros Ht Hi Hj Ht1 Hd1 Ht2 Hpre.
  assert (∀ k x, B !! k = Some x → event_type x = t →
            (∀ k' p, B !! k' = Some p → k' ≠ k → event_type p = t →
                     is_directory p = true →
                     String.prefix (src_path p) (src_path x) = false) →
            x ∈ coalesced m B) as Hkeep.
  { intros k x Hk Hxt Hno. apply (coalesced_keeps m B k x Hk). split.
    - intros _ k' p Hk' Hne Hpt Hpd. apply (Hno k' p); congruence.
    - intros Hmod. destruct Ht; congruence. }
  split_and!; [|by apply Hkeep|done].
  destruct Ht as [->| ->].
  - by apply (coalesced_drops_moved m B i j e1 e2).
  - by apply (coalesced_drops_deleted m B i j e1 e2).
Qed.

Lemma folder_subsumption_witness :
  (FileDeletedEvent "/root/A/x.txt"
     ∉ coalesced ByKey [DirDeletedEvent "/root/A"; FileDeletedEvent "/root/A/x.txt"]) ∧
  (DirDeletedEvent "/root/A"
     ∈ coalesced ByKey [DirDeletedEvent "/root/A"; FileDeletedEvent "/root/A/x.txt"]).
Proof.
  pose proof (folder_subsumption ByKey
                [DirDeletedEvent "/root/A"; FileDeletedEvent "/root/A/x.txt"]
                EVENT_TYPE_DELETED 0 1
                (DirDeletedEvent "/root/A") (FileDeletedEvent "/root/A/x.txt")
                (or_intror eq_refl) eq_refl eq_refl eq_refl eq_refl eq_refl eq_refl)
    as (Hdrop & Hkeep & _).
  split; [exact Hdrop|]. apply Hkeep.
  intros [|[|k]] p Hk Hne Hpt Hpd; simplify_eq/=; done.
Defined.

(** C4, as stated, fails on a folder moved with a folder inside it: the
    inner folder event is a child of the outer one, and goes with it. *)
Lemma nested_folder_not_kept :
  nested_move !! 1%nat = Some (DirMovedEvent "/root/A/B" "/root/Z/B") ∧
  nested_move !! 2%nat = Some (FileMovedEvent "/root/A/B/x.txt" "/root/Z/B/x.txt") ∧
  String.prefix (src_path (DirMovedEvent "/root/A/B" "/root/Z/B") +:+ "/")
                (src_path (FileMovedEvent "/root/A/B/x.txt" "/root/Z/B/x.txt")) = true ∧
  coalesced ByIdentity nested_move = [DirMovedEvent "/root/A" "/root/Z"] ∧
  coalesced ByKey nested_move = [DirMovedEvent "/root/A" "/root/Z"] ∧
  (DirMovedEvent "/root/A/B" "/root/Z/B" ∉ coalesced ByIdentity nested_move) ∧
  (DirMovedEvent "/root/A/B" "/root/Z/B" ∉ coalesced ByKey nested_move).
Proof.
  split_and!; try reflexivity.
  - intros H. vm_compute in H.
    apply elem_of_cons in H as [H|H]; [discriminate | by apply elem_of_nil in H].
  - intros H. vm_compute in H.
    apply elem_of_cons in H as [H|H]; [discriminate | by apply elem_of_nil in H].
Qed.

(** The test for a child is [startswith] on the source paths, so an event
    next to a moved folder goes too when its name continues the folder's. *)
Example name_prefix_is_taken_for_child m :
  coalesced m [DirMovedEvent "/root/foo" "/root/bar";
               FileMovedEvent "/root/foobar.txt" "/root/baz.txt"]
  = [DirMovedEvent "/root/foo" "/root/bar"].
Proof. by destruct m. Qed.

Example folder_move_S1 m :
  coalesced m [DirMovedEvent "/root/A" "/root/B";
               FileMovedEvent "/root/A/x.txt" "/root/B/x.txt";
               FileMovedEvent "/root/A/y.txt" "/root/B/y.txt"]
  = [DirMovedEvent "/root/A" "/root/B"].
Proof. by destruct m. Qed.

Example atomic_save_S2 m :
  coalesced m [FileCreatedEvent "/root/doc.md"; FileModifiedEvent "/root/doc.md"]
  = [FileCreatedEvent "/root/doc.md"].
Proof. by destruct m. Qed.

(** ** Frame conditions *)

Section Keeps.

Context {X : Type} (f : World → X).

Lemma keeps_ret {A} (a : A) : keeps f (mret a).
Proof. by intros w. Qed.

Lemma keeps_raise {A} (e : exn) : keeps f (raise e : M A).
Proof. by intros w. Qed.

Lemma keeps_hang {A} : keeps f (hang : M A).
Proof. by intros w. Qed.

Lemma keeps_gets {A} (g : World → A) : keeps f (gets g).
Proof. by intros w. Qed.

Lemma keeps_modify (g : World → World) : (∀ w, f (g w) = f w) → keeps f (modify g).
Proof. intros H w. apply H. Qed.

Lemma keeps_bind {A B} (c : M A) (k : A → M B) :
  keeps f c → (∀ a, keeps f (k a)) → keeps f (c ≫= k).
Proof.
  intros Hc Hk w. unfold mbind, M_bind. specialize (Hc w).
  destruct (c w) as [[a|e|] w']; simpl in *; [|done..].
  by rewrite Hk.
Qed.

Lemma keeps_for {A} (l : list A) (body : A → M unit) :
  (∀ a, keeps f (body a)) → keeps f (for_ l body).
Proof.
  intros H. induction l as [|a l IH]; simpl; [apply keeps_ret|].
  apply keeps_bind; [apply H | by intros _].
Qed.

Lemma keeps_remote {A} (c : call) (answer : list call → exn + A) :
  (∀ w v, f (set_calls v w) = f w) → keeps f (remote c answer).
Proof. intros H w. unfold remote. by destruct (answer (calls w)); simpl. Qed.

Lemma keeps_local_q_get :
  (∀ w v, f (set_local_q v w) = f w) → keeps f local_q_get.
Proof. intros H w. unfold local_q_get. by destruct (queue (local_q w)); simpl. Qed.

Lemma keeps_executor_map {A} (fn : A → M unit) (l : list A) :
  (∀ a, keeps f (fn a)) → keeps f (executor_map fn l).
Proof.
  intros H. induction l as [|a l IH]; intros w; simpl; [done|].
  specialize (H a w). specialize (IH (fn a w).2).
  destruct (fn a w) as [[[]|e|] w1]; simpl in *; [|..|done];
    destruct (executor_map fn l w1) as [[fs|e'|] w2]; simpl in *; congruence.
Qed.

End Keeps.

Section Handlers.

Variable client : Client.
Variable os : OS.

Lemma keeps_osp_getsize {X} (f : World → X) path : keeps f (osp_getsize os path).
Proof. intros w. unfold osp_getsize. by destruct (getsize os (clock w) path). Qed.

Lemma wait_until_created_keeps {X} (f : World → X) fuel path d :
  (∀ w v, f (set_clock v w) = f w) → keeps f (wait_until_created os fuel path d).
Proof.
  intros H. induction fuel as [|n IH]; simpl; [apply keeps_hang|].
  apply keeps_bind; [apply keeps_osp_getsize|intros size1].
  apply keeps_bind; [apply keeps_modify; intros; apply H|intros _].
  apply keeps_bind; [apply keeps_osp_getsize|intros size2].
  destruct (bool_decide (size1 = size2)); [apply keeps_ret | done].
Qed.

(** Ways to take a computation apart, for the observations that no
    setter of another field changes. *)
Ltac keeps_prim :=
  unfold client_move, client_upload, client_remove, client_get_metadata,
    client_make_dir, client_list_folder, client_get_space_usage,
    client_get_local_rev, client_set_local_rev, files_WriteMode_update,
    osp_isfile, osp_isdir,
    time_time, time_sleep, CONF_get_lastsync, CONF_set_lastsync, logger_info,
    local_q_put, local_q_qsize.

Ltac keeps_step :=
  lazymatch goal with
  | |- keeps _ (mret _) => apply keeps_ret
  | |- keeps _ (raise _) => apply keeps_raise
  | |- keeps _ hang => apply keeps_hang
  | |- keeps _ (gets _) => apply keeps_gets
  | |- keeps _ (modify _) => apply keeps_modify; intros; reflexivity
  | |- keeps _ (remote _ _) => apply keeps_remote; intros; reflexivity
  | |- keeps _ (osp_getsize _ _) => apply keeps_osp_getsize
  | |- keeps _ (wait_until_created _ _ _ _) =>
      apply wait_until_created_keeps; intros; reflexivity
  | |- keeps _ (_ ≫= _) => apply keeps_bind; [|intros ?]
  | |- keeps _ (for_ _ _) => apply keeps_for; intros ?
  | |- keeps _ (if ?b then _ else _) => destruct b
  | |- keeps _ (match ?x with _ => _ end) => destruct x
  end.

Ltac solve_keeps := repeat (keeps_prim; keeps_step).

Lemma ends_bind {A} (c : M A) (k : A → M unit) :
  keeps lastsync c → (∀ a, ends_with_lastsync (k a)) → ends_with_lastsync (c ≫= k).
Proof.
  intros Hc Hk w. unfold mbind, M_bind. specialize (Hc w).
  destruct (c w) as [[a|e|] w']; simpl in *; [|done..].
  specialize (Hk a w'). destruct (k a w') as [[[]|e|] w'']; simpl in *; congruence.
Qed.

Lemma ends_set : ends_with_lastsync (t ← time_time; CONF_set_lastsync t).
Proof. by intros w. Qed.

Ltac solve_ends :=
  repeat lazymatch goal with
  | |- ends_with_lastsync (time_time ≫= _) => apply ends_set
  | |- ends_with_lastsync (_ ≫= _) => apply ends_bind; [solve_keeps|intros ?]
  end.

Lemma ends_handled (c : M unit) w : ends_with_lastsync c → handled w (c w).
Proof.
  intros H. specialize (H w). unfold handled.
  destruct (c w) as [[[]|e|] w']; simpl in *; [by right | done..].
Qed.

Lemma ret_handled w : handled w ((mret tt : M unit) w).
Proof. by left. Qed.

Lemma on_moved_handled event w : handled w (on_moved client event w).
Proof.
  unfold on_moved. destruct (dest_path event) as [path2|]; [|done].
  destruct (is_excluded client _); [apply ret_handled|].
  destruct (bool_decide _); [apply ret_handled|].
  apply ends_handled. solve_ends.
Qed.

Lemma on_created_handled fuel event w : handled w (on_created client os fuel event w).
Proof.
  unfold on_created.
  destruct (is_excluded client _); [apply ret_handled|].
  apply ends_handled. solve_ends.
Qed.

Lemma on_deleted_handled event w : handled w (on_deleted client event w).
Proof.
  unfold on_deleted.
  destruct (is_excluded client _); [apply ret_handled|].
  apply ends_handled. solve_ends.
Qed.

Lemma on_modified_handled fuel event w : handled w (on_modified client os fuel event w).
Proof.
  unfold on_modified.
  destruct (is_excluded client _); [apply ret_handled|].
  apply ends_handled. solve_ends.
Qed.

Lemma dispatch_event_handled fuel event w :
  handled w (dispatch_event client os fuel event w).
Proof.
  unfold dispatch_event. destruct (event_type event);
    auto using on_moved_handled, on_created_handled, on_deleted_handled,
               on_modified_handled.
Qed.

(** The handlers reach the state through the clock, the revision store,
    the record of calls and [lastsync] only. *)
Lemma dispatch_event_keeps {X} (f : World → X) fuel event :
  (∀ w v, f (set_clock v w) = f w) →
  (∀ w v, f (set_rev_dict v w) = f w) →
  (∀ w v, f (set_calls v w) = f w) →
  (∀ w v, f (set_lastsync v w) = f w) →
  keeps f (dispatch_event client os fuel event).
Proof.
  intros H1 H2 H3 H4.
  assert (∀ fuel path d, keeps f (wait_until_created os fuel path d)) as Hw
    by (intros; by apply wait_until_created_keeps).
  unfold dispatch_event, on_created, on_moved, on_deleted, on_modified.
  destruct (event_type event);
    repeat (keeps_prim;
      lazymatch goal with
      | |- keeps _ (mret _) => apply keeps_ret
      | |- keeps _ (raise _) => apply keeps_raise
      | |- keeps _ (gets _) => apply keeps_gets
      | |- keeps _ (modify _) => apply keeps_modify; intros; simpl; auto
      | |- keeps _ (remote _ _) => apply keeps_remote; intros; auto
      | |- keeps _ (wait_until_created _ _ _ _) => apply Hw
      | |- keeps _ (_ ≫= _) => apply keeps_bind; [|intros ?]
      | |- keeps _ (for_ _ _) => apply keeps_for; intros ?
      | |- keeps _ (if ?b then _ else _) => destruct b
      | |- keeps _ (match ?x with _ => _ end) => destruct x
      end).
Qed.

(** [on_modified] never writes to the revision store. *)
Lemma on_modified_keeps_rev_dict fuel event :
  keeps rev_dict (on_modified client os fuel event).
Proof. unfold on_modified. solve_keeps. Qed.

End Handlers.

(** ** The upload batch *)

Section Batch.

Variable client : Client.
Variable os : OS.

(** Nothing a task raises leaves [executor.map]. *)
Lemma executor_map_no_raise {A} (fn : A → M unit) (l : list A) w e w' :
  executor_map fn l w ≠ (Raise e, w').
Proof.
  revert w. induction l as [|a l IH]; intros w; simpl; [done|].
  destruct (fn a w) as [[[]|e1|] w1]; [| |done];
    specialize (IH w1);
    destruct (executor_map fn l w1) as [[fs|e2|] w2]; congruence.
Qed.

(** The worker's block runs to the end whenever its tasks end: it writes
    [lastsync] and reports "Up to date", and its handler for connection
    errors is not entered. *)
Lemma process_events_runs_through fuel events w futures w1 :
  executor_map (dispatch_event client os fuel) events
               (set_log (log w ++ ["Syncing..."]) w) = (Ret futures, w1) →
  process_events client os fuel events w
  = (Ret tt, set_log (log w1 ++ ["Up to date"]) (set_lastsync (clock w1) w1)).
Proof.
  intros H. unfold process_events, try_except, mbind, M_bind, logger_info, modify.
  by rewrite H.
Qed.

Lemma process_events_never_raises fuel events w e w' :
  process_events client os fuel events w ≠ (Raise e, w').
Proof.
  unfold process_events, try_except, mbind, M_bind, logger_info, modify.
  pose proof (executor_map_no_raise (dispatch_event client os fuel) events
                (set_log (log w ++ ["Syncing..."]) w)) as H.
  destruct (executor_map _ _ _) as [[fs|e1|] w1]; simpl; [done| |done].
  by specialize (H e1 w1).
Qed.

(** No signal is sent and [running] is not cleared by the worker's block,
    whatever the tasks raise. *)
Lemma process_events_silent fuel events :
  keeps (λ w, (sent w, running w, fh_running w)) (process_events client os fuel events).
Proof.
  intros w.
  pose proof (keeps_executor_map (λ w, (sent w, running w, fh_running w))
                (dispatch_event client os fuel) events) as H.
  assert (∀ a, keeps (λ w, (sent w, running w, fh_running w))
                     (dispatch_event client os fuel a)) as Hd
    by (intros a; apply dispatch_event_keeps; intros; reflexivity).
  specialize (H Hd (set_log (log w ++ ["Syncing..."]) w)).
  pose proof (executor_map_no_raise (dispatch_event client os fuel) events
                (set_log (log w ++ ["Syncing..."]) w)) as Hr.
  unfold process_events, try_except, mbind, M_bind, logger_info, modify.
  destruct (executor_map _ _ _) as [[fs|e1|] w1]; simpl in *; [done| |done].
  by specialize (Hr e1 w1).
Qed.

End Batch.

(** C1, as the code has it. [lastsync] is written with the current time by
    every handler that runs to its end, and by the worker when the batch is
    done. The dispatch of an event that raises leaves [lastsync] as it
    found it; one that returns has either dropped the event without
    touching the state or left [lastsync] at the time of its return; and a
    batch in which no dispatch raises ends with [lastsync] at the time of
    its completion. *)
Theorem lastsync_written_by_handlers (client : Client) (os : OS) (fuel : nat) :
  (∀ event w e w',
     dispatch_event client os fuel event w = (Raise e, w') →
     lastsync w' = lastsync w) ∧
  (∀ event w w',
     dispatch_event client os fuel event w = (Ret tt, w') →
     w' = w ∨ lastsync w' = clock w') ∧
  (∀ events w futures w1,
     executor_map (dispatch_event client os fuel) events
                  (set_log (log w ++ ["Syncing..."]) w) = (Ret futures, w1) →
     Forall (λ future, future = Ret tt) futures →
     ∃ w', process_events client os fuel events w = (Ret tt, w') ∧
           lastsync w' = clock w').
Proof.
  split_and!.
  - intros event w e w' H.
    pose proof (dispatch_event_handled client os fuel event w) as Hh.
    unfold handled in Hh. by rewrite H in Hh.
  - intros event w w' H.
    pose proof (dispatch_event_handled client os fuel event w) as Hh.
    unfold handled in Hh. by rewrite H in Hh.
  - intros events w futures w1 H _. eexists. split.
    + by apply (process_events_runs_through client os fuel events w futures w1).
    + done.
Qed.

Lemma lastsync_written_by_handlers_witness :
  lastsync (dispatch_event flaky_client quiet_os 1 (FileCreatedEvent "/root/b.txt") started).2
    = lastsync started ∧
  lastsync (dispatch_event flaky_client quiet_os 1 (FileCreatedEvent "/root/n.txt") started).2
    = clock (dispatch_event flaky_client quiet_os 1 (FileCreatedEvent "/root/n.txt") started).2 ∧
  ∃ w', process_events flaky_client quiet_os 1
          [FileCreatedEvent "/root/n.txt"; FileModifiedEvent "/root/a.txt"] started
        = (Ret tt, w') ∧ lastsync w' = clock w'.
Proof.
  pose proof (lastsync_written_by_handlers flaky_client quiet_os 1) as (Ha & Hb & Hc).
  split_and!.
  - apply (Ha (FileCreatedEvent "/root/b.txt") started Timeout). by vm_compute.
  - destruct (Hb (FileCreatedEvent "/root/n.txt") started
                 (dispatch_event flaky_client quiet_os 1
                    (FileCreatedEvent "/root/n.txt") started).2) as [H|H].
    + by vm_compute.
    + exfalso. apply (f_equal clock) in H. vm_compute in H. discriminate.
    + exact H.
  - apply (Hc [FileCreatedEvent "/root/n.txt"; FileModifiedEvent "/root/a.txt"] started
              [Ret tt; Ret tt]
              (executor_map (dispatch_event flaky_client quiet_os 1)
                 [FileCreatedEvent "/root/n.txt"; FileModifiedEvent "/root/a.txt"]
                 (set_log (log started ++ ["Syncing..."]) started)).2).
    + by vm_compute.
    + by repeat constructor.
Defined.

(** C1, as stated, fails: in a batch of two created files where the upload
    of the second times out, [lastsync] is not what it was before the
    batch. The first handler has already moved it when the second raises. *)
Lemma partial_failure_moves_lastsync :
  (executor_map (dispatch_event flaky_client quiet_os 1)
     [FileCreatedEvent "/root/n.txt"; FileCreatedEvent "/root/b.txt"]
     (set_log (log started ++ ["Syncing..."]) started)).1
    = Ret [Ret tt; Raise Timeout] ∧
  CONNECTION_ERRORS Timeout = true ∧
  lastsync started = 500 ∧
  lastsync (dispatch_event flaky_client quiet_os 1
              (FileCreatedEvent "/root/n.txt") started).2 = 1500 ∧
  lastsync (process_events flaky_client quiet_os 1
              [FileCreatedEvent "/root/n.txt"; FileCreatedEvent "/root/b.txt"]
              started).2 ≠ lastsync started.
Proof. split_and!; by vm_compute. Qed.

(** C2 at a batch of three created files where the upload of the second
    times out and that of the third is refused: both exceptions stay in
    their futures. The third event is still dispatched, no signal is sent,
    [running] stays set, the block returns and reports "Up to date". *)
Theorem timeout_in_batch_goes_unnoticed :
  (executor_map (dispatch_event flaky_client quiet_os 1)
     [FileCreatedEvent "/root/n.txt"; FileCreatedEvent "/root/b.txt";
      FileCreatedEvent "/root/c.txt"]
     (set_log (log started ++ ["Syncing..."]) started)).1
    = Ret [Ret tt; Raise Timeout; Raise ApiError] ∧
  (process_events flaky_client quiet_os 1
     [FileCreatedEvent "/root/n.txt"; FileCreatedEvent "/root/b.txt";
      FileCreatedEvent "/root/c.txt"] started).1 = Ret tt ∧
  calls (process_events flaky_client quiet_os 1
     [FileCreatedEvent "/root/n.txt"; FileCreatedEvent "/root/b.txt";
      FileCreatedEvent "/root/c.txt"] started).2
    = [call_upload "/root/n.txt" "/n.txt" true WriteMode_add;
       call_upload "/root/b.txt" "/b.txt" true WriteMode_add;
       call_upload "/root/c.txt" "/c.txt" true WriteMode_add] ∧
  sent (process_events flaky_client quiet_os 1
     [FileCreatedEvent "/root/n.txt"; FileCreatedEvent "/root/b.txt";
      FileCreatedEvent "/root/c.txt"] started).2 = [] ∧
  running (process_events flaky_client quiet_os 1
     [FileCreatedEvent "/root/n.txt"; FileCreatedEvent "/root/b.txt";
      FileCreatedEvent "/root/c.txt"] started).2 = true ∧
  log (process_events flaky_client quiet_os 1
     [FileCreatedEvent "/root/n.txt"; FileCreatedEvent "/root/b.txt";
      FileCreatedEvent "/root/c.txt"] started).2 = ["Syncing..."; "Up to date"].
Proof. split_and!; by vm_compute. Qed.

(** C3 at a modified file tracked at revision [a1c10ce0dd71], which the
    constructor of [WriteMode] accepts: the upload is made with mode
    [update a1c10ce0dd71] and [autorename], the remote side answers with
    revision [a1c10ce0dd72], and the revision store still has
    [a1c10ce0dd71] afterwards. *)
Theorem on_modified_leaves_old_revision :
  get_local_rev flaky_client (rev_dict started) "/a.txt" = Some "a1c10ce0dd71" ∧
  Rev_validator "a1c10ce0dd71" = true ∧
  (dispatch_event flaky_client quiet_os 1 (FileModifiedEvent "/root/a.txt") started).1
    = Ret tt ∧
  calls (dispatch_event flaky_client quiet_os 1 (FileModifiedEvent "/root/a.txt") started).2
    = [call_upload "/root/a.txt" "/a.txt" true (WriteMode_update "a1c10ce0dd71")] ∧
  upload flaky_client [] "/root/a.txt" "/a.txt" true (WriteMode_update "a1c10ce0dd71")
    = inr ("/a.txt", "a1c10ce0dd72") ∧
  get_local_rev flaky_client
    (rev_dict (dispatch_event flaky_client quiet_os 1
                 (FileModifiedEvent "/root/a.txt") started).2) "/a.txt"
    = Some "a1c10ce0dd71".
Proof. split_and!; by vm_compute. Qed.

(** A modified file that is not tracked has no revision to update: the
    constructor of [WriteMode] is given [None] and raises after the wait,
    before anything is uploaded. *)
Example on_modified_untracked_raises :
  get_local_rev flaky_client (rev_dict started) "/n.txt" = None ∧
  dispatch_event flaky_client quiet_os 1 (FileModifiedEvent "/root/n.txt") started
  = (Raise ValidationError, set_clock 1200 started).
Proof. split; by vm_compute. Qed.

(** The handler for created files, on the same file, records the
    revision. *)
Example on_created_records_revision :
  get_local_rev flaky_client
    (rev_dict (dispatch_event flaky_client quiet_os 1
                 (FileCreatedEvent "/root/a.txt") started).2) "/a.txt"
  = Some "a1c10ce0dd72".
Proof. by vm_compute. Qed.

(** Scenario S2 through one turn of the worker: a created and a modified
    event for one file, queued 100 ms ago, make one upload in mode [add]. *)
Example atomic_save_one_upload m :
  calls (upload_worker_turn flaky_client quiet_os m 3
           (set_local_q {| queue := [FileCreatedEvent "/root/doc.md";
                                     FileModifiedEvent "/root/doc.md"];
                           update_time := 900 |} started)).2
  = [call_upload "/root/doc.md" "/doc.md" true WriteMode_add].
Proof. destruct m; by vm_compute. Qed.

(** C10. For a deleted event whose remote path is not excluded and has no
    local revision, the handler returns without any remote call, leaves
    the revision store as it is, and sets [lastsync] to the current time. *)
Theorem deleted_untracked_only_moves_lastsync (client : Client) (os : OS)
    (fuel : nat) (event : FileSystemEvent) (w : World) :
  event_type event = EVENT_TYPE_DELETED →
  is_excluded client (to_dbx_path client (src_path event)) = false →
  get_local_rev client (rev_dict w) (to_dbx_path client (src_path event)) = None →
  ∃ w', dispatch_event client os fuel event w = (Ret tt, w') ∧
        calls w' = calls w ∧
        rev_dict w' = rev_dict w ∧
        clock w' = clock w ∧
        lastsync w' = clock w.
Proof.
  intros Ht Hex Hrev. exists (set_lastsync (clock w) w).
  split; [|done].
  unfold dispatch_event, on_deleted. rewrite Ht, Hex.
  unfold mbind, M_bind, client_get_local_rev, gets. by rewrite Hrev.
Qed.

Lemma deleted_untracked_only_moves_lastsync_witness :
  ∃ w', dispatch_event flaky_client quiet_os 1 (FileDeletedEvent "/root/ghost.txt") started
        = (Ret tt, w') ∧
        calls w' = calls started ∧
        rev_dict w' = rev_dict started ∧
        clock w' = clock started ∧
        lastsync w' = clock started.
Proof.
  apply (deleted_untracked_only_moves_lastsync flaky_client quiet_os 1
           (FileDeletedEvent "/root/ghost.txt") started); by vm_compute.
Defined.

(** ** Offline reconciliation *)

Section Reconciliation.

Variable client : Client.
Variable os : OS.

(** The reconciliation returns, and changes nothing, once the snapshot has
    the root that [DirectorySnapshot] puts into it. *)
Lemma get_local_changes_eq (w : World) (st : stat_result) :
  _stat_info (scandir os (clock w) (dropbox_path client)) !! dropbox_path client = Some st →
  is_Some (_inode_to_path (scandir os (clock w) (dropbox_path client))
             !! (st_ino st, st_dev st)) →
  _get_local_changes client os w
  = (Ret (omap (modified_or_added client os (clock w) (lastsync w) (rev_dict w))
               (map_to_list (delete (dropbox_path client)
                  (_stat_info (scandir os (clock w) (dropbox_path client)))))
          ++ omap (deleted_item client os
                     (list_to_set (lower os <$>
                        (map_to_list (delete (dropbox_path client)
                           (_stat_info (scandir os (clock w) (dropbox_path client))))).*1)))
                  (map_to_list (rev_dict w))),
     w).
Proof.
  intros Hroot [p Hp].
  unfold _get_local_changes, mbind, M_bind, time_time, CONF_get_lastsync, gets,
    inode, del_inode_to_path, del_stat_info.
  rewrite Hroot. unfold mret, M_ret. rewrite Hp. cbn [_stat_info _inode_to_path].
  rewrite Hroot. reflexivity.
Qed.

Lemma elem_of_lowercase_paths (m : gmap string stat_result) (q : string) :
  q ∈ (list_to_set (lower os <$> (map_to_list m).*1) : gset string) ↔
  ∃ path, is_Some (m !! path) ∧ lower os path = q.
Proof.
  rewrite elem_of_list_to_set, list_elem_of_fmap. split.
  - intros (path & -> & Hp). apply list_elem_of_fmap in Hp as ([k st] & -> & Hk).
    apply elem_of_map_to_list in Hk. exists k. eauto.
  - intros (path & [st Hst] & <-). exists path. split; [done|].
    apply list_elem_of_fmap. exists (path, st). split; [done|].
    by apply elem_of_map_to_list.
Qed.

Lemma modified_or_added_Some t last_sync revs entry e :
  modified_or_added client os t last_sync revs entry = Some e ↔
  last_sync < Z.max (st_ctime entry.2) (st_mtime entry.2) ∧
  e = {| event_type := if bool_decide (is_Some (revs !! lower os (to_dbx_path client entry.1)))
                       then EVENT_TYPE_MODIFIED else EVENT_TYPE_CREATED;
         src_path := entry.1; dest_path := None;
         is_directory := isdir os t entry.1 |}.
Proof.
  unfold modified_or_added. case_bool_decide as Hlt.
  - destruct (bool_decide (is_Some _)), (isdir os t entry.1); simpl;
      (split; [intros [= <-] | intros [_ ->]]; done).
  - split; [done | by intros [? _]].
Qed.

Lemma deleted_item_Some paths entry e :
  deleted_item client os paths entry = Some e ↔
  (lower os (to_local_path client entry.1) ∉ paths) ∧
  e = {| event_type := EVENT_TYPE_DELETED;
         src_path := to_local_path client entry.1; dest_path := None;
         is_directory := bool_decide (entry.2 = "folder") |}.
Proof.
  unfold deleted_item. case_bool_decide as Hin.
  - destruct (bool_decide (entry.2 = "folder")); simpl;
      (split; [intros [= <-] | intros [_ ->]]; done).
  - split; [done | by intros [? _]].
Qed.

End Reconciliation.

(** C6. Offline reconciliation returns a list of events made of exactly:
    for every path of the snapshot other than the root with
    [max(ctime, mtime) > lastsync], a modified event when the lowercased
    remote path is a key of the revision store and a created event
    otherwise, for a directory or a file as [os.path.isdir] says; and for
    every key of the revision store whose lowercased local path is the
    lowercased form of no such snapshot path, a deleted event, for a
    directory exactly when the revision is ["folder"]. Lowercasing is
    [str.lower], whatever it does to the letters of a path. *)
Theorem reconciliation_events (client : Client) (os : OS) (w : World) (st : stat_result) :
  _stat_info (scandir os (clock w) (dropbox_path client)) !! dropbox_path client = Some st →
  is_Some (_inode_to_path (scandir os (clock w) (dropbox_path client))
             !! (st_ino st, st_dev st)) →
  ∃ changes,
    _get_local_changes client os w = (Ret changes, w) ∧
    ∀ e, e ∈ changes ↔
      (∃ path stats,
         path ≠ dropbox_path client ∧
         _stat_info (scandir os (clock w) (dropbox_path client)) !! path = Some stats ∧
         lastsync w < Z.max (st_ctime stats) (st_mtime stats) ∧
         e = {| event_type :=
                  if bool_decide (is_Some (rev_dict w !! lower os (to_dbx_path client path)))
                  then EVENT_TYPE_MODIFIED else EVENT_TYPE_CREATED;
                src_path := path; dest_path := None;
                is_directory := isdir os (clock w) path |}) ∨
      (∃ key rev,
         rev_dict w !! key = Some rev ∧
         (∀ path, path ≠ dropbox_path client →
                  is_Some (_stat_info (scandir os (clock w) (dropbox_path client)) !! path) →
                  lower os path ≠ lower os (to_local_path client key)) ∧
         e = {| event_type := EVENT_TYPE_DELETED;
                src_path := to_local_path client key; dest_path := None;
                is_directory := bool_decide (rev = "folder") |}).
Proof.
  intros Hroot Hino. eexists. split; [by apply (get_local_changes_eq client os w st)|].
  intros e. rewrite elem_of_app, !list_elem_of_omap. f_equiv.
  - split.
    + intros ([path stats] & Hin & He). apply elem_of_map_to_list in Hin.
      apply lookup_delete_Some in Hin as [Hne Hin].
      apply modified_or_added_Some in He as [Hlt ->]. exists path, stats. eauto.
    + intros (path & stats & Hne & Hin & Hlt & ->). exists (path, stats). split.
      * apply elem_of_map_to_list. apply lookup_delete_Some. eauto.
      * apply modified_or_added_Some. eauto.
  - split.
    + intros ([key rev] & Hin & He). apply elem_of_map_to_list in Hin.
      apply deleted_item_Some in He as [Hnin ->]. exists key, rev.
      split_and!; [done| |done]. intros path Hne [s Hs] Heq. apply Hnin.
      apply elem_of_lowercase_paths. exists path. split; [|done].
      exists s. apply lookup_delete_Some. eauto.
    + intros (key & rev & Hin & Hno & ->). exists (key, rev). split.
      * by apply elem_of_map_to_list.
      * apply deleted_item_Some. split; [|done].
        intros (path & [s Hs] & Heq)%elem_of_lowercase_paths.
        apply lookup_delete_Some in Hs as [Hne Hs]. by apply (Hno path).
Qed.

Lemma reconciliation_events_witness :
  ∃ changes,
    _get_local_changes flaky_client quiet_os started = (Ret changes, started) ∧
    (FileCreatedEvent "/root/New.txt" ∈ changes) ∧
    (FileDeletedEvent "/root/old.txt" ∈ changes) ∧
    (FileModifiedEvent "/root/New.txt" ∉ changes).
Proof.
  destruct (reconciliation_events flaky_client quiet_os started (stat_at 1 100))
    as (changes & Hc & Hiff); [by vm_compute | by vm_compute; eexists |].
  exists changes. split_and!; [done|..].
  - apply Hiff. left. exists "/root/New.txt", (stat_at 2 900).
    split_and!; by vm_compute.
  - apply Hiff. right. exists "/old.txt", "a1c10ce0dd70".
    split_and!; [by vm_compute| |by vm_compute].
    intros path Hne [s Hs]. simpl in Hs. unfold small_tree in Hs. simpl in Hs.
    apply lookup_insert_Some in Hs as [[<- _]|[_ Hs]]; [done|].
    apply lookup_singleton_Some in Hs as [<- _]. by vm_compute.
  - intros [(path & stats & _ & _ & _ & He)|(key & rev & _ & _ & He)]%Hiff.
    + assert (path = "/root/New.txt") as -> by (by injection He).
      revert He. by vm_compute.
    + discriminate.
Defined.

(** Whatever the client, a created and a deleted event of a reconciliation
    never have the same lowercased local path: the first comes from a path
    of the snapshot, the second from a key whose local path is not there. *)
Lemma created_and_deleted_differ_locally (client : Client) (os : OS) (w w' : World)
    (changes : list FileSystemEvent) (c d : FileSystemEvent) :
  _get_local_changes client os w = (Ret changes, w') →
  c ∈ changes → event_type c = EVENT_TYPE_CREATED →
  d ∈ changes → event_type d = EVENT_TYPE_DELETED →
  lower os (src_path c) ≠ lower os (src_path d).
Proof.
  intros Hrun Hc Hct Hd Hdt.
  unfold _get_local_changes, mbind, M_bind, time_time, CONF_get_lastsync, gets,
    inode, del_inode_to_path, del_stat_info in Hrun.
  destruct (_stat_info _ !! dropbox_path client) as [st|] eqn:Hroot; [|done].
  unfold mret, M_ret in Hrun.
  destruct (_inode_to_path _ !! _) as [p|]; [|done].
  cbn [_stat_info _inode_to_path] in Hrun. rewrite Hroot in Hrun.
  injection Hrun as <- <-.
  apply elem_of_app in Hc as [Hc|Hc];
    apply list_elem_of_omap in Hc as ([path stats] & Hp & Hx);
    [apply modified_or_added_Some in Hx as [_ ->]
    |apply deleted_item_Some in Hx as [_ ->]; discriminate].
  apply elem_of_app in Hd as [Hd|Hd];
    apply list_elem_of_omap in Hd as ([key rev] & Hk & Hy);
    [apply modified_or_added_Some in Hy as [_ ->]
    |apply deleted_item_Some in Hy as [Hnin ->]].
  { simpl in Hdt. by case_bool_decide. }
  simpl in *. intros Heq. apply Hnin. apply elem_of_lowercase_paths.
  apply elem_of_map_to_list in Hp. exists path. eauto.
Qed.

(** C7. Where every key of the revision store is the lowercased remote
    path of its own local path, the events of a reconciliation never have
    a created and a deleted event for the same lowercased remote path.
    Lowercasing is [str.lower], whatever it does to the letters of a
    path. *)
Theorem no_created_and_deleted (client : Client) (os : OS) (w w' : World)
    (changes : list FileSystemEvent) (c d : FileSystemEvent) :
  (∀ key, is_Some (rev_dict w !! key) →
          lower os (to_dbx_path client (to_local_path client key)) = key) →
  _get_local_changes client os w = (Ret changes, w') →
  c ∈ changes → event_type c = EVENT_TYPE_CREATED →
  d ∈ changes → event_type d = EVENT_TYPE_DELETED →
  lower os (to_dbx_path client (src_path c)) ≠ lower os (to_dbx_path client (src_path d)).
Proof.
  intros Hkeys Hrun Hc Hct Hd Hdt.
  unfold _get_local_changes, mbind, M_bind, time_time, CONF_get_lastsync, gets,
    inode, del_inode_to_path, del_stat_info in Hrun.
  destruct (_stat_info _ !! dropbox_path client) as [st|] eqn:Hroot; [|done].
  unfold mret, M_ret in Hrun.
  destruct (_inode_to_path _ !! _) as [p|]; [|done].
  cbn [_stat_info _inode_to_path] in Hrun. rewrite Hroot in Hrun.
  injection Hrun as <- <-.
  apply elem_of_app in Hc as [Hc|Hc]; apply list_elem_of_omap in Hc as (x & _ & Hx);
    [apply modified_or_added_Some in Hx as [_ ->]
    |apply deleted_item_Some in Hx as [_ ->]; discriminate].
  apply elem_of_app in Hd as [Hd|Hd]; apply list_elem_of_omap in Hd as ([key rev] & Hk & Hy);
    [apply modified_or_added_Some in Hy as [_ ->]
    |apply deleted_item_Some in Hy as [_ ->]].
  { simpl in Hdt. by case_bool_decide. }
  apply elem_of_map_to_list in Hk. simpl in *.
  rewrite (Hkeys key) by eauto.
  case_bool_decide as Hin; [discriminate|].
  intros Heq. apply Hin. rewrite Heq. eauto.
Qed.

Lemma no_created_and_deleted_witness :
  lower quiet_os (to_dbx_path flaky_client (src_path (FileCreatedEvent "/root/New.txt")))
  ≠ lower quiet_os (to_dbx_path flaky_client (src_path (FileDeletedEvent "/root/old.txt"))).
Proof.
  apply (no_created_and_deleted flaky_client quiet_os started started
           [FileCreatedEvent "/root/New.txt"; FileDeletedEvent "/root/old.txt";
            FileDeletedEvent "/root/a.txt"]).
  - intros key [rev Hk]. simpl in Hk. unfold tracked in Hk.
    apply lookup_insert_Some in Hk as [[<- _]|[_ Hk]]; [by vm_compute|].
    apply lookup_singleton_Some in Hk as [<- _]. by vm_compute.
  - by vm_compute.
  - by left.
  - reflexivity.
  - right; left.
  - reflexivity.
Defined.

(** Letter case beyond ASCII: the file [É.txt] of a folder whose revision
    store has the key [/é.txt] is the tracked file, modified; it is not
    taken for a new file next to a deleted one. *)
Example accented_file_is_modified :
  _get_local_changes flaky_client accented_os
    (set_rev_dict {["/é.txt" := "a1c10ce0dd75"]} started)
  = (Ret [FileModifiedEvent "/root/É.txt"],
     set_rev_dict {["/é.txt" := "a1c10ce0dd75"]} started).
Proof. by vm_compute. Qed.

(** ** The monitor *)

Section Orchestration.

Variable client : Client.
Variable os : OS.

Lemma for_put_returns (l : list FileSystemEvent) (w : World) :
  ∃ q, for_ l local_q_put w = (Ret tt, set_local_q q w).
Proof.
  revert w. induction l as [|a l IH]; intros w; simpl.
  - exists (local_q w). by destruct w.
  - destruct (IH (set_local_q {| queue := queue (local_q w) ++ [a];
                                update_time := clock w |} w)) as [q Hq].
    exists q. exact Hq.
Qed.

(** Reconciliation only fills the queue and writes to the log. *)
Lemma upload_local_changes_returns (w : World) (st : stat_result) :
  _stat_info (scandir os (clock w) (dropbox_path client)) !! dropbox_path client = Some st →
  is_Some (_inode_to_path (scandir os (clock w) (dropbox_path client))
             !! (st_ino st, st_dev st)) →
  ∃ q, upload_local_changes_after_inactive client os w
       = (Ret tt, set_log ((log w ++ ["Indexing..."]) ++ ["Up to date"]) (set_local_q q w)).
Proof.
  intros Hroot Hino.
  pose proof (get_local_changes_eq client os
                (set_log (log w ++ ["Indexing..."]) w) st Hroot Hino) as Hg.
  unfold upload_local_changes_after_inactive, mbind, M_bind, logger_info, modify.
  rewrite Hg.
  match goal with |- context [for_ ?l local_q_put ?w1] =>
    destruct (for_put_returns l w1) as [q Hq]; rewrite Hq end.
  by exists q.
Qed.

Lemma resume_paused (w : World) :
  paused_by_user w = true → resume client os w = (Ret tt, w).
Proof.
  intros Hp. unfold resume, mbind, M_bind, gets.
  rewrite Hp, orb_true_r. done.
Qed.

Lemma start_paused (w : World) :
  paused_by_user w = true → start client os w = (Ret tt, w).
Proof.
  intros Hp. unfold start, mbind, M_bind, gets.
  rewrite Hp, orb_true_r. done.
Qed.

Lemma for_resume_paused (rs : list (signal * slot)) (w : World) :
  paused_by_user w = true →
  (∀ r, r ∈ rs → r.2 = slot_resume) →
  for_ rs (λ r, run_slot client os r.2) w = (Ret tt, w).
Proof.
  intros Hp. induction rs as [|r rs IH]; intros Hrs; simpl; [done|].
  unfold mbind, M_bind. rewrite (Hrs r) by left. simpl.
  rewrite resume_paused by done. apply IH. intros r' Hr'. apply Hrs. by right.
Qed.

Lemma signal_send_paused (sig : signal) (w : World) :
  paused_by_user w = true →
  sig ≠ disconnected_signal →
  (∀ r, r ∈ receivers w →
        r = (connected_signal, slot_resume) ∨ r = (disconnected_signal, slot_pause)) →
  signal_send client os sig w = (Ret tt, set_sent (sent w ++ [sig]) w).
Proof.
  intros Hp Hsig Hrs. unfold signal_send, mbind, M_bind, modify, gets. simpl.
  apply for_resume_paused; [done|].
  intros r [Hr Hin]%list_elem_of_filter.
  destruct (Hrs r Hin) as [-> | ->]; [done|]. simpl in Hr. congruence.
Qed.

End Orchestration.

(** C8. While [paused_by_user] is true, [resume] returns with the state as
    it was: [running] and the watcher's flag keep their value, nothing is
    put in the queue and nothing is logged, so no reconciliation is run.
    The same holds of [start], and of the [connected] signal sent to the
    receivers that [start] connects, which only records the sending; a
    turn of the connection helper that finds the connection back leaves
    the two flags, the queue and the log as they were. *)
Theorem resume_is_noop_while_paused (client : Client) (os : OS) (w : World) (usage : Z) :
  paused_by_user w = true →
  (∀ r, r ∈ receivers w →
        r = (connected_signal, slot_resume) ∨ r = (disconnected_signal, slot_pause)) →
  get_space_usage client (calls w) = inr usage →
  resume client os w = (Ret tt, w) ∧
  start client os w = (Ret tt, w) ∧
  signal_send client os connected_signal w
    = (Ret tt, set_sent (sent w ++ [connected_signal]) w) ∧
  ∃ w', connection_helper_turn client os w = (Ret tt, w') ∧
        running w' = running w ∧ fh_running w' = fh_running w ∧
        local_q w' = local_q w ∧ log w' = log w ∧
        paused_by_user w' = true.
Proof.
  intros Hp Hrs Husage. split_and!.
  - by apply resume_paused.
  - by apply start_paused.
  - by apply signal_send_paused.
  - unfold connection_helper_turn, try_except.
    unfold mbind, M_bind, client_get_space_usage, remote, gets, modify, time_sleep,
      logger_info, mret, M_ret.
    rewrite Husage. cbn [connected set_calls].
    destruct (connected w) eqn:Hc; cbv beta iota.
    + rewrite signal_send_paused by done.
      eexists. split; [reflexivity|done].
    + rewrite signal_send_paused by done. cbv beta iota.
      rewrite signal_send_paused by done.
      eexists. split; [reflexivity|done].
Qed.

Lemma resume_is_noop_while_paused_witness :
  resume flaky_client quiet_os
    (set_paused_by_user true (set_fh_running false (set_running false started)))
    = (Ret tt, set_paused_by_user true (set_fh_running false (set_running false started))) ∧
  running (signal_send flaky_client quiet_os connected_signal
             (set_paused_by_user true (set_fh_running false (set_running false started)))).2
    = false ∧
  fh_running (signal_send flaky_client quiet_os connected_signal
                (set_paused_by_user true (set_fh_running false (set_running false started)))).2
    = false.
Proof.
  destruct (resume_is_noop_while_paused flaky_client quiet_os
              (set_paused_by_user true (set_fh_running false (set_running false started))) 0)
    as (Hr & _ & Hs & _).
  - reflexivity.
  - intros r Hr. apply elem_of_cons in Hr as [->|Hr]; [by left|].
    apply elem_of_cons in Hr as [->|Hr]; [by right|]. by apply elem_of_nil in Hr.
  - reflexivity.
  - split_and!; [exact Hr | by rewrite Hs | by rewrite Hs].
Defined.

(** With [paused_by_user] false, [start] on a stopped monitor spawns the
    observer and the two workers, connects the two slots, reconciles, and
    sets both flags. *)
Lemma start_unpaused (client : Client) (os : OS) (now last_sync : Z)
    (revs : gmap string string) (st : stat_result) :
  _stat_info (scandir os now (dropbox_path client)) !! dropbox_path client = Some st →
  is_Some (_inode_to_path (scandir os now (dropbox_path client)) !! (st_ino st, st_dev st)) →
  ∃ w', start client os (set_paused_by_user false (BirdBoxMonitor now last_sync revs))
        = (Ret tt, w') ∧
        running w' = true ∧ fh_running w' = true ∧
        threads w' = [BirdBoxConnectionHelper; LocalObserver;
                      BirdBoxDownloader; BirdBoxUploader] ∧
        receivers w' = [(connected_signal, slot_resume);
                        (disconnected_signal, slot_pause)] ∧
        log w' = ["Indexing..."; "Up to date"].
Proof.
  intros Hroot Hino.
  change (start client os (set_paused_by_user false (BirdBoxMonitor now last_sync revs)))
    with ((upload_local_changes_after_inactive client os;;
           modify (set_running true);; modify (set_fh_running true))
            {| clock := now; lastsync := last_sync; rev_dict := revs; calls := [];
               local_q := {| queue := []; update_time := 0 |};
               running := false; fh_running := false; connected := false;
               paused_by_user := false;
               receivers := [(connected_signal, slot_resume);
                             (disconnected_signal, slot_pause)];
               sent := [];
               threads := [BirdBoxConnectionHelper; LocalObserver;
                           BirdBoxDownloader; BirdBoxUploader];
               local_observer_thread := Some true; log := [] |}).
  match goal with |- context [_ ?w1 = _] =>
    destruct (upload_local_changes_returns client os w1 st Hroot Hino) as [q Hq] end.
  unfold mbind, M_bind. rewrite Hq.
  eexists. split; [reflexivity|done].
Qed.

(** C9. A freshly constructed monitor has [paused_by_user] true, and
    [start] on it returns with the state as it was: no thread is spawned,
    no reconciliation is run, and neither flag is set. Once
    [paused_by_user] has been set to false from outside, [start] spawns
    the threads, reconciles and sets both flags. *)
Theorem fresh_monitor_waits_for_user (client : Client) (os : OS) (now last_sync : Z)
    (revs : gmap string string) :
  paused_by_user (BirdBoxMonitor now last_sync revs) = true ∧
  running (BirdBoxMonitor now last_sync revs) = false ∧
  fh_running (BirdBoxMonitor now last_sync revs) = false ∧
  start client os (BirdBoxMonitor now last_sync revs)
    = (Ret tt, BirdBoxMonitor now last_sync revs) ∧
  (∀ st,
     _stat_info (scandir os now (dropbox_path client)) !! dropbox_path client = Some st →
     is_Some (_inode_to_path (scandir os now (dropbox_path client))
                !! (st_ino st, st_dev st)) →
     ∃ w', start client os (set_paused_by_user false (BirdBoxMonitor now last_sync revs))
           = (Ret tt, w') ∧
           running w' = true ∧ fh_running w' = true ∧
           threads w' = [BirdBoxConnectionHelper; LocalObserver;
                         BirdBoxDownloader; BirdBoxUploader] ∧
           receivers w' = [(connected_signal, slot_resume);
                           (disconnected_signal, slot_pause)] ∧
           log w' = ["Indexing..."; "Up to date"]).
Proof.
  split_and!; [reflexivity..| |].
  - by apply start_paused.
  - intros st. apply start_unpaused.
Qed.

Lemma fresh_monitor_waits_for_user_witness :
  start flaky_client quiet_os (BirdBoxMonitor 1000 500 tracked)
    = (Ret tt, BirdBoxMonitor 1000 500 tracked) ∧
  ∃ w', start flaky_client quiet_os
          (set_paused_by_user false (BirdBoxMonitor 1000 500 tracked)) = (Ret tt, w') ∧
        running w' = true ∧ fh_running w' = true ∧
        threads w' = [BirdBoxConnectionHelper; LocalObserver;
                      BirdBoxDownloader; BirdBoxUploader] ∧
        receivers w' = [(connected_signal, slot_resume);
                        (disconnected_signal, slot_pause)] ∧
        log w' = ["Indexing..."; "Up to date"].
Proof.
  destruct (fresh_monitor_waits_for_user flaky_client quiet_os 1000 500 tracked)
    as (_ & _ & _ & Hs & Hu).
  split; [exact Hs|].
  apply (Hu (stat_at 1 100)); [by vm_compute | by vm_compute; eexists].
Defined.

(** * Further properties *)

(** ** Coalescing *)

(** X1. Coalescing only removes: every event of the coalesced batch is an
    event of the batch, and every created event of the batch is in the
    coalesced batch. *)
Theorem coalescing_only_removes (m : set_equality) (B : list FileSystemEvent) :
  (∀ e, e ∈ coalesced m B → e ∈ B) ∧
  (∀ e, e ∈ B → event_type e = EVENT_TYPE_CREATED → e ∈ coalesced m B).
Proof.
  split.
  - intros e (y & Hy & <-)%elem_of_coalesced.
    apply combine_created_subseteq, combine_deleted_subseteq,
      combine_moved_subseteq, elem_of_objects in Hy.
    by eapply list_elem_of_lookup_2.
  - intros e [k Hk]%list_elem_of_lookup_1 Ht.
    apply (coalesced_keeps m B k e Hk). split.
    + intros [?|?]; congruence.
    + congruence.
Qed.

(** X2. A moved event of the batch is in the coalesced batch exactly when
    no other moved directory event of the batch has a source path that its
    own source path starts with. The test is on the strings: a separator
    after the folder's path is not asked for, and a second move of the
    same folder counts. *)
Theorem moved_kept_iff (m : set_equality) (B : list FileSystemEvent)
    (i : nat) (x : FileSystemEvent) :
  B !! i = Some x → event_type x = EVENT_TYPE_MOVED →
  (x ∈ coalesced m B ↔
   ∀ j p, B !! j = Some p → j ≠ i → event_type p = EVENT_TYPE_MOVED →
          is_directory p = true →
          String.prefix (src_path p) (src_path x) = false).
Proof.
  intros Hi Ht. split.
  - intros (y & Hy & Ey)%elem_of_coalesced j p Hj Hne Hpt Hpd.
    destruct (String.prefix (src_path p) (src_path x)) eqn:Hpre; [exfalso|done].
    apply combine_created_subseteq, combine_deleted_subseteq in Hy.
    pose proof (combine_moved_subseteq _ _ _ Hy) as Hyo. apply elem_of_objects in Hyo.
    rewrite combine_moved_pass in Hy. rewrite Ey in Hyo.
    destruct (decide (y.1 = j)) as [Hyj|Hyj].
    + assert (p = x) as -> by (rewrite Hyj in Hyo; congruence).
      apply (pass_drops _ _ _ _ _ (i, x) Hy).
      * by apply elem_of_objects.
      * by apply moved_folder_inv.
      * unfold is_moved_child, startswith, is_not. simpl. rewrite Ey.
        rewrite !andb_true_iff, is_type_true, negb_true_iff, bool_decide_eq_false.
        split_and!; [done | apply prefix_refl | congruence].
    + apply (pass_drops _ _ _ _ _ (j, p) Hy).
      * by apply elem_of_objects.
      * by apply moved_folder_inv.
      * unfold is_moved_child, startswith, is_not. simpl. rewrite Ey.
        rewrite !andb_true_iff, is_type_true, negb_true_iff, bool_decide_eq_false.
        done.
  - intros Hno. apply (coalesced_keeps m B i x Hi). split.
    + intros _ k' p Hk' Hne Hpt Hpd. apply (Hno k' p); congruence.
    + congruence.
Qed.

Lemma moved_kept_iff_witness :
  FileMovedEvent "/root/foobar.txt" "/root/baz.txt"
    ∈ coalesced ByKey [DirMovedEvent "/root/foo" "/root/bar";
                       FileMovedEvent "/root/foobar.txt" "/root/baz.txt"]
  ↔ ∀ j p, [DirMovedEvent "/root/foo" "/root/bar";
            FileMovedEvent "/root/foobar.txt" "/root/baz.txt"] !! j = Some p →
           j ≠ 1%nat → event_type p = EVENT_TYPE_MOVED → is_directory p = true →
           String.prefix (src_path p)
             (src_path (FileMovedEvent "/root/foobar.txt" "/root/baz.txt")) = false.
Proof.
  apply (moved_kept_iff ByKey [DirMovedEvent "/root/foo" "/root/bar";
                               FileMovedEvent "/root/foobar.txt" "/root/baz.txt"]
           1 (FileMovedEvent "/root/foobar.txt" "/root/baz.txt")); reflexivity.
Defined.

(** ** Time and [lastsync] *)

Lemma later_refl (w : World) : later w w.
Proof. intros H. lia. Qed.

Lemma later_trans (a b c : World) : later a b → later b c → later a c.
Proof. unfold later. intros Hab Hbc H. specialize (Hab H). lia. Qed.

Lemma advances_ret {A} (a : A) : advances (mret a).
Proof. intros w. apply later_refl. Qed.

Lemma advances_raise {A} (e : exn) : advances (raise e : M A).
Proof. intros w. apply later_refl. Qed.

Lemma advances_hang {A} : advances (hang : M A).
Proof. intros w. apply later_refl. Qed.

Lemma advances_gets {A} (g : World → A) : advances (gets g).
Proof. intros w. apply later_refl. Qed.

Lemma advances_keeps {A} (c : M A) :
  keeps (λ w, (clock w, lastsync w)) c → advances c.
Proof.
  intros H w Hw. specialize (H w). simpl in H.
  injection H as Hc Hl. lia.
Qed.

Lemma advances_modify (g : World → World) :
  (∀ w, clock (g w) = clock w) → (∀ w, lastsync (g w) = lastsync w) →
  advances (modify g).
Proof. intros Hc Hl w Hw. simpl. rewrite Hc, Hl. lia. Qed.

Lemma advances_bind {A B} (c : M A) (k : A → M B) :
  advances c → (∀ a, advances (k a)) → advances (c ≫= k).
Proof.
  intros Hc Hk w. unfold mbind, M_bind. specialize (Hc w).
  destruct (c w) as [[a|e|] w']; simpl in *; [|done..].
  eapply later_trans; [exact Hc | apply Hk].
Qed.

Lemma advances_for {A} (l : list A) (body : A → M unit) :
  (∀ a, advances (body a)) → advances (for_ l body).
Proof.
  intros H. induction l as [|a l IH]; simpl; [apply advances_ret|].
  apply advances_bind; [apply H | by intros _].
Qed.

Lemma advances_try_except (body handler : M unit) :
  advances body → advances handler → advances (try_except body handler).
Proof.
  intros Hb Hh w. unfold try_except. specialize (Hb w).
  destruct (body w) as [[[]|e|] w']; simpl in *; [done| |done].
  destruct (is_interrupt e); [done|].
  destruct (CONNECTION_ERRORS e); [|done].
  eapply later_trans; [exact Hb | apply Hh].
Qed.

Lemma advances_executor_map {A} (fn : A → M unit) (l : list A) :
  (∀ a, advances (fn a)) → advances (executor_map fn l).
Proof.
  intros H. induction l as [|a l IH]; intros w; simpl; [apply later_refl|].
  specialize (H a w). specialize (IH (fn a w).2).
  destruct (fn a w) as [[[]|e|] w1]; simpl in *; [| |done];
    destruct (executor_map fn l w1) as [[fs|e'|] w2]; simpl in *;
    by eapply later_trans.
Qed.

Lemma advances_sleep (d : Z) : 0 ≤ d → advances (time_sleep d).
Proof. intros Hd w Hw. simpl. lia. Qed.

Lemma advances_set_now : advances (t ← time_time; CONF_set_lastsync t).
Proof. intros w Hw. simpl. lia. Qed.

Lemma advances_set_now_then (k : M unit) :
  advances k → advances (t ← time_time; CONF_set_lastsync t;; k).
Proof.
  intros Hk w Hw. unfold mbind, M_bind. simpl.
  specialize (Hk (set_lastsync (clock w) w)). unfold later in Hk. simpl in Hk. lia.
Qed.

Lemma advances_remote {A} (c : call) (answer : list call → exn + A) :
  advances (remote c answer).
Proof. apply advances_keeps, keeps_remote. done. Qed.

Lemma advances_osp_getsize (os : OS) path : advances (osp_getsize os path).
Proof. apply advances_keeps, keeps_osp_getsize. Qed.

Lemma advances_wait_until_created (os : OS) fuel path d :
  0 ≤ d → advances (wait_until_created os fuel path d).
Proof.
  intros Hd. induction fuel as [|n IH]; simpl; [apply advances_hang|].
  apply advances_bind; [apply advances_osp_getsize|intros size1].
  apply advances_bind; [by apply advances_sleep|intros _].
  apply advances_bind; [apply advances_osp_getsize|intros size2].
  destruct (bool_decide (size1 = size2)); [apply advances_ret | done].
Qed.

Lemma advances_local_q_get : advances local_q_get.
Proof. apply advances_keeps, keeps_local_q_get. done. Qed.

Ltac advances_prim :=
  unfold client_move, client_upload, client_remove, client_get_metadata,
    client_make_dir, client_list_folder, client_get_space_usage,
    client_get_local_rev, client_set_local_rev, files_WriteMode_update,
    osp_isfile, osp_isdir,
    CONF_get_lastsync, logger_info, local_q_put, local_q_qsize,
    Thread_start, signal_connect.

Ltac advances_step :=
  lazymatch goal with
  | |- advances (mret _) => apply advances_ret
  | |- advances (raise _) => apply advances_raise
  | |- advances hang => apply advances_hang
  | |- advances (gets _) => apply advances_gets
  | |- advances (time_time ≫= (λ t, CONF_set_lastsync t)) => apply advances_set_now
  | |- advances time_time => apply advances_gets
  | |- advances (time_sleep _) => apply advances_sleep; lia
  | |- advances (modify _) =>
      apply advances_modify; intros w0; try (case_bool_decide); reflexivity
  | |- advances (remote _ _) => apply advances_remote
  | |- advances (osp_getsize _ _) => apply advances_osp_getsize
  | |- advances (wait_until_created _ _ _ _) => apply advances_wait_until_created; lia
  | |- advances local_q_get => apply advances_local_q_get
  | |- advances (_ ≫= _) => apply advances_bind; [|intros ?]
  | |- advances (for_ _ _) => apply advances_for; intros ?
  | |- advances (try_except _ _) => apply advances_try_except
  | |- advances (if ?b then _ else _) => destruct b
  | |- advances (match ?x with _ => _ end) => destruct x
  end.

Ltac solve_advances := repeat (advances_prim; advances_step).

Lemma dispatch_event_advances client os fuel event :
  advances (dispatch_event client os fuel event).
Proof.
  unfold dispatch_event, on_created, on_moved, on_deleted, on_modified.
  solve_advances.
Qed.

Lemma get_local_changes_advances client os : advances (_get_local_changes client os).
Proof.
  unfold _get_local_changes, inode, del_inode_to_path, del_stat_info.
  solve_advances.
Qed.

Lemma upload_local_changes_advances client os :
  advances (upload_local_changes_after_inactive client os).
Proof.
  unfold upload_local_changes_after_inactive.
  apply advances_bind; [solve_advances|intros _].
  apply advances_bind; [apply get_local_changes_advances|intros events].
  solve_advances.
Qed.

Lemma resume_advances client os : advances (resume client os).
Proof.
  unfold resume.
  apply advances_bind; [solve_advances|intros r].
  apply advances_bind; [solve_advances|intros p].
  destruct (r || p); [solve_advances|].
  apply advances_bind; [apply upload_local_changes_advances|intros _].
  solve_advances.
Qed.

Lemma pause_advances : advances pause.
Proof. unfold pause. solve_advances. Qed.

Lemma stop_advances : advances stop.
Proof. unfold stop. solve_advances. Qed.

Lemma start_advances client os : advances (start client os).
Proof.
  unfold start.
  apply advances_bind; [solve_advances|intros r].
  apply advances_bind; [solve_advances|intros p].
  destruct (r || p); [solve_advances|].
  do 6 (apply advances_bind; [solve_advances|intros _]).
  apply advances_bind; [apply upload_local_changes_advances|intros _].
  solve_advances.
Qed.

Lemma signal_send_advances client os sig : advances (signal_send client os sig).
Proof.
  unfold signal_send.
  apply advances_bind; [solve_advances|intros _].
  apply advances_bind; [solve_advances|intros rs].
  apply advances_for. intros [sig' []]; simpl.
  - apply resume_advances.
  - apply pause_advances.
Qed.

Lemma process_events_advances client os fuel events :
  advances (process_events client os fuel events).
Proof.
  unfold process_events. apply advances_try_except.
  - apply advances_bind; [solve_advances|intros _].
    apply advances_bind.
    + apply advances_executor_map. intros. apply dispatch_event_advances.
    + intros _. apply advances_set_now_then. solve_advances.
  - apply advances_bind; [solve_advances|intros _].
    apply advances_bind; [apply signal_send_advances|intros _]. solve_advances.
Qed.

Lemma wait_for_delay_advances fuel : advances (wait_for_delay fuel).
Proof.
  induction fuel as [|n IH]; simpl; [apply advances_hang|].
  apply advances_bind; [solve_advances|intros t0].
  apply advances_bind; [solve_advances|intros u].
  destruct (bool_decide (t0 - u < delay)); [|solve_advances].
  apply advances_bind; [apply advances_sleep; unfold delay; lia|by intros _].
Qed.

Lemma drain_advances fuel : advances (drain fuel).
Proof.
  induction fuel as [|n IH]; simpl; [apply advances_ret|].
  apply advances_bind; [solve_advances|intros k].
  destruct (bool_decide (0 < k)%nat); [|solve_advances].
  apply advances_bind; [solve_advances|intros e].
  apply advances_bind; [exact IH|intros r]. solve_advances.
Qed.

Lemma upload_worker_turn_advances client os m fuel :
  advances (upload_worker_turn client os m fuel).
Proof.
  unfold upload_worker_turn.
  apply advances_bind; [solve_advances|intros first].
  apply advances_bind; [apply wait_for_delay_advances|intros _].
  apply advances_bind; [solve_advances|intros n].
  apply advances_bind; [apply drain_advances|intros more].
  apply process_events_advances.
Qed.

Lemma connection_helper_turn_advances client os :
  advances (connection_helper_turn client os).
Proof.
  unfold connection_helper_turn. apply advances_try_except.
  - apply advances_bind; [solve_advances|intros res].
    apply advances_bind; [solve_advances|intros c].
    apply advances_bind.
    + destruct c; [solve_advances|].
      apply advances_bind; [solve_advances|intros _]. apply signal_send_advances.
    + intros _. apply advances_bind; [apply signal_send_advances|intros _].
      solve_advances.
  - do 2 (apply advances_bind; [solve_advances|intros _]).
    apply advances_bind; [apply signal_send_advances|intros _]. solve_advances.
Qed.

Lemma remote_worker_turn_advances client os remote_changes :
  advances (remote_worker_turn client os remote_changes).
Proof.
  assert (advances running_wait) as Hw.
  { apply advances_keeps. intros w. unfold running_wait. by destruct (running w). }
  unfold remote_worker_turn.
  apply advances_bind; [exact Hw|intros _].
  apply advances_try_except.
  - apply advances_bind; [solve_advances|intros _].
    apply advances_bind.
    { apply advances_keeps. intros w. unfold client_wait_for_remote_changes.
      by destruct (wait_for_remote_changes _ _ _). }
    intros has_changes.
    apply advances_bind; [exact Hw|intros _].
    apply advances_bind; [|intros _; solve_advances].
    destruct has_changes; [|solve_advances].
    do 2 (apply advances_bind; [solve_advances|intros _]).
    apply advances_bind.
    { apply advances_keeps. intros w. unfold client_list_remote_changes.
      by destruct (list_remote_changes _ _). }
    intros changes.
    apply advances_bind; [|intros _; solve_advances].
    apply advances_keeps. intros w. unfold client_apply_remote_changes.
    by destruct (apply_remote_changes _ _ _) as [[e|[]] revs].
  - apply advances_bind; [solve_advances|intros _].
    apply advances_bind; [apply signal_send_advances|intros _]. solve_advances.
Qed.

(** X3. [lastsync] never rewinds and never runs ahead of the clock. From a
    state in which [lastsync] is not later than the clock, a dispatched
    event, a turn of the upload worker, of the download worker or of the
    connection helper, and [start], [resume], [pause], [stop] or a signal
    each end, return or raise, in a state whose clock and [lastsync] are
    not earlier than before and whose [lastsync] is not later than its
    clock. *)
Theorem lastsync_never_rewinds (client : Client) (os : OS)
    (remote_changes : RemoteChanges) (m : set_equality) (fuel : nat) (w : World) :
  lastsync w ≤ clock w →
  ∀ w',
    (∃ event, w' = (dispatch_event client os fuel event w).2) ∨
    w' = (upload_worker_turn client os m fuel w).2 ∨
    w' = (remote_worker_turn client os remote_changes w).2 ∨
    w' = (connection_helper_turn client os w).2 ∨
    w' = (start client os w).2 ∨ w' = (resume client os w).2 ∨
    w' = (pause w).2 ∨ w' = (stop w).2 ∨
    (∃ sig, w' = (signal_send client os sig w).2) →
    clock w ≤ clock w' ∧ lastsync w ≤ lastsync w' ∧ lastsync w' ≤ clock w'.
Proof.
  intros Hw w' H.
  destruct H as [[event ->]|[->|[->|[->|[->|[->|[->|[->|[sig ->]]]]]]]]].
  - by apply dispatch_event_advances.
  - by apply upload_worker_turn_advances.
  - by apply remote_worker_turn_advances.
  - by apply connection_helper_turn_advances.
  - by apply start_advances.
  - by apply resume_advances.
  - by apply pause_advances.
  - by apply stop_advances.
  - by apply signal_send_advances.
Qed.

Lemma lastsync_never_rewinds_witness :
  clock started
    ≤ clock (upload_worker_turn flaky_client quiet_os ByKey 3
               (set_local_q {| queue := [FileCreatedEvent "/root/n.txt";
                                         FileCreatedEvent "/root/b.txt"];
                               update_time := 900 |} started)).2 ∧
  lastsync started
    ≤ lastsync (upload_worker_turn flaky_client quiet_os ByKey 3
                  (set_local_q {| queue := [FileCreatedEvent "/root/n.txt";
                                            FileCreatedEvent "/root/b.txt"];
                                  update_time := 900 |} started)).2 ∧
  lastsync (upload_worker_turn flaky_client quiet_os ByKey 3
              (set_local_q {| queue := [FileCreatedEvent "/root/n.txt";
                                        FileCreatedEvent "/root/b.txt"];
                              update_time := 900 |} started)).2
    ≤ clock (upload_worker_turn flaky_client quiet_os ByKey 3
               (set_local_q {| queue := [FileCreatedEvent "/root/n.txt";
                                         FileCreatedEvent "/root/b.txt"];
                               update_time := 900 |} started)).2.
Proof.
  apply (lastsync_never_rewinds flaky_client quiet_os one_change ByKey 3
           (set_local_q {| queue := [FileCreatedEvent "/root/n.txt";
                                     FileCreatedEvent "/root/b.txt"];
                           update_time := 900 |} started)).
  - by vm_compute.
  - right. left. reflexivity.
Defined.

(** ** The handlers of [DropboxUploadSync] *)

(** X4. Exclusion comes first. An event whose checked path (the destination
    of a moved event, the source of any other) is excluded by the client
    is dropped: the handler returns with the state as it was, so that no
    remote call is made, the revision store is not touched and [lastsync]
    is not written. *)
Theorem excluded_event_is_dropped (client : Client) (os : OS) (fuel : nat)
    (event : FileSystemEvent) (w : World) :
  (event_type event = EVENT_TYPE_MOVED → is_Some (dest_path event)) →
  is_excluded client (to_dbx_path client (checked_path event)) = true →
  dispatch_event client os fuel event w = (Ret tt, w).
Proof.
  destruct event as [t src dst dir]. unfold checked_path, dispatch_event. simpl.
  intros Hwf Hex. destruct t.
  - destruct (Hwf eq_refl) as [path2 ->]. unfold on_moved. simpl. by rewrite Hex.
  - unfold on_deleted. simpl. by rewrite Hex.
  - unfold on_created. simpl. by rewrite Hex.
  - unfold on_modified. simpl. by rewrite Hex.
Qed.

Lemma excluded_event_is_dropped_witness :
  dispatch_event
    {| dropbox_path := "/root"; to_dbx_path := root_to_dbx_path;
       to_local_path := root_to_local_path;
       is_excluded := λ p, String.prefix "/private" p;
       get_local_rev := index_get_local_rev; set_local_rev := index_set_local_rev;
       move := move flaky_client; upload := upload flaky_client;
       remove := remove flaky_client; get_metadata := get_metadata flaky_client;
       make_dir := make_dir flaky_client; list_folder := list_folder flaky_client;
       get_space_usage := get_space_usage flaky_client |}
    quiet_os 1 (FileMovedEvent "/root/a.txt" "/root/private/a.txt") started
  = (Ret tt, started).
Proof.
  apply excluded_event_is_dropped; [by eexists | reflexivity].
Defined.

(** X5. A moved event whose destination has more than one period in its
    base name is dropped: the handler returns with the state as it was,
    whatever the remote side would have answered. *)
Theorem temporary_file_move_is_dropped (client : Client) (os : OS) (fuel : nat)
    (event : FileSystemEvent) (path2 : string) (w : World) :
  event_type event = EVENT_TYPE_MOVED →
  dest_path event = Some path2 →
  (1 < count (basename path2) ".")%nat →
  dispatch_event client os fuel event w = (Ret tt, w).
Proof.
  intros Ht Hd Hc. unfold dispatch_event, on_moved. rewrite Ht, Hd.
  destruct (is_excluded client _); [done|].
  by rewrite bool_decide_eq_true_2.
Qed.

Lemma temporary_file_move_is_dropped_witness :
  dispatch_event offline_client quiet_os 1
    (FileMovedEvent "/root/.doc.md.abc123.tmp" "/root/doc.md.swp.2") started
  = (Ret tt, started).
Proof.
  apply (temporary_file_move_is_dropped offline_client quiet_os 1
           (FileMovedEvent "/root/.doc.md.abc123.tmp" "/root/doc.md.swp.2")
           "/root/doc.md.swp.2" started); [reflexivity | reflexivity | vm_compute; lia].
Defined.

(** X6. A created file that is there and whose size is the same 500 ms
    later is uploaded once, with [autorename], in mode [add] when the path
    has no local revision and in mode [update] of that revision when it
    has one that the constructor of [WriteMode] accepts. When the upload
    returns, the revision it returns is recorded under the path it
    returns, and [lastsync] is the time after the wait. When the path is
    tracked with something that is no revision, as a folder is, the
    constructor raises [ValidationError] after the wait: nothing is
    uploaded, and the revision store and [lastsync] stay as they were. *)
Theorem created_file_is_uploaded (client : Client) (os : OS) (fuel : nat)
    (event : FileSystemEvent) (w : World) (n : Z) :
  event_type event = EVENT_TYPE_CREATED →
  is_directory event = false →
  is_excluded client (to_dbx_path client (src_path event)) = false →
  isfile os (clock w) (src_path event) = true →
  getsize os (clock w) (src_path event) = Some n →
  getsize os (clock w + 500) (src_path event) = Some n →
  (∀ mode p r,
     (get_local_rev client (rev_dict w) (to_dbx_path client (src_path event)) = None ∧
      mode = WriteMode_add) ∨
     (∃ rev, get_local_rev client (rev_dict w) (to_dbx_path client (src_path event))
               = Some rev ∧
             Rev_validator rev = true ∧ mode = WriteMode_update rev) →
     upload client (calls w) (src_path event) (to_dbx_path client (src_path event))
            true mode = inr (p, r) →
     ∃ w', dispatch_event client os (S fuel) event w = (Ret tt, w') ∧
           calls w' = calls w ++
             [call_upload (src_path event) (to_dbx_path client (src_path event))
                          true mode] ∧
           rev_dict w' = set_local_rev client (rev_dict w) p (Some r) ∧
           clock w' = clock w + 500 ∧
           lastsync w' = clock w + 500) ∧
  (∀ rev,
     get_local_rev client (rev_dict w) (to_dbx_path client (src_path event)) = Some rev →
     Rev_validator rev = false →
     dispatch_event client os (S fuel) event w
     = (Raise ValidationError, set_clock (clock w + 500) w)).
Proof.
  intros Ht Hdir Hex Hfile Hs1 Hs2.
  assert (∀ k : unit → M unit,
            (file ← osp_isfile os (src_path event);
             if file : bool
             then wait_until_created os (S fuel) (src_path event) 500;; k tt
             else mret tt) w
            = k tt (set_clock (clock w + 500) w)) as Hwait.
  { intros k. unfold mbind, M_bind, osp_isfile, gets. rewrite Hfile.
    simpl wait_until_created. unfold mbind, M_bind, osp_getsize, time_sleep, modify.
    rewrite Hs1. cbn [clock set_clock]. rewrite Hs2.
    by rewrite bool_decide_eq_true_2 by done. }
  split.
  - intros mode p r Hmode Hup.
    unfold dispatch_event, on_created. rewrite Ht, Hex, Hdir. simpl negb. cbv iota.
    unfold mbind at 1. unfold M_bind at 1.
    rewrite (Hwait (λ _, _)).
    unfold mbind, M_bind, client_get_local_rev, gets, files_WriteMode_update.
    cbn [rev_dict set_clock].
    destruct Hmode as [[-> ->]|(rev & -> & Hv & ->)]; [|rewrite Hv];
      unfold mret, M_ret, client_upload, remote; cbn [calls set_clock]; rewrite Hup;
      (eexists; split; [reflexivity|done]).
  - intros rev Hrev Hv.
    unfold dispatch_event, on_created. rewrite Ht, Hex, Hdir. simpl negb. cbv iota.
    unfold mbind at 1. unfold M_bind at 1.
    rewrite (Hwait (λ _, _)).
    unfold mbind, M_bind, client_get_local_rev, gets, files_WriteMode_update.
    cbn [rev_dict set_clock]. rewrite Hrev, Hv. reflexivity.
Qed.

Lemma created_file_is_uploaded_witness :
  ∃ w', dispatch_event flaky_client quiet_os 1 (FileCreatedEvent "/root/a.txt") started
        = (Ret tt, w') ∧
        calls w' = calls started ++
          [call_upload "/root/a.txt" "/a.txt" true (WriteMode_update "a1c10ce0dd71")] ∧
        rev_dict w' = set_local_rev flaky_client (rev_dict started) "/a.txt"
                        (Some "a1c10ce0dd72") ∧
        clock w' = clock started + 500 ∧
        lastsync w' = clock started + 500.
Proof.
  apply (proj1 (created_file_is_uploaded flaky_client quiet_os 0
                  (FileCreatedEvent "/root/a.txt") started 4096
                  eq_refl eq_refl eq_refl eq_refl eq_refl eq_refl)
               (WriteMode_update "a1c10ce0dd71") "/a.txt" "a1c10ce0dd72").
  - right. exists "a1c10ce0dd71". split_and!; reflexivity.
  - reflexivity.
Defined.

(** A file created where a folder is tracked: the revision store has
    ["folder"] for the path, which is no revision, and the handler raises
    before anything is uploaded. *)
Example created_file_over_folder_raises :
  dispatch_event flaky_client quiet_os 1 (FileCreatedEvent "/root/photos")
    (set_rev_dict {["/photos" := "folder"]} started)
  = (Raise ValidationError,
     set_clock 1500 (set_rev_dict {["/photos" := "folder"]} started)).
Proof. by vm_compute. Qed.

(** X7. A created directory is looked up on the remote side first, and the
    remote folder is made only when the lookup finds nothing. Either way
    the path is recorded as ["folder"], and [lastsync] is set to the
    current time. *)
Theorem created_directory_is_made_once (client : Client) (os : OS) (fuel : nat)
    (event : FileSystemEvent) (w : World) :
  event_type event = EVENT_TYPE_CREATED →
  is_directory event = true →
  is_excluded client (to_dbx_path client (src_path event)) = false →
  (∀ md, get_metadata client (calls w) (to_dbx_path client (src_path event))
         = inr (Some md) →
     ∃ w', dispatch_event client os fuel event w = (Ret tt, w') ∧
           calls w' = calls w ++ [call_get_metadata (to_dbx_path client (src_path event))] ∧
           rev_dict w' = set_local_rev client (rev_dict w)
                           (to_dbx_path client (src_path event)) (Some "folder") ∧
           lastsync w' = clock w) ∧
  (∀ md, get_metadata client (calls w) (to_dbx_path client (src_path event)) = inr None →
         make_dir client
           (calls w ++ [call_get_metadata (to_dbx_path client (src_path event))])
           (to_dbx_path client (src_path event)) = inr md →
     ∃ w', dispatch_event client os fuel event w = (Ret tt, w') ∧
           calls w' = calls w ++ [call_get_metadata (to_dbx_path client (src_path event));
                                  call_make_dir (to_dbx_path client (src_path event))] ∧
           rev_dict w' = set_local_rev client (rev_dict w)
                           (to_dbx_path client (src_path event)) (Some "folder") ∧
           lastsync w' = clock w).
Proof.
  intros Ht Hdir Hex. split.
  - intros md Hmd. unfold dispatch_event, on_created. rewrite Ht, Hex, Hdir.
    simpl negb. cbv iota.
    unfold mbind, M_bind, client_get_metadata, remote. rewrite Hmd.
    eexists. split; [reflexivity|done].
  - intros md Hnone Hmk. unfold dispatch_event, on_created. rewrite Ht, Hex, Hdir.
    simpl negb. cbv iota.
    unfold mbind, M_bind, client_get_metadata, client_make_dir, remote. rewrite Hnone.
    cbn [calls set_calls]. rewrite Hmk.
    eexists. split; [reflexivity|]. cbn. by rewrite <- app_assoc.
Qed.

Lemma created_directory_is_made_once_witness :
  ∃ w', dispatch_event flaky_client quiet_os 1 (DirCreatedEvent "/root/photos") started
        = (Ret tt, w') ∧
        calls w' = calls started ++ [call_get_metadata "/photos"; call_make_dir "/photos"] ∧
        rev_dict w' = set_local_rev flaky_client (rev_dict started) "/photos" (Some "folder") ∧
        lastsync w' = clock started.
Proof.
  apply (proj2 (created_directory_is_made_once flaky_client quiet_os 1
                  (DirCreatedEvent "/root/photos") started eq_refl eq_refl eq_refl)
               (FolderMetadata "/photos")); reflexivity.
Defined.

(** X8. Events with nothing to upload. For a modified directory, and for a
    created or modified file event whose path is no file any more, the
    handler makes no remote call and leaves the revision store alone, but
    still sets [lastsync] to the current time. *)
Theorem nothing_to_upload_moves_lastsync (client : Client) (os : OS) (fuel : nat)
    (event : FileSystemEvent) (w : World) :
  is_excluded client (to_dbx_path client (src_path event)) = false →
  (event_type event = EVENT_TYPE_MODIFIED ∧ is_directory event = true) ∨
  ((event_type event = EVENT_TYPE_MODIFIED ∨ event_type event = EVENT_TYPE_CREATED) ∧
   is_directory event = false ∧ isfile os (clock w) (src_path event) = false) →
  dispatch_event client os fuel event w = (Ret tt, set_lastsync (clock w) w).
Proof.
  intros Hex [[Ht Hdir]|[[Ht|Ht] [Hdir Hfile]]];
    unfold dispatch_event, on_modified, on_created; rewrite Ht, Hex, Hdir;
    simpl negb; cbv iota; [done|..];
    unfold mbind, M_bind, osp_isfile, gets; by rewrite Hfile.
Qed.

Lemma nothing_to_upload_moves_lastsync_witness :
  dispatch_event offline_client quiet_os 1 (DirModifiedEvent "/root/photos") started
  = (Ret tt, set_lastsync (clock started) started).
Proof.
  apply nothing_to_upload_moves_lastsync; [reflexivity | left; by split].
Defined.

(** X9. A deleted event for a tracked path makes one call, [remove], and
    when that returns metadata clears the entry of the path the metadata
    names; when it returns nothing the store is left alone. [lastsync] is
    set to the current time in both cases. *)
Theorem deleted_tracked_is_removed (client : Client) (os : OS) (fuel : nat)
    (event : FileSystemEvent) (w : World) (rev : string) (answer : option Metadata) :
  event_type event = EVENT_TYPE_DELETED →
  is_excluded client (to_dbx_path client (src_path event)) = false →
  get_local_rev client (rev_dict w) (to_dbx_path client (src_path event)) = Some rev →
  remove client (calls w) (to_dbx_path client (src_path event)) = inr answer →
  ∃ w', dispatch_event client os fuel event w = (Ret tt, w') ∧
        calls w' = calls w ++ [call_remove (to_dbx_path client (src_path event))] ∧
        rev_dict w' = match answer with
                      | Some md => set_local_rev client (rev_dict w) (path_display md) None
                      | None => rev_dict w
                      end ∧
        lastsync w' = clock w.
Proof.
  intros Ht Hex Hrev Hrm. unfold dispatch_event, on_deleted. rewrite Ht, Hex.
  unfold mbind, M_bind, client_get_local_rev, gets. rewrite Hrev.
  unfold client_remove, remote. rewrite Hrm.
  destruct answer as [md|]; (eexists; split; [reflexivity|done]).
Qed.

Lemma deleted_tracked_is_removed_witness :
  ∃ w', dispatch_event flaky_client quiet_os 1 (FileDeletedEvent "/root/old.txt") started
        = (Ret tt, w') ∧
        calls w' = calls started ++ [call_remove "/old.txt"] ∧
        rev_dict w' = set_local_rev flaky_client (rev_dict started) "/old.txt" None ∧
        lastsync w' = clock started.
Proof.
  apply (deleted_tracked_is_removed flaky_client quiet_os 1
           (FileDeletedEvent "/root/old.txt") started "a1c10ce0dd70"
           (Some (DeletedMetadata "/old.txt"))); reflexivity.
Defined.

Lemma for_record_listing (client : Client) (listing : list Metadata) (w : World) :
  for_ listing (λ md,
    match md with
    | FileMetadata p rev => client_set_local_rev client p (Some rev)
    | FolderMetadata p => client_set_local_rev client p (Some "folder")
    | DeletedMetadata _ => mret tt
    end) w
  = (Ret tt, set_rev_dict (record_listing client (rev_dict w) listing) w).
Proof.
  revert w. induction listing as [|md l IH]; intros w; simpl.
  - by destruct w.
  - unfold mbind, M_bind.
    destruct md; unfold client_set_local_rev, modify, mret, M_ret; by rewrite IH.
Qed.

(** X10. A moved event that is not dropped makes one [move] call. The
    entry of the old path is cleared; for a file the revision returned is
    recorded under the new path; for a folder the new path is recorded as
    ["folder"], the folder is listed recursively, and every file and folder
    of the listing is recorded. [lastsync] is set to the current time. *)
Theorem moved_is_replayed (client : Client) (os : OS) (fuel : nat)
    (event : FileSystemEvent) (path2 : string) (w : World) :
  event_type event = EVENT_TYPE_MOVED →
  dest_path event = Some path2 →
  is_excluded client (to_dbx_path client path2) = false →
  (count (basename path2) "." ≤ 1)%nat →
  (∀ p rev, move client (calls w) (to_dbx_path client (src_path event))
              (to_dbx_path client path2) = inr (FileMetadata p rev) →
     ∃ w', dispatch_event client os fuel event w = (Ret tt, w') ∧
           calls w' = calls w ++ [call_move (to_dbx_path client (src_path event))
                                            (to_dbx_path client path2)] ∧
           rev_dict w' = set_local_rev client
                           (set_local_rev client (rev_dict w)
                              (to_dbx_path client (src_path event)) None)
                           (to_dbx_path client path2) (Some rev) ∧
           lastsync w' = clock w) ∧
  (∀ p pages, move client (calls w) (to_dbx_path client (src_path event))
                (to_dbx_path client path2) = inr (FolderMetadata p) →
              list_folder client
                (calls w ++ [call_move (to_dbx_path client (src_path event))
                                       (to_dbx_path client path2)])
                (to_dbx_path client path2) true = inr pages →
     ∃ w', dispatch_event client os fuel event w = (Ret tt, w') ∧
           calls w' = calls w ++ [call_move (to_dbx_path client (src_path event))
                                            (to_dbx_path client path2);
                                  call_list_folder (to_dbx_path client path2) true] ∧
           rev_dict w' = record_listing client
                           (set_local_rev client
                              (set_local_rev client (rev_dict w)
                                 (to_dbx_path client (src_path event)) None)
                              (to_dbx_path client path2) (Some "folder"))
                           (flatten_results_list pages) ∧
           lastsync w' = clock w).
Proof.
  intros Ht Hd Hex Hc.
  assert (bool_decide (1 < count (basename path2) ".")%nat = false) as Hb
    by (apply bool_decide_eq_false; lia).
  split.
  - intros p rev Hmv. unfold dispatch_event, on_moved. rewrite Ht, Hd, Hex, Hb.
    unfold mbind, M_bind, client_move, remote. rewrite Hmv.
    eexists. split; [reflexivity|done].
  - intros p pages Hmv Hls. unfold dispatch_event, on_moved. rewrite Ht, Hd, Hex, Hb.
    unfold mbind, M_bind, client_move, client_list_folder, remote. rewrite Hmv.
    cbn [client_set_local_rev modify calls set_rev_dict set_calls]. rewrite Hls.
    rewrite for_record_listing.
    eexists. split; [reflexivity|]. cbn. by rewrite <- app_assoc.
Qed.

Lemma moved_is_replayed_witness :
  ∃ w', dispatch_event flaky_client quiet_os 1
          (FileMovedEvent "/root/a.txt" "/root/b.txt") started = (Ret tt, w') ∧
        calls w' = calls started ++ [call_move "/a.txt" "/b.txt"] ∧
        rev_dict w' = set_local_rev flaky_client
                        (set_local_rev flaky_client (rev_dict started) "/a.txt" None)
                        "/b.txt" (Some "a1c10ce0dd73") ∧
        lastsync w' = clock started.
Proof.
  apply (proj1 (moved_is_replayed flaky_client quiet_os 1
                  (FileMovedEvent "/root/a.txt" "/root/b.txt") "/root/b.txt" started
                  eq_refl eq_refl eq_refl ltac:(vm_compute; lia))
               "/b.txt" "a1c10ce0dd73").
  reflexivity.
Defined.

(** X11. The handlers leave the monitor alone. Whatever it returns or
    raises, the dispatch of an event changes nothing of the queue, the
    [running], watcher and [connected] flags, [paused_by_user], the signal
    connections, the signals sent, the threads and the log. *)
Theorem handlers_leave_monitor_alone (client : Client) (os : OS) (fuel : nat)
    (event : FileSystemEvent) (w : World) :
  let '(_, w') := dispatch_event client os fuel event w in
  local_q w' = local_q w ∧ running w' = running w ∧ fh_running w' = fh_running w ∧
  connected w' = connected w ∧ paused_by_user w' = paused_by_user w ∧
  receivers w' = receivers w ∧ sent w' = sent w ∧ threads w' = threads w ∧
  local_observer_thread w' = local_observer_thread w ∧ log w' = log w.
Proof.
  pose proof (dispatch_event_keeps client os
                (λ w, (local_q w, running w, fh_running w, connected w, paused_by_user w,
                       receivers w, sent w, threads w, local_observer_thread w, log w))
                fuel event (λ _ _, eq_refl) (λ _ _, eq_refl) (λ _ _, eq_refl)
                (λ _ _, eq_refl) w) as H.
  destruct (dispatch_event client os fuel event w) as [o w']. simpl in H.
  injection H as -> -> -> -> -> -> -> -> -> ->. done.
Qed.

(** X12. The wait before an upload ([while True: size1 = ...; sleep;
    size2 = ...]) returns only when two reads of the size, one sleep apart,
    agree: it has then slept a whole number of times, at least once, and
    changed nothing but the clock. It raises only when a read fails. When
    the size now and the size one sleep later agree, it returns after that
    one sleep. *)
Theorem wait_ends_on_stable_size (os : OS) (fuel : nat) (path : string) (d : Z)
    (w : World) :
  (∀ w', wait_until_created os fuel path d w = (Ret tt, w') →
         w' = set_clock (clock w') w ∧
         (∃ k, (1 ≤ k ≤ fuel)%nat ∧ clock w' = clock w + Z.of_nat k * d) ∧
         is_Some (getsize os (clock w') path) ∧
         getsize os (clock w' - d) path = getsize os (clock w') path) ∧
  (∀ e w', wait_until_created os fuel path d w = (Raise e, w') → e = OSError) ∧
  (∀ n, getsize os (clock w) path = Some n → getsize os (clock w + d) path = Some n →
        wait_until_created os (S fuel) path d w = (Ret tt, set_clock (clock w + d) w)).
Proof.
  split_and!.
  - revert w. induction fuel as [|fuel IH]; intros w w'; simpl; [done|].
    unfold mbind, M_bind, osp_getsize, time_sleep, modify. cbn [clock set_clock].
    destruct (getsize os (clock w) path) as [s1|] eqn:E1; [|done].
    destruct (getsize os (clock w + d) path) as [s2|] eqn:E2; [|done].
    case_bool_decide as Hs.
    + intros [= <-]. cbn [clock set_clock]. split_and!.
      * done.
      * exists 1%nat. split; lia.
      * rewrite E2. eauto.
      * replace (clock w + d - d) with (clock w) by lia. congruence.
    + intros H. apply IH in H as (Hw' & (k & Hk & Hc) & Hsome & Hsize).
      cbn [clock set_clock] in *. split_and!; [|exists (S k); split; lia|done..].
      rewrite Hw'. done.
  - revert w. induction fuel as [|fuel IH]; intros w e w'; simpl; [done|].
    unfold mbind, M_bind, osp_getsize, time_sleep, modify. cbn [clock set_clock].
    destruct (getsize os (clock w) path) as [s1|]; [|congruence].
    destruct (getsize os (clock w + d) path) as [s2|]; [|congruence].
    case_bool_decide; [done | apply IH].
  - intros n E1 E2. simpl.
    unfold mbind, M_bind, osp_getsize, time_sleep, modify. cbn [clock set_clock].
    rewrite E1, E2. by rewrite bool_decide_eq_true_2.
Qed.

Lemma wait_ends_on_stable_size_witness :
  wait_until_created quiet_os 1 "/root/a.txt" 200 started
  = (Ret tt, set_clock (clock started + 200) started).
Proof.
  apply (proj2 (proj2 (wait_ends_on_stable_size quiet_os 0 "/root/a.txt" 200 started))
           4096); reflexivity.
Defined.

(** ** The queue and the upload worker *)

Lemma for_put_eq (l : list FileSystemEvent) (w : World) :
  for_ l local_q_put w
  = (Ret tt, set_local_q {| queue := queue (local_q w) ++ l;
                            update_time := match l with
                                           | [] => update_time (local_q w)
                                           | _ => clock w
                                           end |} w).
Proof.
  revert w. induction l as [|a l IH]; intros w; simpl.
  - rewrite app_nil_r. by destruct w as [? ? ? ? []].
  - unfold mbind, M_bind, local_q_put, modify. rewrite IH. cbn.
    rewrite <- app_assoc. by destruct l.
Qed.

Lemma drain_all (n : nat) (w : World) :
  (length (queue (local_q w)) ≤ n)%nat →
  drain n w = (Ret (queue (local_q w)),
               set_local_q {| queue := []; update_time := update_time (local_q w) |} w).
Proof.
  revert w. induction n as [|n IH]; intros w Hn; simpl.
  - destruct w as [? ? ? ? [[|a q] u]]; simpl in *; [done|lia].
  - unfold mbind, M_bind, local_q_qsize, local_q_get, gets.
    destruct w as [? ? ? ? [[|a q] u]]; simpl in *; [done|].
    rewrite IH by (simpl; lia). done.
Qed.

(** X13. The queue is first in, first out, and remembers the time of the
    last put: after a list of events has been put, taking everything there
    is returns what was queued before followed by the list, in order, and
    leaves the queue empty; its [update_time] is the time of the puts, or
    what it was when nothing was put. *)
Theorem queue_is_fifo (l : list FileSystemEvent) (w : World) :
  ∃ w1 w2,
    for_ l local_q_put w = (Ret tt, w1) ∧
    (n ← local_q_qsize; drain n) w1 = (Ret (queue (local_q w) ++ l), w2) ∧
    queue (local_q w2) = [] ∧
    update_time (local_q w2) = match l with
                               | [] => update_time (local_q w)
                               | _ => clock w
                               end.
Proof.
  eexists _, _. split; [apply for_put_eq|].
  unfold mbind, M_bind, local_q_qsize, gets. rewrite drain_all by done. done.
Qed.

Lemma wait_for_delay_returns (fuel : nat) (w w' : World) :
  wait_for_delay fuel w = (Ret tt, w') →
  delay ≤ clock w' - update_time (local_q w') ∧
  w' = set_clock (clock w') w ∧ clock w ≤ clock w'.
Proof.
  revert w. induction fuel as [|fuel IH]; intros w; simpl; [done|].
  unfold mbind, M_bind, time_time, gets. case_bool_decide as Hlt.
  - unfold time_sleep, modify. intros H.
    apply IH in H as (Hd & Hw' & Hc). cbn [clock set_clock local_q] in *.
    unfold delay in *. split_and!; [done| |lia]. by rewrite Hw'.
  - intros [= <-]. split_and!; [lia| |lia]. by destruct w.
Qed.

(** X14. The debounce loop returns only once the queue has been idle for
    [delay]: the time since the last put is then at least 500 ms, and
    nothing but the clock has changed. Where the last put is not in the
    future it returns after at most one sleep. *)
Theorem wait_for_delay_waits (fuel : nat) (w : World) :
  (∀ w', wait_for_delay fuel w = (Ret tt, w') →
         delay ≤ clock w' - update_time (local_q w') ∧
         w' = set_clock (clock w') w ∧ clock w ≤ clock w') ∧
  (update_time (local_q w) ≤ clock w →
   wait_for_delay (S (S fuel)) w
   = (Ret tt, if bool_decide (clock w - update_time (local_q w) < delay)
              then set_clock (clock w + delay) w else w)).
Proof.
  split.
  - intros w'. apply wait_for_delay_returns.
  - intros Hu. simpl. unfold mbind, M_bind, time_time, gets, time_sleep, modify.
    case_bool_decide as Hlt; [|done]. cbn [clock set_clock local_q].
    rewrite bool_decide_eq_false_2; [done|]. unfold delay in *. lia.
Qed.

Lemma wait_for_delay_waits_witness :
  wait_for_delay 2
    (set_local_q {| queue := []; update_time := 900 |} started)
  = (Ret tt, set_clock 1500 (set_local_q {| queue := []; update_time := 900 |} started)).
Proof.
  apply (proj2 (wait_for_delay_waits 0
                  (set_local_q {| queue := []; update_time := 900 |} started))).
  by vm_compute.
Defined.

Lemma process_events_keeps_queue client os fuel events :
  keeps local_q (process_events client os fuel events).
Proof.
  intros w.
  pose proof (keeps_executor_map local_q (dispatch_event client os fuel) events) as H.
  assert (∀ a, keeps local_q (dispatch_event client os fuel a)) as Hd
    by (intros a; apply dispatch_event_keeps; intros; reflexivity).
  specialize (H Hd (set_log (log w ++ ["Syncing..."]) w)).
  pose proof (executor_map_no_raise (dispatch_event client os fuel) events
                (set_log (log w ++ ["Syncing..."]) w)) as Hr.
  unfold process_events, try_except, mbind, M_bind, logger_info, modify.
  destruct (executor_map _ _ _) as [[fs|e1|] w1]; simpl in *; [done| |done].
  by specialize (Hr e1 w1).
Qed.

(** X15. A turn of the upload worker takes the whole queue. On an empty
    queue it blocks, with the state as it was; and when it returns the
    queue is empty and [lastsync] is the time of its return. *)
Theorem upload_worker_takes_the_queue (client : Client) (os : OS)
    (m : set_equality) (fuel : nat) (w : World) :
  (queue (local_q w) = [] → upload_worker_turn client os m fuel w = (Hang, w)) ∧
  (∀ w', upload_worker_turn client os m fuel w = (Ret tt, w') →
         queue (local_q w') = [] ∧ lastsync w' = clock w').
Proof.
  split.
  - intros Hq. unfold upload_worker_turn, mbind, M_bind, local_q_get. by rewrite Hq.
  - intros w'. unfold upload_worker_turn, mbind at 1, M_bind at 1, local_q_get.
    destruct (queue (local_q w)) as [|first q] eqn:Hq; [done|].
    unfold mbind at 1, M_bind at 1.
    destruct (wait_for_delay fuel _) as [[[]|e|] w1] eqn:Hw; [|done..].
    apply wait_for_delay_returns in Hw as (_ & Hw1 & _).
    unfold mbind, M_bind, local_q_qsize, gets. rewrite drain_all by done.
    intros H.
    pose proof (process_events_keeps_queue client os fuel
                  (coalesced m (first :: queue (local_q w1)))
                  (set_local_q {| queue := [];
                                  update_time := update_time (local_q w1) |} w1)) as Hk.
    rewrite H in Hk. simpl in Hk. split; [by rewrite Hk|].
    unfold process_events, try_except, mbind, M_bind, logger_info, modify in H.
    destruct (executor_map _ _ _) as [[fs|e1|] w2] eqn:He; simpl in H.
    + by injection H as <-.
    + by apply executor_map_no_raise in He.
    + done.
Qed.

Lemma upload_worker_takes_the_queue_witness :
  upload_worker_turn flaky_client quiet_os ByKey 3 started = (Hang, started).
Proof.
  apply (proj1 (upload_worker_takes_the_queue flaky_client quiet_os ByKey 3 started)).
  reflexivity.
Defined.

(** ** The watcher and the monitor *)

(** X16. The watcher's handler is gated by its flag. While the flag is set
    a watched event is appended to the queue, which remembers the time;
    while it is cleared the event is dropped. So after [pause], and after
    [stop] even when it raises, a watched event leaves the queue as it
    was. *)
Theorem watcher_is_gated (event : FileSystemEvent) (w : World) :
  (fh_running w = true →
   FileEventHandler_on_any_event event w
   = (Ret tt, set_local_q {| queue := queue (local_q w) ++ [event];
                             update_time := clock w |} w)) ∧
  (fh_running w = false → FileEventHandler_on_any_event event w = (Ret tt, w)) ∧
  FileEventHandler_on_any_event event (pause w).2 = (Ret tt, (pause w).2) ∧
  FileEventHandler_on_any_event event (stop w).2 = (Ret tt, (stop w).2).
Proof.
  unfold FileEventHandler_on_any_event, mbind, M_bind, gets. split_and!.
  - by intros ->.
  - by intros ->.
  - done.
  - unfold stop, mbind, M_bind, gets, modify. simpl.
    by destruct (local_observer_thread w).
Qed.

Ltac frame_prim :=
  unfold logger_info, local_q_put, local_q_qsize, Thread_start, signal_connect,
    time_time, CONF_get_lastsync, inode, del_inode_to_path, del_stat_info.

Ltac frame_step :=
  lazymatch goal with
  | |- keeps _ (mret _) => apply keeps_ret
  | |- keeps _ (raise _) => apply keeps_raise
  | |- keeps _ (gets _) => apply keeps_gets
  | |- keeps _ (modify _) =>
      apply keeps_modify; intros w0; try (case_bool_decide); reflexivity
  | |- keeps _ (_ ≫= _) => apply keeps_bind; [|intros ?]
  | |- keeps _ (for_ _ _) => apply keeps_for; intros ?
  | |- keeps _ (if ?b then _ else _) => destruct b
  | |- keeps _ (match ?x with _ => _ end) => destruct x
  end.

Lemma upload_local_changes_keeps_observer client os :
  keeps local_observer_thread (upload_local_changes_after_inactive client os).
Proof.
  unfold upload_local_changes_after_inactive, _get_local_changes.
  repeat (frame_prim; frame_step).
Qed.

(** X17. [stop] needs the observer that only a [start] which got past its
    guard creates. Without it [stop] clears the two flags and raises
    [AttributeError]; with it [stop] returns. On a freshly constructed
    monitor [start] returns at the guard, so that a [stop] after it raises;
    after a [start] on a stopped monitor that the user has not paused,
    [stop] returns. *)
Theorem stop_needs_started_observer (client : Client) (os : OS) (w : World) :
  (local_observer_thread w = None →
   stop w = (Raise AttributeError, set_fh_running false (set_running false w))) ∧
  (is_Some (local_observer_thread w) →
   stop w = (Ret tt, set_local_observer_thread (Some false)
                       (set_fh_running false (set_running false w)))) ∧
  (∀ now last_sync revs,
     (start client os;; stop) (BirdBoxMonitor now last_sync revs)
     = (Raise AttributeError, BirdBoxMonitor now last_sync revs)) ∧
  (∀ w', running w = false → paused_by_user w = false →
         start client os w = (Ret tt, w') →
         ∃ w'', stop w' = (Ret tt, w'') ∧ running w'' = false ∧ fh_running w'' = false).
Proof.
  split_and!.
  - intros Hn. unfold stop, mbind, M_bind, modify, gets. simpl. by rewrite Hn.
  - intros [b Hb]. unfold stop, mbind, M_bind, modify, gets. simpl. by rewrite Hb.
  - reflexivity.
  - intros w' Hr Hp Hs.
    assert (local_observer_thread w' = Some true) as Hobs.
    { unfold start in Hs. unfold mbind at 1 2, M_bind at 1 2, gets in Hs.
      rewrite Hr, Hp in Hs. cbn [orb] in Hs. cbv beta iota in Hs.
      unfold mbind at 1, M_bind at 1, modify at 1 in Hs.
      match type of Hs with ?c ?s = _ =>
        assert (keeps local_observer_thread c) as Hk end.
      { do 5 (apply keeps_bind; [repeat (frame_prim; frame_step)|intros _]).
        apply keeps_bind; [apply upload_local_changes_keeps_observer|intros _].
        repeat (frame_prim; frame_step). }
      match type of Hs with ?c ?s = _ => specialize (Hk s) end.
      rewrite Hs in Hk. exact Hk. }
    unfold stop, mbind, M_bind, modify, gets. simpl. rewrite Hobs.
    eexists. split; [reflexivity|done].
Qed.

Lemma stop_needs_started_observer_witness :
  ∃ w'', stop (start flaky_client quiet_os
                 (set_paused_by_user false (BirdBoxMonitor 1000 500 tracked))).2
         = (Ret tt, w'') ∧ running w'' = false ∧ fh_running w'' = false.
Proof.
  apply (proj2 (proj2 (proj2 (stop_needs_started_observer flaky_client quiet_os
                                (set_paused_by_user false
                                   (BirdBoxMonitor 1000 500 tracked)))))
           (start flaky_client quiet_os
              (set_paused_by_user false (BirdBoxMonitor 1000 500 tracked))).2);
    [reflexivity | reflexivity | by vm_compute].
Defined.

Lemma then_two_modifies (c : M unit) (f g : World → World) (w w' : World) :
  (c;; modify f;; modify g) w = (Ret tt, w') → ∃ w2, w' = g (f w2).
Proof.
  unfold mbind, M_bind, modify. destruct (c w) as [[[]|e|] w2]; [|done..].
  intros [= <-]. by exists w2.
Qed.

(** X18. [start] spawns its threads once. When a call of [start] has
    returned, a second call returns with the state as the first left it. *)
Theorem start_twice_is_start_once (client : Client) (os : OS) (w w' : World) :
  start client os w = (Ret tt, w') → start client os w' = (Ret tt, w').
Proof.
  intros H.
  assert (running w' = true ∨ paused_by_user w' = true) as Hg.
  { unfold start in H. unfold mbind at 1 2, M_bind at 1 2, gets in H.
    destruct (running w) eqn:Hr; simpl in H.
    - injection H as <-. by left.
    - destruct (paused_by_user w) eqn:Hp; simpl in H.
      + injection H as <-. by right.
      + left.
        do 6 (unfold mbind at 1, M_bind at 1 in H;
              match type of H with
              | context [match ?c ?s with _ => _ end] =>
                  let o := fresh "o" in let s1 := fresh "s" in
                  destruct (c s) as [[[]|?|] s1]; [|done..]
              end).
        apply then_two_modifies in H as [w2 ->]. done. }
  unfold start, mbind, M_bind, gets.
  destruct Hg as [-> | ->]; [done|]. by rewrite orb_true_r.
Qed.

Lemma start_twice_is_start_once_witness :
  start flaky_client quiet_os
    (start flaky_client quiet_os
       (set_paused_by_user false (BirdBoxMonitor 1000 500 tracked))).2
  = (Ret tt, (start flaky_client quiet_os
                (set_paused_by_user false (BirdBoxMonitor 1000 500 tracked))).2).
Proof.
  apply (start_twice_is_start_once flaky_client quiet_os
           (set_paused_by_user false (BirdBoxMonitor 1000 500 tracked))).
  by vm_compute.
Defined.

Lemma upload_local_changes_eq (client : Client) (os : OS) (w : World) (st : stat_result) :
  _stat_info (scandir os (clock w) (dropbox_path client)) !! dropbox_path client = Some st →
  is_Some (_inode_to_path (scandir os (clock w) (dropbox_path client))
             !! (st_ino st, st_dev st)) →
  ∃ changes,
    _get_local_changes client os w = (Ret changes, w) ∧
    upload_local_changes_after_inactive client os w
    = (Ret tt,
       set_log ((log w ++ ["Indexing..."]) ++ ["Up to date"])
         (set_local_q {| queue := queue (local_q w) ++ changes;
                         update_time := match changes with
                                        | [] => update_time (local_q w)
                                        | _ => clock w
                                        end |} w)).
Proof.
  intros Hroot Hino.
  pose proof (get_local_changes_eq client os w st Hroot Hino) as Hg.
  pose proof (get_local_changes_eq client os
                (set_log (log w ++ ["Indexing..."]) w) st Hroot Hino) as Hg'.
  eexists. split; [exact Hg|].
  unfold upload_local_changes_after_inactive, mbind, M_bind, logger_info, modify.
  rewrite Hg', for_put_eq. reflexivity.
Qed.

Lemma resume_eq (client : Client) (os : OS) (w : World) (st : stat_result) :
  running w = false → paused_by_user w = false →
  _stat_info (scandir os (clock w) (dropbox_path client)) !! dropbox_path client = Some st →
  is_Some (_inode_to_path (scandir os (clock w) (dropbox_path client))
             !! (st_ino st, st_dev st)) →
  ∃ changes,
    _get_local_changes client os w = (Ret changes, w) ∧
    resume client os w
    = (Ret tt,
       set_fh_running true (set_running true
         (set_log ((log w ++ ["Indexing..."]) ++ ["Up to date"])
            (set_local_q {| queue := queue (local_q w) ++ changes;
                            update_time := match changes with
                                           | [] => update_time (local_q w)
                                           | _ => clock w
                                           end |} w)))).
Proof.
  intros Hr Hp Hroot Hino.
  destruct (upload_local_changes_eq client os w st Hroot Hino) as (changes & Hg & Hu).
  exists changes. split; [done|].
  unfold resume, mbind, M_bind, gets. rewrite Hr, Hp. cbn [orb]. cbv beta.
  by rewrite Hu.
Qed.

(** X19. [resume] on a monitor that runs already does nothing. On one that
    is stopped and not paused by the user it reconciles: the events of the
    offline reconciliation are appended to the queue in their order, both
    flags are set, and the clock, [lastsync], the revision store and the
    record of calls are as before. *)
Theorem resume_replays_offline_changes (client : Client) (os : OS) (w : World) :
  (running w = true → resume client os w = (Ret tt, w)) ∧
  (∀ st,
     running w = false → paused_by_user w = false →
     _stat_info (scandir os (clock w) (dropbox_path client)) !! dropbox_path client
       = Some st →
     is_Some (_inode_to_path (scandir os (clock w) (dropbox_path client))
                !! (st_ino st, st_dev st)) →
     ∃ changes w',
       _get_local_changes client os w = (Ret changes, w) ∧
       resume client os w = (Ret tt, w') ∧
       queue (local_q w') = queue (local_q w) ++ changes ∧
       running w' = true ∧ fh_running w' = true ∧
       log w' = log w ++ ["Indexing..."; "Up to date"] ∧
       clock w' = clock w ∧ lastsync w' = lastsync w ∧
       rev_dict w' = rev_dict w ∧ calls w' = calls w).
Proof.
  split.
  - intros Hr. unfold resume, mbind, M_bind, gets. by rewrite Hr.
  - intros st Hr Hp Hroot Hino.
    destruct (resume_eq client os w st Hr Hp Hroot Hino) as (changes & Hg & He).
    exists changes. eexists. split_and!; [exact Hg|exact He|try done..].
    cbn. by rewrite <- app_assoc.
Qed.

Lemma resume_replays_offline_changes_witness :
  ∃ changes w',
    _get_local_changes flaky_client quiet_os (set_running false started)
      = (Ret changes, set_running false started) ∧
    resume flaky_client quiet_os (set_running false started) = (Ret tt, w') ∧
    queue (local_q w') = queue (local_q (set_running false started)) ++ changes ∧
    running w' = true ∧ fh_running w' = true ∧
    log w' = log (set_running false started) ++ ["Indexing..."; "Up to date"] ∧
    clock w' = clock (set_running false started) ∧
    lastsync w' = lastsync (set_running false started) ∧
    rev_dict w' = rev_dict (set_running false started) ∧
    calls w' = calls (set_running false started).
Proof.
  apply (proj2 (resume_replays_offline_changes flaky_client quiet_os
                  (set_running false started)) (stat_at 1 100));
    [reflexivity | reflexivity | by vm_compute | by vm_compute; eexists].
Defined.

(** X20. Losing and finding the connection. On a started monitor that the
    user has not paused, the [disconnected] signal clears both flags and
    leaves the queue alone; the [connected] signal that follows reconciles
    and sets both flags again. *)
Theorem disconnect_then_reconnect (client : Client) (os : OS) (w : World)
    (st : stat_result) :
  receivers w = [(connected_signal, slot_resume); (disconnected_signal, slot_pause)] →
  paused_by_user w = false →
  _stat_info (scandir os (clock w) (dropbox_path client)) !! dropbox_path client = Some st →
  is_Some (_inode_to_path (scandir os (clock w) (dropbox_path client))
             !! (st_ino st, st_dev st)) →
  ∃ w1 w2 changes,
    signal_send client os disconnected_signal w = (Ret tt, w1) ∧
    running w1 = false ∧ fh_running w1 = false ∧ local_q w1 = local_q w ∧
    signal_send client os connected_signal w1 = (Ret tt, w2) ∧
    running w2 = true ∧ fh_running w2 = true ∧
    _get_local_changes client os w = (Ret changes, w) ∧
    queue (local_q w2) = queue (local_q w) ++ changes ∧
    sent w2 = sent w ++ [disconnected_signal; connected_signal].
Proof.
  intros Hrs Hp Hroot Hino.
  destruct (resume_eq client os
              (set_sent ((sent w ++ [disconnected_signal]) ++ [connected_signal])
                 (set_fh_running false (set_running false w)))
              st eq_refl Hp Hroot Hino) as (changes & Hg & He).
  pose proof (get_local_changes_eq client os w st Hroot Hino) as Hgw.
  pose proof (get_local_changes_eq client os
                (set_sent ((sent w ++ [disconnected_signal]) ++ [connected_signal])
                   (set_fh_running false (set_running false w))) st Hroot Hino) as Hg2.
  rewrite Hg2 in Hg. injection Hg as Hch.
  exists (set_fh_running false (set_running false
            (set_sent (sent w ++ [disconnected_signal]) w))).
  eexists. exists changes. split_and!.
  - unfold signal_send, mbind at 1 2, M_bind at 1 2, modify, gets.
    cbn [receivers set_sent]. rewrite Hrs. reflexivity.
  - done.
  - done.
  - done.
  - unfold signal_send, mbind at 1 2, M_bind at 1 2, modify, gets.
    cbn [receivers set_sent set_fh_running set_running]. rewrite Hrs.
    cbn [filter list_filter fst decide_rel]. simpl for_.
    unfold mbind, M_bind. simpl run_slot.
    match goal with |- context [resume client os ?W] =>
      change W with (set_sent ((sent w ++ [disconnected_signal]) ++ [connected_signal])
                       (set_fh_running false (set_running false w))) end.
    rewrite He. reflexivity.
  - done.
  - done.
  - rewrite Hgw, <- Hch. done.
  - done.
  - cbn. by rewrite <- app_assoc.
Qed.

Lemma disconnect_then_reconnect_witness :
  ∃ w1 w2 changes,
    signal_send flaky_client quiet_os disconnected_signal started = (Ret tt, w1) ∧
    running w1 = false ∧ fh_running w1 = false ∧ local_q w1 = local_q started ∧
    signal_send flaky_client quiet_os connected_signal w1 = (Ret tt, w2) ∧
    running w2 = true ∧ fh_running w2 = true ∧
    _get_local_changes flaky_client quiet_os started = (Ret changes, started) ∧
    queue (local_q w2) = queue (local_q started) ++ changes ∧
    sent w2 = sent started ++ [disconnected_signal; connected_signal].
Proof.
  apply (disconnect_then_reconnect flaky_client quiet_os started (stat_at 1 100));
    [reflexivity | reflexivity | by vm_compute | by vm_compute; eexists].
Defined.

(** ** The connection helper and the download worker *)

Lemma for_pause_eq (client : Client) (os : OS) (rs : list (signal * slot)) (s : World) :
  (∀ r, r ∈ rs → r.2 = slot_pause) →
  for_ rs (λ r, run_slot client os r.2) s
  = (Ret tt, match rs with
             | [] => s
             | _ => set_fh_running false (set_running false s)
             end).
Proof.
  revert s. induction rs as [|r rs IH]; intros s Hrs; simpl; [done|].
  unfold mbind, M_bind. rewrite (Hrs r) by left. simpl.
  rewrite IH by (intros r' Hr'; apply Hrs; by right). by destruct rs.
Qed.

Lemma signal_send_disconnected_eq (client : Client) (os : OS) (s : World) :
  (∀ r, r ∈ receivers s →
        r = (connected_signal, slot_resume) ∨ r = (disconnected_signal, slot_pause)) →
  signal_send client os disconnected_signal s
  = (Ret tt, match filter (λ r, r.1 = disconnected_signal) (receivers s) with
             | [] => set_sent (sent s ++ [disconnected_signal]) s
             | _ => set_fh_running false (set_running false
                      (set_sent (sent s ++ [disconnected_signal]) s))
             end).
Proof.
  intros Hrs. unfold signal_send, mbind at 1 2, M_bind at 1 2, modify, gets.
  cbn [receivers set_sent]. apply for_pause_eq.
  intros r [Hr Hin]%list_elem_of_filter.
  destruct (Hrs r Hin) as [-> | ->]; [done|reflexivity].
Qed.

Lemma connection_error_is_caught (e : exn) :
  CONNECTION_ERRORS e = true → is_interrupt e = false.
Proof. by destruct e. Qed.

(** X21. A probe of the connection helper that fails. On a connection
    error the turn returns: [running] and [connected] are cleared, the
    [disconnected] signal is sent once, which through the slot that
    [start] connects clears the watcher's flag too, "Connecting..." is
    logged and the helper sleeps one second. Any other exception leaves
    the turn, with only the call recorded. *)
Theorem failed_probe_pauses (client : Client) (os : OS) (w : World) (e : exn) :
  get_space_usage client (calls w) = inl e →
  (∀ r, r ∈ receivers w →
        r = (connected_signal, slot_resume) ∨ r = (disconnected_signal, slot_pause)) →
  (CONNECTION_ERRORS e = true →
   ∃ w', connection_helper_turn client os w = (Ret tt, w') ∧
         running w' = false ∧ connected w' = false ∧
         sent w' = sent w ++ [disconnected_signal] ∧
         log w' = log w ++ ["Connecting..."] ∧
         clock w' = clock w + 1000 ∧
         ((disconnected_signal, slot_pause) ∈ receivers w → fh_running w' = false) ∧
         local_q w' = local_q w ∧ lastsync w' = lastsync w) ∧
  (CONNECTION_ERRORS e = false →
   connection_helper_turn client os w
   = (Raise e, set_calls (calls w ++ [call_get_space_usage]) w)).
Proof.
  intros Hprobe Hrs. split.
  - intros Hc. pose proof (connection_error_is_caught e Hc) as Hi.
    unfold connection_helper_turn, try_except.
    unfold mbind, M_bind, client_get_space_usage, remote, modify, logger_info, time_sleep.
    rewrite Hprobe, Hi, Hc.
    rewrite signal_send_disconnected_eq by exact Hrs.
    cbn [receivers sent set_running set_connected set_calls].
    destruct (filter _ (receivers w)) as [|r rs] eqn:Hf.
    + eexists. split; [reflexivity|]. split_and!; try done.
      intros Hin. exfalso.
      assert ((disconnected_signal, slot_pause)
                ∈ filter (λ r : signal * slot, r.1 = disconnected_signal) (receivers w))
        as Hin' by (by apply list_elem_of_filter).
      rewrite Hf in Hin'. by apply elem_of_nil in Hin'.
    + eexists. split; [reflexivity|]. done.
  - intros Hc. unfold connection_helper_turn, try_except.
    unfold mbind, M_bind, client_get_space_usage, remote. rewrite Hprobe, Hc.
    by destruct (is_interrupt e).
Qed.

Lemma failed_probe_pauses_witness :
  ∃ w', connection_helper_turn offline_client quiet_os started = (Ret tt, w') ∧
        running w' = false ∧ connected w' = false ∧
        sent w' = sent started ++ [disconnected_signal] ∧
        log w' = log started ++ ["Connecting..."] ∧
        clock w' = clock started + 1000 ∧
        ((disconnected_signal, slot_pause) ∈ receivers started → fh_running w' = false) ∧
        local_q w' = local_q started ∧ lastsync w' = lastsync started.
Proof.
  apply (proj1 (failed_probe_pauses offline_client quiet_os started ConnectionError
                  eq_refl
                  ltac:(intros r Hr;
                        apply elem_of_cons in Hr as [->|Hr]; [by left|];
                        apply elem_of_cons in Hr as [->|Hr]; [by right|];
                        by apply elem_of_nil in Hr))).
  reflexivity.
Defined.

(** X22. A probe that succeeds while the monitor is connected sends the
    usage and nothing else: no [connected] signal, so no reconciliation;
    the flags, the queue and the log are as before, and the helper sleeps
    five seconds. *)
Theorem probe_while_connected_only_reports (client : Client) (os : OS) (w : World)
    (usage : Z) :
  get_space_usage client (calls w) = inr usage →
  connected w = true →
  (∀ r, r ∈ receivers w →
        r = (connected_signal, slot_resume) ∨ r = (disconnected_signal, slot_pause)) →
  connection_helper_turn client os w
  = (Ret tt, set_clock (clock w + 5000)
               (set_sent (sent w ++ [account_usage_signal])
                  (set_calls (calls w ++ [call_get_space_usage]) w))).
Proof.
  intros Hprobe Hc Hrs. unfold connection_helper_turn, try_except.
  unfold mbind, M_bind, client_get_space_usage, remote, gets, mret, M_ret.
  rewrite Hprobe. cbn [connected set_calls]. rewrite Hc.
  unfold signal_send, mbind, M_bind, modify, gets. cbn [receivers set_sent set_calls].
  assert (filter (λ r : signal * slot, r.1 = account_usage_signal) (receivers w) = [])
    as ->.
  { destruct (filter _ (receivers w)) as [|r rs] eqn:Hf; [done|].
    assert (r ∈ r :: rs) as Hin by left. rewrite <- Hf in Hin.
    apply list_elem_of_filter in Hin as [Hr Hin].
    destruct (Hrs r Hin) as [-> | ->]; discriminate. }
  reflexivity.
Qed.

Lemma probe_while_connected_only_reports_witness :
  connection_helper_turn flaky_client quiet_os started
  = (Ret tt, set_clock (clock started + 5000)
               (set_sent (sent started ++ [account_usage_signal])
                  (set_calls (calls started ++ [call_get_space_usage]) started))).
Proof.
  apply (probe_while_connected_only_reports flaky_client quiet_os started 0);
    [reflexivity | reflexivity |].
  intros r Hr. apply elem_of_cons in Hr as [->|Hr]; [by left|].
  apply elem_of_cons in Hr as [->|Hr]; [by right|]. by apply elem_of_nil in Hr.
Defined.

Ltac caught_by_download_worker Hrs :=
  rewrite signal_send_disconnected_eq by exact Hrs;
  cbn [receivers sent set_log set_fh_running set_rev_dict];
  destruct (filter _ _); (split; [done | right; done]).

(** X23. The download worker keeps connection errors to itself. Started on
    a running monitor, a turn either returns with [running] still set and
    no signal sent, or returns with [running] cleared and the
    [disconnected] signal sent once; and an exception that leaves the turn
    is no connection error, [running] is then still set and no signal has
    been sent. The turn never writes [lastsync]. *)
Theorem download_worker_catches_connection_errors (client : Client) (os : OS)
    (remote_changes : RemoteChanges) (w : World) :
  running w = true →
  (∀ r, r ∈ receivers w →
        r = (connected_signal, slot_resume) ∨ r = (disconnected_signal, slot_pause)) →
  match remote_worker_turn client os remote_changes w with
  | (Ret _, w') =>
      lastsync w' = lastsync w ∧
      ((running w' = true ∧ sent w' = sent w) ∨
       (running w' = false ∧ sent w' = sent w ++ [disconnected_signal]))
  | (Raise e, w') =>
      CONNECTION_ERRORS e = false ∧ running w' = true ∧ sent w' = sent w ∧
      lastsync w' = lastsync w
  | (Hang, _) => False
  end.
Proof.
  intros Hr Hrs.
  unfold remote_worker_turn, try_except, running_wait, client_wait_for_remote_changes,
    client_list_remote_changes, client_apply_remote_changes,
    mbind, M_bind, logger_info, modify, time_sleep, mret, M_ret.
  rewrite Hr. cbn [running set_log]. rewrite ?Hr.
  destruct (wait_for_remote_changes _ _ _) as [e|[]].
  - destruct (is_interrupt e) eqn:Hi; [by destruct e|].
    destruct (CONNECTION_ERRORS e) eqn:Hc; [|done].
    caught_by_download_worker Hrs.
  - cbn [running set_log set_fh_running]. rewrite Hr.
    destruct (list_remote_changes _ _) as [e|changes].
    + destruct (is_interrupt e) eqn:Hi; [by destruct e|].
      destruct (CONNECTION_ERRORS e) eqn:Hc; [|done].
      caught_by_download_worker Hrs.
    + destruct (apply_remote_changes _ _ _) as [[e|[]] revs].
      * destruct (is_interrupt e) eqn:Hi; [by destruct e|].
        destruct (CONNECTION_ERRORS e) eqn:Hc; [|done].
        caught_by_download_worker Hrs.
      * cbn. split; [done|]. by left.
  - cbn [running set_log set_fh_running]. rewrite Hr. cbn. split; [done|]. by left.
Qed.

Lemma download_worker_catches_connection_errors_witness :
  match remote_worker_turn flaky_client quiet_os unreachable started with
  | (Ret _, w') =>
      lastsync w' = lastsync started ∧
      ((running w' = true ∧ sent w' = sent started) ∨
       (running w' = false ∧ sent w' = sent started ++ [disconnected_signal]))
  | (Raise e, w') =>
      CONNECTION_ERRORS e = false ∧ running w' = true ∧ sent w' = sent started ∧
      lastsync w' = lastsync started
  | (Hang, _) => False
  end.
Proof.
  apply (download_worker_catches_connection_errors flaky_client quiet_os unreachable
           started); [reflexivity|].
  intros r Hr. apply elem_of_cons in Hr as [->|Hr]; [by left|].
  apply elem_of_cons in Hr as [->|Hr]; [by right|]. by apply elem_of_nil in Hr.
Defined.

(** X24. A turn of the download worker on a running monitor. When the long
    poll reports no change the turn only logs. When it reports changes and
    they are listed and applied, the watcher's flag is cleared while they
    are applied and set when the turn returns, two seconds later by the
    clock; no signal is sent, and the queue and [lastsync] are as
    before. *)
Theorem download_worker_applies_changes (client : Client) (os : OS)
    (remote_changes : RemoteChanges) (w : World) :
  running w = true →
  ((∀ w0 t, wait_for_remote_changes remote_changes w0 t = inr false) →
   remote_worker_turn client os remote_changes w
   = (Ret tt, set_log ((log w ++ ["Up to date"]) ++ ["Up to date"]) w)) ∧
  (∀ changes,
     (∀ w0 t, wait_for_remote_changes remote_changes w0 t = inr true) →
     (∀ w0, list_remote_changes remote_changes w0 = inr changes) →
     (∀ w0, (apply_remote_changes remote_changes w0 changes).1 = inr tt) →
     ∃ w', remote_worker_turn client os remote_changes w = (Ret tt, w') ∧
           fh_running w' = true ∧ running w' = true ∧
           clock w' = clock w + 2000 ∧
           log w' = log w ++ ["Up to date"; "Syncing..."; "Up to date"] ∧
           sent w' = sent w ∧ local_q w' = local_q w ∧ lastsync w' = lastsync w).
Proof.
  intros Hr. split.
  - intros Hwait.
    unfold remote_worker_turn, try_except, running_wait, client_wait_for_remote_changes,
      mbind, M_bind, logger_info, modify, mret, M_ret.
    rewrite Hr, Hwait. cbn [running set_log]. by rewrite Hr.
  - intros changes Hwait Hlist Happly.
    unfold remote_worker_turn, try_except, running_wait, client_wait_for_remote_changes,
      client_list_remote_changes, client_apply_remote_changes,
      mbind, M_bind, logger_info, modify, time_sleep, mret, M_ret.
    rewrite Hr, Hwait. cbn [running set_log]. rewrite Hr, Hlist.
    match goal with |- context [apply_remote_changes remote_changes ?s changes] =>
      specialize (Happly s);
      destruct (apply_remote_changes remote_changes s changes) as [[e|[]] revs] end;
      [done|].
    eexists. split; [reflexivity|]. cbn. split_and!; try done.
    by rewrite <- !app_assoc.
Qed.

Lemma download_worker_applies_changes_witness :
  ∃ w', remote_worker_turn flaky_client quiet_os one_change started = (Ret tt, w') ∧
        fh_running w' = true ∧ running w' = true ∧
        clock w' = clock started + 2000 ∧
        log w' = log started ++ ["Up to date"; "Syncing..."; "Up to date"] ∧
        sent w' = sent started ∧ local_q w' = local_q started ∧
        lastsync w' = lastsync started.
Proof.
  apply (proj2 (download_worker_applies_changes flaky_client quiet_os one_change
                  started eq_refl) [FileMetadata "/r.txt" "a1c10ce0dd79"]); reflexivity.
Defined.

(** X25. An exception that is no connection error, raised while remote
    changes are applied, leaves the download worker with the
    watcher's flag cleared: [fh_running.set()] is not reached, [running]
    stays set and no signal is sent. *)
Theorem failed_apply_leaves_watcher_off (client : Client) (os : OS)
    (remote_changes : RemoteChanges) (w : World) (changes : list Metadata) (e : exn) :
  running w = true →
  CONNECTION_ERRORS e = false →
  (∀ w0 t, wait_for_remote_changes remote_changes w0 t = inr true) →
  (∀ w0, list_remote_changes remote_changes w0 = inr changes) →
  (∀ w0, (apply_remote_changes remote_changes w0 changes).1 = inl e) →
  ∃ w', remote_worker_turn client os remote_changes w = (Raise e, w') ∧
        fh_running w' = false ∧ running w' = true ∧ sent w' = sent w.
Proof.
  intros Hr Hc Hwait Hlist Happly.
  unfold remote_worker_turn, try_except, running_wait, client_wait_for_remote_changes,
    client_list_remote_changes, client_apply_remote_changes,
    mbind, M_bind, logger_info, modify, time_sleep, mret, M_ret.
  rewrite Hr, Hwait. cbn [running set_log]. rewrite Hr, Hlist.
  match goal with |- context [apply_remote_changes remote_changes ?s changes] =>
    specialize (Happly s);
    destruct (apply_remote_changes remote_changes s changes) as [[e'|[]] revs] end;
    [|done].
  simpl in Happly. injection Happly as ->. rewrite Hc.
  destruct (is_interrupt e); (eexists; split; [reflexivity|done]).
Qed.

Lemma failed_apply_leaves_watcher_off_witness :
  ∃ w', remote_worker_turn flaky_client quiet_os failing_apply started = (Raise OSError, w') ∧
        fh_running w' = false ∧ running w' = true ∧ sent w' = sent started.
Proof.
  apply (failed_apply_leaves_watcher_off flaky_client quiet_os failing_apply started
           [FileMetadata "/r.txt" "a1c10ce0dd79"] OSError); reflexivity.
Defined.

(** ** Reconciliation when nothing happened *)

Lemma omap_all_None {A B} (f : A → option B) (l : list A) :
  (∀ x, x ∈ l → f x = None) → omap f l = [].
Proof.
  induction l as [|a l IH]; intros H; simpl; [done|].
  rewrite (H a) by left. apply IH. intros x Hx. apply H. by right.
Qed.

(** X26. A folder in sync reconciles to nothing. When no path of the
    snapshot other than the root was created or modified after [lastsync],
    and every key of the revision store has its local path in the snapshot
    up to case, as [str.lower] has it, the offline reconciliation returns
    no event. *)
Theorem in_sync_reconciles_nothing (client : Client) (os : OS) (w : World)
    (st : stat_result) :
  _stat_info (scandir os (clock w) (dropbox_path client)) !! dropbox_path client = Some st →
  is_Some (_inode_to_path (scandir os (clock w) (dropbox_path client))
             !! (st_ino st, st_dev st)) →
  (∀ path stats,
     path ≠ dropbox_path client →
     _stat_info (scandir os (clock w) (dropbox_path client)) !! path = Some stats →
     Z.max (st_ctime stats) (st_mtime stats) ≤ lastsync w) →
  (∀ key, is_Some (rev_dict w !! key) →
     ∃ path, path ≠ dropbox_path client ∧
             is_Some (_stat_info (scandir os (clock w) (dropbox_path client)) !! path) ∧
             lower os path = lower os (to_local_path client key)) →
  _get_local_changes client os w = (Ret [], w).
Proof.
  intros Hroot Hino Hold Hthere.
  rewrite (get_local_changes_eq client os w st Hroot Hino).
  rewrite !omap_all_None; [done|..].
  - intros [key rev] Hin%elem_of_map_to_list.
    destruct (deleted_item client os _ (key, rev)) as [e|] eqn:He; [exfalso|done].
    apply deleted_item_Some in He as [Hnin _]. apply Hnin.
    destruct (Hthere key) as (path & Hne & [s Hs] & Heq); [by eexists|].
    apply elem_of_lowercase_paths. exists path. split; [|done].
    exists s. by apply lookup_delete_Some.
  - intros [path stats] Hin%elem_of_map_to_list.
    apply lookup_delete_Some in Hin as [Hne Hin].
    destruct (modified_or_added client os _ _ _ (path, stats)) as [e|] eqn:He; [exfalso|done].
    apply modified_or_added_Some in He as [Hlt _]. simpl in Hlt.
    specialize (Hold path stats (not_eq_sym Hne) Hin). lia.
Qed.

Lemma in_sync_reconciles_nothing_witness :
  _get_local_changes flaky_client quiet_os
    (set_rev_dict {["/new.txt" := "a1c10ce0dd75"]} (set_lastsync 950 started))
  = (Ret [], set_rev_dict {["/new.txt" := "a1c10ce0dd75"]} (set_lastsync 950 started)).
Proof.
  apply (in_sync_reconciles_nothing flaky_client quiet_os
           (set_rev_dict {["/new.txt" := "a1c10ce0dd75"]} (set_lastsync 950 started))
           (stat_at 1 100)).
  - by vm_compute.
  - vm_compute. by eexists.
  - intros path stats Hne Hs. simpl in Hs. unfold small_tree in Hs. simpl in Hs.
    apply lookup_insert_Some in Hs as [[<- _]|[_ Hs]]; [done|].
    apply lookup_singleton_Some in Hs as [_ <-]. by vm_compute.
  - intros key [rev Hk]. simpl in Hk.
    apply lookup_singleton_Some in Hk as [<- _].
    exists "/root/New.txt". split_and!; [done| by vm_compute; eexists | by vm_compute].
Defined.

(** ** Coalescing twice *)

Lemma py_eq_py_key m x y : py_eq m x y = true ↔ py_key m x = py_key m y.
Proof.
  destruct m; simpl; rewrite bool_decide_eq_true; split; congruence.
Qed.

Lemma filter_all {A} (P : A → Prop) `{!∀ x, Decision (P x)} (l : list A) :
  (∀ x, x ∈ l → P x) → filter P l = l.
Proof.
  induction l as [|a l IH]; intros Hall; [done|].
  rewrite filter_cons_True by (apply Hall; left).
  f_equal. apply IH. intros x Hx. apply Hall. by right.
Qed.

Lemma filter_none {A} (P : A → Prop) `{!∀ x, Decision (P x)} (l : list A) :
  (∀ x, x ∈ l → ¬ P x) → filter P l = [].
Proof.
  induction l as [|a l IH]; intros Hall; [done|].
  rewrite filter_cons_False by (apply Hall; left).
  apply IH. intros x Hx. apply Hall. by right.
Qed.

Lemma py_set_sublist m (l : list obj) : py_set m l `sublist_of` l.
Proof.
  induction l as [|a l IH]; simpl; [done|].
  apply sublist_skip. etrans; [apply sublist_filter | exact IH].
Qed.

Lemma py_set_NoDup m (l : list obj) : NoDup (py_key m <$> py_set m l).
Proof.
  induction l as [|a l IH]; [constructor|].
  cbn [py_set]. rewrite fmap_cons. apply NoDup_cons. split.
  - intros (y & Hk & Hy)%list_elem_of_fmap.
    apply list_elem_of_filter in Hy as [Hne _].
    apply py_eq_py_key in Hk. rewrite Hk in Hne. done.
  - eapply sublist_NoDup; [exact IH|]. apply fmap_sublist, sublist_filter.
Qed.

Lemma py_set_id m (l : list obj) : NoDup (py_key m <$> l) → py_set m l = l.
Proof.
  induction l as [|a l IH]; [done|].
  rewrite fmap_cons. intros [Hnin Hnd]%NoDup_cons. simpl.
  rewrite IH by done. f_equal. apply filter_all. intros y Hy.
  destruct (py_eq m a y) eqn:E; [|done]. exfalso. apply Hnin.
  apply py_eq_py_key in E. rewrite E. by apply list_elem_of_fmap_2.
Qed.

Lemma py_diff_nil m (l : list obj) : py_diff m l [] = l.
Proof. unfold py_diff. by apply filter_all. Qed.

Lemma gather_nil (child : obj → obj → bool) (parents events : list obj) :
  (∀ c p, c ∈ events → p ∈ parents → child c p = false) →
  gather child parents events = [].
Proof.
  unfold gather. induction parents as [|p parents IH]; intros H; simpl; [done|].
  rewrite IH by (intros c p' Hc Hp'; apply H; [done | by right]).
  rewrite app_nil_r. apply filter_none. intros c Hc.
  rewrite (H c p Hc) by left. by intros [].
Qed.

Lemma pass_id isparent child m (l : list obj) :
  NoDup (py_key m <$> l) →
  (∀ c p, c ∈ l → p ∈ l → isparent p = true → child c p = false) →
  pass isparent child m l = l.
Proof.
  intros Hnd Hno. unfold pass. rewrite gather_nil.
  - simpl. by rewrite py_set_id, py_diff_nil.
  - intros c p Hc [Hpar%Is_true_true Hp]%list_elem_of_filter. by apply Hno.
Qed.

Lemma pass_sublist isparent child m (l : list obj) :
  pass isparent child m l `sublist_of` l.
Proof.
  unfold pass, py_diff. etrans; [apply sublist_filter | apply py_set_sublist].
Qed.

Lemma pass_NoDup isparent child m (l : list obj) :
  NoDup (py_key m <$> pass isparent child m l).
Proof.
  unfold pass, py_diff.
  eapply sublist_NoDup; [apply (py_set_NoDup m l)|].
  apply fmap_sublist, sublist_filter.
Qed.

Lemma objects_fst (B : list FileSystemEvent) : (objects B).*1 = seq 0 (length B).
Proof.
  unfold objects. rewrite fmap_imap.
  rewrite (imap_ext _ (λ j _, id j)) by done.
  by rewrite imap_seq_0, list_fmap_id.
Qed.

Lemma objects_snd (B : list FileSystemEvent) : (objects B).*2 = B.
Proof.
  unfold objects. rewrite fmap_imap.
  rewrite (imap_ext _ (const id)) by done.
  by rewrite imap_const, list_fmap_id.
Qed.

Lemma objects_NoDup m (B : list FileSystemEvent) :
  NoDup B ∨ m = ByIdentity → NoDup (py_key m <$> objects B).
Proof.
  intros H. destruct m.
  - change (py_key ByIdentity)
      with ((inl : nat → nat + FileSystemEvent) ∘ (fst : obj → nat)).
    rewrite list_fmap_compose, objects_fst. apply (NoDup_fmap_2 _), NoDup_seq.
  - destruct H as [H|?]; [|done].
    change (py_key ByKey)
      with ((inr : FileSystemEvent → nat + FileSystemEvent) ∘ (snd : obj → FileSystemEvent)).
    rewrite list_fmap_compose, objects_snd. by apply (NoDup_fmap_2 _).
Qed.

Lemma by_event_moved : by_event is_moved_child.
Proof.
  intros x y x' y' Hx Hy Hid. unfold is_moved_child, is_not. rewrite Hx, Hy.
  do 3 f_equal. apply bool_decide_ext. done.
Qed.

Lemma by_event_deleted : by_event is_deleted_child.
Proof.
  intros x y x' y' Hx Hy Hid. unfold is_deleted_child, is_not. rewrite Hx, Hy.
  do 3 f_equal. apply bool_decide_ext. done.
Qed.

Lemma by_event_modified : by_event is_modified_duplicate.
Proof.
  intros x y x' y' Hx Hy Hid. unfold is_modified_duplicate. by rewrite Hx, Hy.
Qed.

(** Objects numbered anew keep the child relation they do not have. *)
Lemma renumbered_no_child (isparent : obj → bool) (child : obj → obj → bool)
    (kept : list obj) :
  by_event child →
  (∀ x x', x.2 = x'.2 → isparent x = isparent x') →
  NoDup kept.*1 →
  (∀ c p, c ∈ kept → p ∈ kept → isparent p = true → child c p = false) →
  ∀ c p, c ∈ objects kept.*2 → p ∈ objects kept.*2 →
         isparent p = true → child c p = false.
Proof.
  intros Hch Hpar Hnd Hno c p Hc Hp Hip.
  apply elem_of_objects, list_lookup_fmap_Some in Hc as (c0 & Hc & Ec).
  apply elem_of_objects, list_lookup_fmap_Some in Hp as (p0 & Hp & Ep).
  rewrite (Hch c p c0 p0); [|done|done|].
  - apply Hno; [by eapply list_elem_of_lookup_2..|].
    by rewrite (Hpar p0 p).
  - split.
    + intros E. rewrite E in Ec. congruence.
    + intros E. apply (NoDup_lookup kept.*1 c.1 p.1 c0.1); [done|..].
      * by apply list_lookup_fmap_Some_2.
      * rewrite E. by apply list_lookup_fmap_Some_2.
Qed.

Lemma coalesce_sublist m (l : list obj) : coalesce m l `sublist_of` l.
Proof.
  unfold coalesce. rewrite combine_created_pass.
  etrans; [apply pass_sublist|]. rewrite combine_deleted_pass.
  etrans; [apply pass_sublist|]. rewrite combine_moved_pass. apply pass_sublist.
Qed.

Lemma coalesce_no_child m (B : list FileSystemEvent) (c p : obj) :
  c ∈ coalesce m (objects B) → p ∈ coalesce m (objects B) →
  (is_moved_folder p = true → is_moved_child c p = false) ∧
  (is_deleted_folder p = true → is_deleted_child c p = false) ∧
  (is_created p = true → is_modified_duplicate c p = false).
Proof.
  intros Hc Hp. unfold coalesce in Hc, Hp.
  pose proof (combine_created_subseteq _ _ _ Hc) as Hc2.
  pose proof (combine_created_subseteq _ _ _ Hp) as Hp2.
  pose proof (combine_deleted_subseteq _ _ _ Hc2) as Hc1.
  pose proof (combine_deleted_subseteq _ _ _ Hp2) as Hp1.
  pose proof (combine_moved_subseteq _ _ _ Hp1) as Hp0.
  split_and!; intros Hpar.
  - destruct (is_moved_child c p) eqn:E; [exfalso|done].
    rewrite combine_moved_pass in Hc1. by apply (pass_drops _ _ _ _ _ p Hc1 Hp0).
  - destruct (is_deleted_child c p) eqn:E; [exfalso|done].
    rewrite combine_deleted_pass in Hc2. by apply (pass_drops _ _ _ _ _ p Hc2 Hp1).
  - destruct (is_modified_duplicate c p) eqn:E; [exfalso|done].
    rewrite combine_created_pass in Hc. by apply (pass_drops _ _ _ _ _ p Hc Hp2).
Qed.

(** X27. Coalescing is idempotent: coalescing a coalesced batch gives the
    same batch again, whichever equality [set] uses. *)
Theorem coalescing_twice (m : set_equality) (B : list FileSystemEvent) :
  coalesced m (coalesced m B) = coalesced m B.
Proof.
  unfold coalesced.
  pose proof (coalesce_sublist m (objects B)) as Hsub.
  pose proof (coalesce_no_child m B) as Hno.
  assert (NoDup (py_key m <$> coalesce m (objects B))) as Hkey.
  { unfold coalesce. rewrite combine_created_pass. apply pass_NoDup. }
  revert Hsub Hno Hkey. generalize (coalesce m (objects B)). intros kept Hsub Hno Hkey.
  assert (NoDup kept.*1) as Hids.
  { eapply sublist_NoDup; [|apply fmap_sublist, Hsub].
    rewrite objects_fst. apply NoDup_seq. }
  assert (NoDup (py_key m <$> objects kept.*2)) as HO.
  { apply objects_NoDup. destruct m; [by right|left].
    apply (NoDup_fmap_1 (inr : FileSystemEvent → nat + FileSystemEvent)).
    by rewrite <- list_fmap_compose. }
  assert (coalesce m (objects kept.*2) = objects kept.*2) as ->;
    [|apply objects_snd].
  unfold coalesce.
  rewrite combine_moved_pass, pass_id; [|done|].
  2:{ apply (renumbered_no_child is_moved_folder is_moved_child kept);
        [apply by_event_moved | | done |].
      - intros x x' E. unfold is_moved_folder. by rewrite E.
      - intros c p Hc Hp. apply (Hno c p Hc Hp). }
  rewrite combine_deleted_pass, pass_id; [|done|].
  2:{ apply (renumbered_no_child is_deleted_folder is_deleted_child kept);
        [apply by_event_deleted | | done |].
      - intros x x' E. unfold is_deleted_folder. by rewrite E.
      - intros c p Hc Hp. apply (Hno c p Hc Hp). }
  rewrite combine_created_pass, pass_id; [done|done|].
  apply (renumbered_no_child is_created is_modified_duplicate kept);
    [apply by_event_modified | | done |].
  - intros x x' E. unfold is_created. by rewrite E.
  - intros c p Hc Hp. apply (Hno c p Hc Hp).
Qed.
